(** * Upload service ([src/server.js]): a shallow embedding and its properties

    The development follows the layout of the server:
    - JavaScript strings, numbers and the parts of Node's [path] module the
      server calls ([path.join], [path.extname]);
    - the multer configuration ([storage.filename], [fileFilter], the size
      limit) and multer's single-file middleware;
    - the in-memory [uploadSessions] map and the route handlers;
    - the Express layer stack built by [app.use]/[app.get]/[app.post].

    A JavaScript string is modelled as the [string] of the bytes of its
    UTF-8 encoding (for ASCII text these are its characters): the bytes a
    path has on disk.  Every delimiter the code looks for ([/], [.], [%],
    the letters of a pattern) is ASCII, and no byte of a longer UTF-8
    sequence is, so the string functions below act on these bytes as the
    JavaScript functions act on the code units.  Integers are [Z]; the
    [Map] is a [gmap]; the file system is a finite map from absolute paths
    to nodes.  Code that throws is written in
    a state-and-exception monad, so that whatever the source skips after a
    [throw] is skipped here as well.  Console output is not modelled. *)

From Stdlib Require Import ZArith Ascii String.
From stdpp Require Import base gmap strings list fin_maps pretty.

Set Warnings "-register-all".
Local Open Scope Z_scope.

(* ===================================================================== *)
(** * Characters and strings *)
(* ===================================================================== *)

Module Str.

Definition slash : ascii := "/"%char.
Definition dot : ascii := "."%char.

Definition is_slash (c : ascii) : bool := Ascii.eqb c slash.
Definition is_dot (c : ascii) : bool := Ascii.eqb c dot.

Definition to_list (s : string) : list ascii := list_ascii_of_string s.
Definition of_list (l : list ascii) : string := string_of_list_ascii l.

(** [s.split('/')]: the pieces between separators; never empty. *)
Fixpoint split_slash (s : string) : list string :=
  match s with
  | EmptyString => [EmptyString]
  | String c s' =>
      if is_slash c then EmptyString :: split_slash s'
      else match split_slash s' with
           | seg :: rest => String c seg :: rest
           | [] => [String c EmptyString]
           end
  end.

(** [segs.join('/')]. *)
Fixpoint join_slash (segs : list string) : string :=
  match segs with
  | [] => EmptyString
  | [seg] => seg
  | seg :: rest => seg +:+ String slash (join_slash rest)
  end.

(** [s.indexOf(p) === 0]. *)
Fixpoint starts_with (p s : string) : bool :=
  match p, s with
  | EmptyString, _ => true
  | String a p', String b s' => Ascii.eqb a b && starts_with p' s'
  | String _ _, EmptyString => false
  end.

Fixpoint drop_prefix (p s : string) : option string :=
  match p, s with
  | EmptyString, _ => Some s
  | String a p', String b s' =>
      if Ascii.eqb a b then drop_prefix p' s' else None
  | String _ _, EmptyString => None
  end.

Fixpoint has_slash (s : string) : bool :=
  match s with
  | EmptyString => false
  | String c s' => is_slash c || has_slash s'
  end.

Fixpoint last_char (s : string) : option ascii :=
  match s with
  | EmptyString => None
  | String c EmptyString => Some c
  | String _ s' => last_char s'
  end.

Definition first_char (s : string) : option ascii :=
  match s with
  | EmptyString => None
  | String c _ => Some c
  end.

Definition eqb (a b : string) : bool := String.eqb a b.

(** ASCII case mapping: the only case folding that can relate a character
    to an ASCII letter under the [i] flag of a non-unicode regular
    expression, and the one [path-to-regexp] patterns rely on. *)
Definition upper (c : ascii) : ascii :=
  let n := N_of_ascii c in
  if ((97 <=? n) && (n <=? 122))%N then ascii_of_N (n - 32) else c.

Definition lower (c : ascii) : ascii :=
  let n := N_of_ascii c in
  if ((65 <=? n) && (n <=? 90))%N then ascii_of_N (n + 32) else c.

Fixpoint map_chars (f : ascii → ascii) (s : string) : string :=
  match s with
  | EmptyString => EmptyString
  | String c s' => String (f c) (map_chars f s')
  end.

Definition toLowerCase (s : string) : string := map_chars lower s.

Fixpoint all_chars (P : ascii → bool) (s : string) : bool :=
  match s with
  | EmptyString => true
  | String c s' => P c && all_chars P s'
  end.

(** Neither a separator nor a dot. *)
Definition plain (c : ascii) : bool := negb (is_slash c) && negb (is_dot c).

(** Every 8-bit character, and the check that the two case mappings
    identify the same pairs. *)
Definition all_ascii : list ascii := map ascii_of_nat (seq 0 256).

Definition fold_agree (a b : ascii) : bool :=
  Bool.eqb (Ascii.eqb (upper a) (upper b)) (Ascii.eqb (lower a) (lower b)).

(** The NUL byte, which no path may hold. *)
Fixpoint has_nul (s : string) : bool :=
  match s with
  | EmptyString => false
  | String c s' => Ascii.eqb c "000"%char || has_nul s'
  end.

(** [s.split(/[\\/]/)]: the pieces between separators of either kind. *)
Definition is_sep (c : ascii) : bool := is_slash c || Ascii.eqb c "092"%char.

Fixpoint split_seps (s : string) : list string :=
  match s with
  | EmptyString => [EmptyString]
  | String c s' =>
      if is_sep c then EmptyString :: split_seps s'
      else match split_seps s' with
           | seg :: rest => String c seg :: rest
           | [] => [String c EmptyString]
           end
  end.

Definition hex_value (c : ascii) : option N :=
  let n := N_of_ascii c in
  if ((48 <=? n) && (n <=? 57))%N then Some (n - 48)%N
  else if ((65 <=? n) && (n <=? 70))%N then Some (n - 55)%N
  else if ((97 <=? n) && (n <=? 102))%N then Some (n - 87)%N
  else None.

(** [decodeURIComponent].  The text is read as characters and [%XY]
    escapes; a malformed escape raises [URIError] ([None]). *)
Inductive uri_item :=
| Raw (c : ascii)
| Escape (byte : N).

Fixpoint uri_items (s : string) : option (list uri_item) :=
  match s with
  | EmptyString => Some []
  | String c s' =>
      if Ascii.eqb c "%"%char then
        match s' with
        | String h (String l s'') =>
            match hex_value h, hex_value l, uri_items s'' with
            | Some a, Some b, Some r => Some (Escape (16 * a + b) :: r)
            | _, _, _ => None
            end
        | _ => None
        end
      else
        match uri_items s' with
        | Some r => Some (Raw c :: r)
        | None => None
        end
  end.

(** The escaped bytes must spell well-formed UTF-8: an escaped byte above
    127 starts a sequence of two to four escapes, without overlong forms,
    surrogates or code points above U+10FFFF.  [need] continuation bytes
    are still due, the next of them within [[lo, hi]]. *)
Fixpoint utf8_escapes (items : list uri_item) (need : nat) (lo hi : N) : bool :=
  match items, need with
  | [], O => true
  | [], S _ => false
  | Raw _ :: rest, O => utf8_escapes rest O 128 191
  | Raw _ :: _, S _ => false
  | Escape b :: rest, O =>
      if (b <? 128)%N then utf8_escapes rest O 128 191
      else if ((194 <=? b) && (b <=? 223))%N then utf8_escapes rest 1 128 191
      else if (b =? 224)%N then utf8_escapes rest 2 160 191
      else if (b =? 237)%N then utf8_escapes rest 2 128 159
      else if ((225 <=? b) && (b <=? 239))%N then utf8_escapes rest 2 128 191
      else if (b =? 240)%N then utf8_escapes rest 3 144 191
      else if ((241 <=? b) && (b <=? 243))%N then utf8_escapes rest 3 128 191
      else if (b =? 244)%N then utf8_escapes rest 3 128 143
      else false
  | Escape b :: rest, S k =>
      ((lo <=? b) && (b <=? hi))%N && utf8_escapes rest k 128 191
  end.

Definition item_byte (i : uri_item) : ascii :=
  match i with
  | Raw c => c
  | Escape b => ascii_of_N b
  end.

Definition decodeURIComponent (s : string) : option string :=
  match uri_items s with
  | Some items =>
      if utf8_escapes items O 128 191 then Some (of_list (map item_byte items))
      else None
  | None => None
  end.

End Str.

(* ===================================================================== *)
(** * Node's [path] module (POSIX flavour) *)
(* ===================================================================== *)

Module Path.
Import Str.

(** One step of [normalizeString]: [stack] holds the segments kept so far,
    innermost first.  Empty and ["."] segments are dropped; [".."] removes
    the last kept segment, or is kept itself when the path is relative and
    nothing is left to remove. *)
Definition norm_step (allowAboveRoot : bool) (stack : list string)
    (seg : string) : list string :=
  if eqb seg "" || eqb seg "." then stack
  else if eqb seg ".." then
    match stack with
    | top :: rest =>
        if eqb top ".." then
          (if allowAboveRoot then seg :: stack else stack)
        else rest
    | [] => if allowAboveRoot then [seg] else []
    end
  else seg :: stack.

Definition normalizeString (p : string) (allowAboveRoot : bool) : string :=
  join_slash
    (rev (fold_left (norm_step allowAboveRoot) (split_slash p) [])).

Definition isAbsolute (p : string) : bool :=
  match first_char p with Some c => is_slash c | None => false end.

Definition trailingSeparator (p : string) : bool :=
  match last_char p with Some c => is_slash c | None => false end.

(** [path.normalize]. *)
Definition normalize (p : string) : string :=
  if eqb p "" then "."
  else
    let abs := isAbsolute p in
    let trail := trailingSeparator p in
    let q := normalizeString p (negb abs) in
    if eqb q "" then
      (if abs then "/" else if trail then "./" else ".")
    else
      let q' := if trail then q +:+ "/" else q in
      if abs then "/" +:+ q' else q'.

(** [path.join(a, b)]: empty arguments are skipped, the rest are glued
    with ["/"] and normalised. *)
Definition join (a b : string) : string :=
  if eqb a "" then (if eqb b "" then "." else normalize b)
  else if eqb b "" then normalize a
  else normalize (a +:+ String slash b).

(** [path.extname]: the text from the last ["."] of the last path
    component to its end; empty when there is no dot, when the only dot
    is the component's first character, or when the component is [".."].
    The component is scanned from the right, as Node does. *)
Fixpoint take_component (l : list ascii) : list ascii :=
  match l with
  | [] => []
  | c :: l' => if is_slash c then [] else c :: take_component l'
  end.

Fixpoint drop_slashes (l : list ascii) : list ascii :=
  match l with
  | [] => []
  | c :: l' => if is_slash c then drop_slashes l' else l
  end.

(** Split a reversed component at its first dot: the reversed extension
    characters and what lies to the left of the dot (reversed). *)
Fixpoint split_dot (l : list ascii) : option (list ascii * list ascii) :=
  match l with
  | [] => None
  | c :: l' =>
      if is_dot c then Some ([], l')
      else match split_dot l' with
           | Some (ext, pre) => Some (c :: ext, pre)
           | None => None
           end
  end.

Definition extname (p : string) : string :=
  let rcomp := take_component (drop_slashes (rev (to_list p))) in
  match split_dot rcomp with
  | None => ""
  | Some (rext, rpre) =>
      match rpre, rext with
      | [], _ => ""
      | [c], [] => if is_dot c then "" else of_list (dot :: rev rext)
      | _, _ => of_list (dot :: rev rext)
      end
  end.

(** An ordinary path segment: [normalize] keeps it as it is. *)
Definition ordinary (seg : string) : Prop :=
  seg ≠ "" ∧ seg ≠ "." ∧ seg ≠ ".." ∧ has_slash seg = false.

(** A text whose first character is not a dot. *)
Definition ordinary_head (s : string) : Prop :=
  ∃ c rest, s = String c rest ∧ is_dot c = false.

(** A path component that [send] treats as a dotfile. *)
Definition is_dotfile (seg : string) : bool :=
  match seg with
  | String c (String _ _) => is_dot c
  | _ => false
  end.

Definition containsDotFile (p : string) : bool :=
  existsb is_dotfile (split_slash p).

End Path.

(* ===================================================================== *)
(** * JavaScript numbers: [Math.random], [Math.round], number printing *)
(* ===================================================================== *)

Module JS.

(** A binary64 value in [[0, 1)], as [Math.random()] returns it: the
    value [mant / 2 ^ expo] with a significand of at most 53 bits and an
    exponent within the range of the format. *)
Record unit_double := { mant : Z; expo : Z }.

Definition valid_unit (x : unit_double) : Prop :=
  0 <= mant x < 2 ^ 53 /\ 0 <= expo x <= 1074 /\ mant x < 2 ^ expo x.

(** Round a non-negative integer to 53 significant bits, ties to even:
    what binary64 multiplication does to the exact product. *)
Definition round53 (n : Z) : Z :=
  let len := Z.log2 n + 1 in
  if len <=? 53 then n
  else
    let s := len - 53 in
    let q := n / 2 ^ s in
    let r := n mod 2 ^ s in
    let half := 2 ^ (s - 1) in
    let up := (half <? r) || ((r =? half) && Z.odd q) in
    (if up then q + 1 else q) * 2 ^ s.

(** [x * 1E9] in binary64, as a numerator over [2 ^ expo x]. *)
Definition times_1e9 (x : unit_double) : Z := round53 (mant x * 10 ^ 9).

(** [Math.round(y)] for [y = num / 2 ^ e]: the integer nearest to [y],
    halves going up. *)
Definition math_round (num e : Z) : Z := (2 * num + 2 ^ e) / 2 ^ (e + 1).

(** [Math.round(Math.random() * 1E9)]. *)
Definition random_suffix (x : unit_double) : Z :=
  math_round (times_1e9 x) (expo x).

(** [String(n)] / [`${n}`] for an integer below 1e21 in magnitude. *)
Definition number_to_string (n : Z) : string := pretty n.

(** Decimal digits, left-padded with zeros to [width]. *)
Fixpoint pad_digits (width : nat) (n : Z) : string :=
  match width with
  | O => ""
  | S w => pad_digits w (n / 10) +:+ pretty (n mod 10)
  end.

(** Civil date of a day count since 1970-01-01 (proleptic Gregorian). *)
Definition civil_from_days (days : Z) : Z * Z * Z :=
  let z := days + 719468 in
  let era := z / 146097 in
  let doe := z - era * 146097 in
  let yoe := (doe - doe / 1460 + doe / 36524 - doe / 146096) / 365 in
  let y := yoe + era * 400 in
  let doy := doe - (365 * yoe + yoe / 4 - yoe / 100) in
  let mp := (5 * doy + 2) / 153 in
  let d := doy - (153 * mp + 2) / 5 + 1 in
  let m := if mp <? 10 then mp + 3 else mp - 9 in
  (if m <=? 2 then y + 1 else y, m, d).

(** [new Date(ms).toISOString()]. *)
Definition toISOString (ms : Z) : string :=
  let days := ms / 86400000 in
  let rem := ms mod 86400000 in
  let '(y, m, d) := civil_from_days days in
  let year :=
    if (0 <=? y) && (y <=? 9999) then pad_digits 4 y
    else (if y <? 0 then "-" else "+") +:+ pad_digits 6 (Z.abs y) in
  year +:+ "-" +:+ pad_digits 2 m +:+ "-" +:+ pad_digits 2 d +:+ "T"
    +:+ pad_digits 2 (rem / 3600000) +:+ ":"
    +:+ pad_digits 2 (rem / 60000 mod 60) +:+ ":"
    +:+ pad_digits 2 (rem / 1000 mod 60) +:+ "."
    +:+ pad_digits 3 (rem mod 1000) +:+ "Z".

(** JSON values as [res.json] serialises them; object fields keep their
    insertion order. *)
Inductive json :=
| JNull
| JBool (b : bool)
| JNum (n : Z)
| JStr (s : string)
| JArr (items : list json)
| JObj (fields : list (string * json)).

End JS.

(* ===================================================================== *)
(** * Regular expressions, as far as [fileFilter] uses them *)
(* ===================================================================== *)

Module Regex.

Inductive regex :=
| Eps
| Chr (c : ascii)
| Seq (a b : regex)
| Alt (a b : regex)
| EndOfInput.

(** Backtracking matcher with a continuation, under the [i] flag: two
    characters agree when their canonical (upper-case) forms do. *)
Fixpoint rmatch (r : regex) (s : string) (k : string → bool) : bool :=
  match r with
  | Eps => k s
  | Chr c =>
      match s with
      | String x s' => Ascii.eqb (Str.upper x) (Str.upper c) && k s'
      | EmptyString => false
      end
  | Seq a b => rmatch a s (λ s', rmatch b s' k)
  | Alt a b => rmatch a s k || rmatch b s k
  | EndOfInput =>
      match s with
      | EmptyString => k s
      | String _ _ => false
      end
  end.

(** [str.match(re)] is truthy when the pattern matches at some offset. *)
Fixpoint search (r : regex) (s : string) : bool :=
  rmatch r s (λ _, true) ||
  match s with
  | EmptyString => false
  | String _ s' => search r s'
  end.

Fixpoint lit (w : string) : regex :=
  match w with
  | EmptyString => Eps
  | String c w' => Seq (Chr c) (lit w')
  end.

(** [(w|w1|...|wn)]. *)
Fixpoint alts (w : string) (ws : list string) : regex :=
  match ws with
  | [] => lit w
  | w' :: ws' => Alt (lit w) (alts w' ws')
  end.

End Regex.

(* ===================================================================== *)
(** * Requests, responses, errors and the state of the process *)
(* ===================================================================== *)

Module Http.

Inductive method := GET | HEAD | POST | PUT | DELETE | PATCH | OPTIONS.

Definition method_name (m : method) : string :=
  match m with
  | GET => "GET" | HEAD => "HEAD" | POST => "POST" | PUT => "PUT"
  | DELETE => "DELETE" | PATCH => "PATCH" | OPTIONS => "OPTIONS"
  end.

(** The file part of a multipart body, as busboy hands it to multer. *)
Record file_part := {
  fieldname : string;
  originalname : string;
  mimetype : string;
  payload : Z          (* number of bytes of the file *)
}.

Record request := {
  req_method : method;
  req_path : string;              (* [req.path], still percent-encoded *)
  req_ip : string;                (* [req.ip] *)
  req_part : option file_part;    (* the file of a multipart body, if any *)
  json_failure : option Z;        (* status [express.json()] fails with *)
  urlencoded_failure : option Z   (* status [express.urlencoded()] fails with *)
}.

(** [req.file] as multer's disk storage fills it in. *)
Record stored_file := {
  file_fieldname : string;
  file_originalname : string;
  file_mimetype : string;
  file_destination : string;
  file_filename : string;
  file_path : string;
  file_size : Z
}.

Inductive body :=
| Json (j : JS.json)
| FileContent (path : string)
| Html (text : string)      (* an HTML page that shows [text] *)
| NoBody.

Record response := { status : Z; content : body }.

Inductive multer_code := LIMIT_FILE_SIZE | LIMIT_UNEXPECTED_FILE.

Inductive error :=
| MulterError (code : multer_code) (message : string)
                                        (* [instanceof multer.MulterError] *)
| PlainError (message : string)         (* [new Error(message)] *)
| SystemError (code : string)           (* a failed file-system call *)
| TypeError (code : string)             (* an argument a Node function refuses *)
| HttpError (status : Z).               (* an error carrying [err.status] *)

(** What the environment decides during one request: clock readings, the
    random number, and what other processes do to the stored files while
    the request is handled. *)
Record env := {
  t_name : Z;                  (* [Date.now()] in [storage.filename] *)
  rnd : JS.unit_double;        (* [Math.random()] in [storage.filename] *)
  t_start : Z;                 (* [Date.now()] for [startTime] *)
  t_session : Z;               (* [Date.now()] for [sessionId] *)
  unlinked_before_stat : bool; (* the stored file is removed from outside
                                  between [existsSync] and [statSync] *)
  t_iso : Z;                   (* [new Date()] for the ISO timestamp *)
  t_end : Z;                   (* [Date.now()] for [uploadTime] *)
  unlinked_after_scan : list string;
                               (* paths removed from outside between
                                  [readdir] and its callback *)
  cut_at_limit : bool;         (* whether the multipart parser reports the
                                  size limit for a file of exactly
                                  [limits.fileSize] bytes; releases of
                                  busboy differ on it *)
  multer_text : multer_code → string
                               (* the [message] the installed release of
                                  multer gives an error of each code;
                                  releases differ on it *)
}.

Inductive layer_id :=
| LCors | LJson | LUrlencoded | LStatic
| LRoot | LUpload | LList | LGetFile | LHealth
| L404 | L405 | LError.

(** What the trace records: the calls of layer functions and of the
    filter, the changes multer makes to stored files, and the calls on the
    session map.  Calls that only read the file system ([existsSync],
    [statSync], [readdir], the lookups of [send]) are not recorded. *)
Inductive event :=
| EvEnter (l : layer_id)        (* Express calls the layer's function *)
| EvFilter (name : string)      (* multer calls [fileFilter] *)
| EvWrite (path : string)       (* bytes of an upload reach the disk *)
| EvUnlink (path : string)      (* the server removes a file *)
| EvHas (ip : string)           (* [uploadSessions.has] *)
| EvSet (ip : string)           (* [uploadSessions.set] *)
| EvDelete (ip : string).       (* [uploadSessions.delete] *)

(** The events multer records, and the events of the admission gate. *)
Definition storage_event (ev : event) : bool :=
  match ev with
  | EvFilter _ | EvWrite _ | EvUnlink _ => true
  | _ => false
  end.

Definition gate_event (ev : event) : bool :=
  match ev with
  | EvHas _ | EvSet _ | EvDelete _ => true
  | _ => false
  end.

Record stats := { st_size : Z; st_isDirectory : bool }.

Definition file_node (n : Z) : stats :=
  {| st_size := n; st_isDirectory := false |}.

Record world := {
  uploadSessions : gmap string string;
  fs : gmap string stats;
  trace : list event             (* oldest first *)
}.

Definition with_sessions (f : gmap string string → gmap string string)
    (w : world) : world :=
  {| uploadSessions := f (uploadSessions w); fs := fs w; trace := trace w |}.

Definition with_fs (f : gmap string stats → gmap string stats)
    (w : world) : world :=
  {| uploadSessions := uploadSessions w; fs := f (fs w); trace := trace w |}.

Definition with_event (ev : event) (w : world) : world :=
  {| uploadSessions := uploadSessions w; fs := fs w;
     trace := trace w ++ [ev] |}.

(** ** Computations that read and change the world and may throw *)

Inductive result (A : Type) :=
| Val (a : A)
| Throw (e : error).
Arguments Val {A} a.
Arguments Throw {A} e.

Definition M (A : Type) : Type := world → result A * world.

#[global] Instance M_ret : MRet M := λ A a w, (Val a, w).
#[global] Instance M_bind : MBind M := λ A B k m w,
  match m w with
  | (Val a, w') => k a w'
  | (Throw e, w') => (Throw e, w')
  end.

Definition throw {A} (e : error) : M A := λ w, (Throw e, w).
Definition emit (ev : event) : M unit := λ w, (Val tt, with_event ev w).

Fixpoint mapM {A B} (f : A → M B) (l : list A) : M (list B) :=
  match l with
  | [] => mret []
  | a :: l' => b ← f a; bs ← mapM f l'; mret (b :: bs)
  end.

(** ** The [uploadSessions] map *)

Definition sessions_has (ip : string) : M bool := λ w,
  (Val (bool_decide (is_Some (uploadSessions w !! ip))), with_event (EvHas ip) w).

Definition sessions_set (ip sid : string) : M unit := λ w,
  (Val tt, with_event (EvSet ip) (with_sessions (insert ip sid) w)).

Definition sessions_delete (ip : string) : M unit := λ w,
  (Val tt, with_event (EvDelete ip) (with_sessions (delete ip) w)).

(** ** The [fs] module *)

Definition fs_existsSync (p : string) : M bool := λ w,
  (Val (bool_decide (is_Some (fs w !! p))), w).

Definition fs_statSync (p : string) : M stats := λ w,
  match fs w !! p with
  | Some st => (Val st, w)
  | None => (Throw (SystemError "ENOENT"), w)
  end.

(** A name a directory entry can have: not empty, not ["."] or [".."],
    and free of separators. *)
Definition entry_name (name : string) : bool :=
  negb (Str.eqb name "" || Str.eqb name "." || Str.eqb name ".."
        || Str.has_slash name).

(** The name of [key] inside directory [dir], when it is a direct child. *)
Definition child_of (dir key : string) : option string :=
  match Str.drop_prefix (dir +:+ "/") key with
  | Some name => if entry_name name then Some name else None
  | None => None
  end.

Definition children (dir : string) (files : gmap string stats) : list string :=
  omap (λ kv, child_of dir (fst kv)) (map_to_list files).

(** [fs.readdir]: the names in the directory, or [None] for the error
    argument of the callback. *)
Definition fs_readdir (dir : string) : M (option (list string)) := λ w,
  match fs w !! dir with
  | Some st =>
      if st_isDirectory st then (Val (Some (children dir (fs w))), w)
      else (Val None, w)
  | None => (Val None, w)
  end.

(** [fs.createWriteStream(p)]: the path is validated at once, and a NUL
    byte in it is a [TypeError] thrown to the caller.  The file itself is
    opened later, by the stream ([disk_open]). *)
Definition fs_createWriteStream (p : string) : M unit := λ w,
  if Str.has_nul p then (Throw (TypeError "ERR_INVALID_ARG_VALUE"), w)
  else (Val tt, w).

(** The limits of the file system on a name and on a whole path, in bytes
    (Linux: ext4, xfs, btrfs, tmpfs). *)
Definition NAME_MAX : nat := 255.
Definition PATH_MAX : nat := 4096.

Definition last_component (p : string) : string :=
  List.last (Str.split_slash p) "".

Definition too_long (p : string) : bool :=
  (PATH_MAX <=? String.length p)%nat
  || (NAME_MAX <? String.length (last_component p))%nat.

(** The open of the write stream for [p] inside directory [dir]: the file
    is created or truncated.  A failure is the stream's ['error'] event. *)
Definition disk_open (dir p : string) : M unit := λ w,
  match fs w !! dir with
  | Some d =>
      if st_isDirectory d then
        if too_long p then (Throw (SystemError "ENAMETOOLONG"), w)
        else
          match fs w !! p with
          | Some t =>
              if st_isDirectory t then (Throw (SystemError "EISDIR"), w)
              else (Val tt, with_fs (insert p (file_node 0)) w)
          | None => (Val tt, with_fs (insert p (file_node 0)) w)
          end
      else (Throw (SystemError "ENOTDIR"), w)
  | None => (Throw (SystemError "ENOENT"), w)
  end.

Definition disk_write (p : string) (n : Z) : M unit := λ w,
  (Val tt,
   with_event (EvWrite p) (with_fs (insert p (file_node n)) w)).

Definition disk_unlink (p : string) : M unit := λ w,
  (Val tt, with_event (EvUnlink p) (with_fs (delete p) w)).

(** Another process removes files; the server takes no part in it. *)
Definition outside_unlink (ps : list string) : M unit := λ w,
  (Val tt, with_fs (λ m, foldr delete m ps) w).

End Http.

(* ===================================================================== *)
(** * The server *)
(* ===================================================================== *)

Module Server.
Import Http JS.

(** ** multer configuration (lines 29-60) *)

(** [storage.filename]: [`${timestamp}-${random}${extension}`]. *)
Definition storage_filename (e : env) (file : file_part) : string :=
  let timestamp := t_name e in
  let random := random_suffix (rnd e) in
  let extension := Path.extname (originalname file) in
  number_to_string timestamp +:+ "-" +:+ number_to_string random +:+ extension.

(** [limits.fileSize]. *)
Definition fileSize : Z := 10 * 1024 * 1024.

(** The parser reports the limit for a file of [n] bytes: always above
    [fileSize], never below it. *)
Definition over_limit (e : env) (n : Z) : bool :=
  (fileSize <? n) || ((n =? fileSize) && cut_at_limit e).

Definition allowedTypes : list string :=
  [ "image/jpeg"; "image/jpg"; "image/png"; "image/gif"; "image/webp";
    "model/gltf"; "model/glb"; "model/obj" ].

(** [/\.(jpg|jpeg|png|gif|webp|gltf|glb|obj)$/i]. *)
Definition allowedPattern : Regex.regex :=
  Regex.Seq (Regex.Chr ".")
    (Regex.Seq
       (Regex.alts "jpg" ["jpeg"; "png"; "gif"; "webp"; "gltf"; "glb"; "obj"])
       Regex.EndOfInput).

Inductive verdict :=
| Accept                       (* [cb(null, true)] *)
| Reject (message : string).   (* [cb(new Error(message), false)] *)

Definition fileFilter (file : file_part) : verdict :=
  if existsb (λ type, String.eqb (mimetype file) type) allowedTypes
     || Regex.search allowedPattern (originalname file)
  then Accept
  else Reject "Only image files and 3D models are allowed!".

(** The acceptance rule in the words of the specification, to compare
    [fileFilter] with. *)
Module FilterSpec.

Definition allowedMimeTypes : list string :=
  [ "image/jpeg"; "image/jpg"; "image/png"; "image/gif"; "image/webp";
    "model/gltf"; "model/glb"; "model/obj" ].

Definition allowedExtensions : list string :=
  [ ".jpg"; ".jpeg"; ".png"; ".gif"; ".webp"; ".gltf"; ".glb"; ".obj" ].

(** [name] ends with [ext], letter case set aside. *)
Definition ends_with_ignoring_case (ext name : string) : Prop :=
  ∃ front back, name = front +:+ back
                ∧ Str.toLowerCase back = Str.toLowerCase ext.

Definition acceptable (file : file_part) : Prop :=
  In (mimetype file) allowedMimeTypes
  ∨ ∃ ext, In ext allowedExtensions
           ∧ ends_with_ignoring_case ext (originalname file).

End FilterSpec.

(** ** Response bodies *)

Definition json_response (code : Z) (j : json) : response :=
  {| status := code; content := Json j |}.

Definition failure (code : Z) (message : string) : response :=
  json_response code (JObj [("success", JBool false); ("error", JStr message)]).

Definition too_many_requests : response :=
  failure 429 "Upload already in progress. Please wait.".

Definition no_file : response :=
  failure 400 "No file uploaded or invalid file type".

Definition upload_result (file : stored_file) (e : env) : json :=
  JObj [ ("success", JBool true);
         ("filename", JStr (file_filename file));
         ("originalName", JStr (file_originalname file));
         ("size", JNum (file_size file));
         ("mimetype", JStr (file_mimetype file));
         ("url", JStr ("/uploads/" +:+ file_filename file));
         ("uploadedAt", JStr (toISOString (t_iso e)));
         ("uploadTime", JStr (number_to_string (t_end e - t_start e) +:+ "ms")) ].

Definition list_entry (file : string) (size : Z) : json :=
  JObj [ ("name", JStr file);
         ("url", JStr ("/uploads/" +:+ file));
         ("size", JNum size) ].

Definition list_failure : response :=
  failure 500 "Failed to read uploads directory".

Definition access_denied : response :=
  json_response 403 (JObj [("error", JStr "Access denied")]).

Definition file_not_found : response :=
  json_response 404 (JObj [("error", JStr "File not found")]).

Definition route_not_found (req : request) : response :=
  json_response 404
    (JObj [ ("success", JBool false);
            ("error", JStr ("Route " +:+ req_path req +:+ " not found"));
            ("available",
             JObj [ ("GET /", JStr "Serve main page");
                    ("POST /upload", JStr "Upload files");
                    ("GET /uploads", JStr "List uploaded files");
                    ("GET /health", JStr "Health check") ]) ]).

Definition method_not_allowed (req : request) : response :=
  json_response 405
    (JObj [ ("success", JBool false);
            ("error", JStr ("Method " +:+ method_name (req_method req)
                            +:+ " not allowed for " +:+ req_path req));
            ("allowedMethods", JArr [JStr "GET"; JStr "POST"]) ]).

Definition file_too_large : response :=
  failure 400 "File too large. Maximum size is 10MB.".

Definition internal_error : response :=
  failure 500 "Internal server error".

(** The world after a handler run that took the gate and gave it back. *)
Definition settled (req : request) (w : world) : world :=
  {| uploadSessions := uploadSessions w; fs := fs w;
     trace := trace w ++ [EvHas (req_ip req); EvSet (req_ip req);
                          EvDelete (req_ip req)] |}.

(** What a layer's function does with the request. *)
Inductive step :=
| Next                     (* [next()] *)
| NextErr (e : error)      (* [next(err)], or a throw Express caught *)
| End (r : response)       (* a response was sent *)
| Crash (e : error).       (* an exception nobody catches *)

(** Express wraps each layer call in [try]/[catch]. *)
Definition guard (m : M step) : M step := λ w,
  match m w with
  | (Throw e, w') => (Val (NextErr e), w')
  | r => r
  end.

(** A throw inside an asynchronous callback escapes every handler. *)
Definition uncaught (m : M step) : M step := λ w,
  match m w with
  | (Throw e, w') => (Val (Crash e), w')
  | r => r
  end.

(** [res.sendFile(p)] for an absolute path: dotfiles are ignored, a
    missing file is an error, a directory is passed on with [next()]. *)
Definition res_sendFile (p : string) : M step := λ w,
  if Path.containsDotFile p then (Val (NextErr (HttpError 404)), w)
  else
    match fs w !! p with
    | None => (Val (NextErr (HttpError 404)), w)
    | Some st =>
        if st_isDirectory st then (Val Next, w)
        else (Val (End {| status := 200; content := FileContent p |}), w)
    end.

Section WithDirname.

(** [__dirname]: the directory that holds [server.js]. *)
Variable dirname : string.

Definition uploadDir : string := Path.join dirname "../public/uploads".
Definition publicDir : string := Path.join dirname "../public".
Definition indexHtml : string := Path.join dirname "../public/index.html".

(** [req.file] for a file that multer stored. *)
Definition stored_as (e : env) (file : file_part) : stored_file :=
  let destination := uploadDir in
  let filename := storage_filename e file in
  {| file_fieldname := fieldname file;
     file_originalname := originalname file;
     file_mimetype := mimetype file;
     file_destination := destination;
     file_filename := filename;
     file_path := Path.join destination filename;
     file_size := payload file |}.

(** The upload directory is in place and [p] can be opened for writing:
    no directory has that name, the path holds no NUL byte, and the file
    system takes a name and a path of that length. *)
Definition writable (w : world) (p : string) : Prop :=
  (∃ st, fs w !! uploadDir = Some st ∧ st_isDirectory st = true)
  ∧ (∀ st, fs w !! p = Some st → st_isDirectory st = false)
  ∧ Str.has_nul p = false
  ∧ too_long p = false.

(** What [upload.single] leaves behind when it does not fail the request
    with [next(err)]. *)
Inductive multer_result :=
| Parsed (file : option stored_file)
                         (* [next()], with [req.file] set or not *)
| Escaped (e : error).   (* an exception left one of multer's callbacks *)

(** multer's storage runs inside the callback of the parser's ['file']
    event: nothing catches what [m] throws there. *)
Definition in_callback {A} (m : M A) (k : M multer_result) : M multer_result :=
  λ w,
  match m w with
  | (Throw x, w') => (Val (Escaped x), w')
  | (Val _, w') => k w'
  end.

(** ** [upload.single('file')] (multer with the configuration above)

    multer skips a part that has no file name, checks the field name,
    asks [fileFilter], creates the write stream for
    [destination/filename] and streams the file into it; the size limit
    fires while streaming, after which the partial file is removed.  A
    failure of the filter, of the open or of the limit reaches Express as
    [next(err)]; what [fs.createWriteStream] throws escapes. *)
Definition upload_single (field : string) (req : request) (e : env)
    : M multer_result :=
  match req_part req with
  | None => mret (Parsed None)
  | Some file =>
      if Str.eqb (originalname file) "" then mret (Parsed None)
      else if negb (String.eqb (fieldname file) field)
      then throw (MulterError LIMIT_UNEXPECTED_FILE
                    (multer_text e LIMIT_UNEXPECTED_FILE))
      else
        emit (EvFilter (originalname file));;
        match fileFilter file with
        | Reject message => throw (PlainError message)
        | Accept =>
            let destination := uploadDir in
            let filename := storage_filename e file in
            let finalPath := Path.join destination filename in
            in_callback (fs_createWriteStream finalPath)
              (disk_open destination finalPath;;
               if over_limit e (payload file) then
                 disk_write finalPath fileSize;;
                 disk_unlink finalPath;;
                 throw (MulterError LIMIT_FILE_SIZE
                          (multer_text e LIMIT_FILE_SIZE))
               else
                 disk_write finalPath (payload file);;
                 mret (Parsed (Some (stored_as e file))))
        end
  end.

(** ** The handler of [POST /upload] (lines 68-142) *)
Definition upload_handler (req : request) (file : option stored_file)
    (e : env) : M step :=
  dup ← sessions_has (req_ip req);
  if dup : bool then mret (End too_many_requests)
  else
    let sessionId := req_ip req +:+ number_to_string (t_session e) in
    sessions_set (req_ip req) sessionId;;
    match file with
    | Some f =>
        let filePath := Path.join uploadDir (file_filename f) in
        present ← fs_existsSync filePath;
        if present : bool then
          outside_unlink (if unlinked_before_stat e then [filePath] else []);;
          _ ← fs_statSync filePath;
          mret tt
        else mret tt
    | None => mret tt
    end;;
    match file with
    | None =>
        sessions_delete (req_ip req);;
        mret (End no_file)
    | Some f =>
        let result := upload_result f e in
        sessions_delete (req_ip req);;
        mret (End (json_response 200 result))
    end.

(** [app.post('/upload', upload.single('file'), handler)]. *)
Definition upload_route (req : request) (e : env) : M step :=
  r ← upload_single "file" req e;
  match r with
  | Parsed file => upload_handler req file e
  | Escaped x => mret (Crash x)
  end.

(** ** The handler of [GET /uploads] (lines 145-167) *)

(** The function mapped over the scanned names. *)
Definition stat_entry (file : string) : M json :=
  st ← fs_statSync (Path.join uploadDir file);
  mret (list_entry file (st_size st)).

(** The callback of [fs.readdir]. *)
Definition list_callback (scan : option (list string)) : M step :=
  match scan with
  | None => mret (End list_failure)
  | Some files =>
      fileList ← mapM stat_entry files;
      mret (End (json_response 200
                   (JObj [ ("success", JBool true);
                           ("count", JNum (Z.of_nat (length fileList)));
                           ("files", JArr fileList) ])))
  end.

Definition list_handler (e : env) : M step :=
  scan ← fs_readdir uploadDir;
  outside_unlink (unlinked_after_scan e);;
  uncaught (list_callback scan).

(** ** The handler of [GET /uploads/:filename] (lines 171-185) *)
Definition getfile_handler (filename : string) : M step :=
  let filePath := Path.join uploadDir filename in
  if negb (Str.starts_with uploadDir filePath) then mret (End access_denied)
  else
    present ← fs_existsSync filePath;
    if negb present then mret (End file_not_found)
    else res_sendFile filePath.

(** ** The remaining handlers *)

Definition root_handler : M step := res_sendFile indexHtml.

Definition health_handler (e : env) : M step :=
  mret (End (json_response 200
               (JObj [ ("status", JStr "OK");
                       ("timestamp", JStr (toISOString (t_iso e)));
                       ("uploadsDir", JStr uploadDir) ]))).

Definition notfound_handler (req : request) : M step :=
  mret (End (route_not_found req)).

Definition notallowed_handler (req : request) : M step :=
  mret (End (method_not_allowed req)).

(** The global error handler (lines 222-242). *)
Definition error_response (err : error) : response :=
  match err with
  | MulterError code message =>
      match code with
      | LIMIT_FILE_SIZE => file_too_large
      | _ => failure 400 ("Upload error: " +:+ message)
      end
  | _ => internal_error
  end.

Definition error_handler (err : error) : M step :=
  mret (End (error_response err)).

End WithDirname.

End Server.

(* ===================================================================== *)
(** * Express: layers, route matching, dispatch *)
(* ===================================================================== *)

Module Express.
Import Http Server.

(** What a layer runs: ordinary middleware takes [(req, res, next)], an
    error handler takes [(err, req, res, next)]. *)
Inductive layer_fn :=
| Middleware (f : request → env → M step)
| ErrorMiddleware (f : error → request → env → M step).

(** What the router finds when it tries a layer on a request: the layer
    does not apply, it applies, or the path has the layer's form but a
    parameter in it does not decode. *)
Inductive matching :=
| NoMatch
| Matches
| MatchFails (e : error).

Definition matched (b : bool) : matching := if b then Matches else NoMatch.

Definition is_match (m : matching) : bool :=
  match m with Matches => true | _ => false end.

Record layer := {
  layer_name : layer_id;
  layer_match : request → matching;  (* path and method test of the layer *)
  layer_run : layer_fn
}.

(** What the client gets in the end. *)
Inductive final :=
| Responded (r : response)
| Crashed (e : error).

(** Express's default handler, reached when the stack is exhausted. *)
Definition finalhandler (err : option error) (req : request) : final :=
  match err with
  | None =>
      Responded {| status := 404;
                   content := Html ("Cannot " +:+ method_name (req_method req)
                                    +:+ " " +:+ req_path req) |}
  | Some (HttpError code) =>
      Responded {| status := if (400 <=? code) && (code <? 600) then code else 500;
                   content := Html "Error" |}
  | Some _ => Responded {| status := 500; content := Html "Error" |}
  end.

(** The router: layers are tried in registration order; while an error is
    pending only error handlers run, otherwise only ordinary layers.  A
    parameter that fails to decode while a path is matched leaves its
    error pending, unless one is pending already. *)
Fixpoint run (stack : list layer) (err : option error) (req : request)
    (e : env) : M final :=
  match stack with
  | [] => mret (finalhandler err req)
  | l :: rest =>
      let continue (s : step) : M final :=
        match s with
        | Next => run rest None req e
        | NextErr x => run rest (Some x) req e
        | End r => mret (Responded r)
        | Crash x => mret (Crashed x)
        end in
      match layer_match l req with
      | NoMatch => run rest err req e
      | MatchFails x => run rest (Some (default x err)) req e
      | Matches =>
          match err, layer_run l with
          | None, Middleware f =>
              emit (EvEnter (layer_name l));;
              s ← guard (f req e);
              continue s
          | Some x, ErrorMiddleware f =>
              emit (EvEnter (layer_name l));;
              s ← guard (f x req e);
              continue s
          | _, _ => run rest err req e
          end
      end
  end.

(** A computation whose response, if any, is not a 405 and which records
    no call of the 405 handler. *)
Definition tame {A} (answer : A → option response) (m : M A) : Prop :=
  ∀ w, ∃ a w' evs,
    m w = (Val a, w')
    ∧ (∀ r, answer a = Some r → status r ≠ 405)
    ∧ trace w' = trace w ++ evs
    ∧ Forall (λ ev, ev ≠ EvEnter L405) evs.

Definition step_answer (s : step) : option response :=
  match s with End r => Some r | _ => None end.

Definition final_answer (o : final) : option response :=
  match o with Responded r => Some r | Crashed _ => None end.

Definition tame_layer (l : layer) : Prop :=
  layer_name l ≠ L405
  ∧ match layer_run l with
    | Middleware f => ∀ req e, tame step_answer (guard (f req e))
    | ErrorMiddleware f => ∀ x req e, tame step_answer (guard (f x req e))
    end.

(** A route registered with [app.get] also answers [HEAD]. *)
Definition handles_method (route_method : method) (m : method) : bool :=
  match route_method, m with
  | GET, GET | GET, HEAD | POST, POST | HEAD, HEAD | PUT, PUT
  | DELETE, DELETE | PATCH, PATCH | OPTIONS, OPTIONS => true
  | _, _ => false
  end.

(** A fixed route path: matched without regard to case, with an optional
    trailing slash. *)
Definition match_path (pattern path : string) : bool :=
  let p := Str.toLowerCase path in
  if Str.eqb pattern "/" then Str.eqb p "" || Str.eqb p "/"
  else Str.eqb p pattern || Str.eqb p (pattern +:+ "/").

Fixpoint strip_prefix_ci (prefix s : string) : option string :=
  match prefix, s with
  | EmptyString, _ => Some s
  | String a p', String b s' =>
      if Ascii.eqb (Str.lower a) (Str.lower b) then strip_prefix_ci p' s'
      else None
  | String _ _, EmptyString => None
  end.

Fixpoint drop_last_slash (s : string) : string :=
  match s with
  | EmptyString => EmptyString
  | String c EmptyString => if Str.is_slash c then EmptyString else s
  | String c s' => String c (drop_last_slash s')
  end.

(** [prefix/:param]: the raw text of the one segment after [prefix]. *)
Definition match_param (prefix path : string) : option string :=
  match strip_prefix_ci (prefix +:+ "/") path with
  | Some rest =>
      let seg := drop_last_slash rest in
      if Str.eqb seg "" || Str.has_slash seg then None else Some seg
  | None => None
  end.

(** [cors()] with its defaults: a preflight request is answered at once. *)
Definition cors (req : request) (e : env) : M step :=
  match req_method req with
  | OPTIONS => mret (End {| status := 204; content := NoBody |})
  | _ => mret Next
  end.

(** [express.json()] and [express.urlencoded()]: they pass the request on
    or fail it with an error that carries a status. *)
Definition json_parser (req : request) (e : env) : M step :=
  match json_failure req with
  | Some code => mret (NextErr (HttpError code))
  | None => mret Next
  end.

Definition urlencoded_parser (req : request) (e : env) : M step :=
  match urlencoded_failure req with
  | Some code => mret (NextErr (HttpError code))
  | None => mret Next
  end.

(** [fs.stat(p)] as [send] calls it: the file system takes a path that
    ends in a separator for the directory of that name, and for nothing
    else.  [None] stands for the error argument of the callback. *)
Definition stat_path (files : gmap string stats) (p : string) : option stats :=
  match files !! drop_last_slash p with
  | Some st =>
      if Path.trailingSeparator p && negb (st_isDirectory st) then None
      else Some st
  | None => None
  end.

(** [express.static(root)], that is [send] with its defaults, for [GET]
    and [HEAD].  The request path is decoded; a path that does not decode,
    holds a NUL byte, climbs with [..] (between separators of either
    kind) or names a dotfile is passed on.  The rest is normalised and
    looked up below [root]: a request path that ends in a separator is
    answered with the [index.html] of that directory, any other with the
    file, or with a redirect when it names a directory; what is not found
    is passed on. *)
Definition serve_static (root : string) (req : request) (e : env) : M step :=
  λ w,
  match req_method req with
  | GET | HEAD =>
      match Str.decodeURIComponent (req_path req) with
      | None => (Val Next, w)
      | Some p =>
          if Str.has_nul p then (Val Next, w)
          else
            let rel :=
              if Str.eqb p "" then "" else Path.normalize ("./" +:+ p) in
            if existsb (Str.eqb "..") (Str.split_seps rel)
               || Path.containsDotFile rel
            then (Val Next, w)
            else
              let target := Path.normalize (Path.join root rel) in
              if Path.trailingSeparator (req_path req) then
                match stat_path (fs w) (Path.join target "index.html") with
                | Some st =>
                    if st_isDirectory st then (Val Next, w)
                    else (Val (End {| status := 200;
                                      content := FileContent (Path.join target "index.html") |}), w)
                | None => (Val Next, w)
                end
              else
                match stat_path (fs w) target with
                | Some st =>
                    if st_isDirectory st
                    then (Val (End {| status := 301;
                                      content := Html ("Redirecting to " +:+ req_path req +:+ "/") |}), w)
                    else (Val (End {| status := 200; content := FileContent target |}), w)
                | None => (Val Next, w)
                end
      end
  | _ => (Val Next, w)
  end.

End Express.

(* ===================================================================== *)
(** * The application: the stack in the order the source builds it *)
(* ===================================================================== *)

Module App.
Import Http Server Express.

Section WithDirname.
Variable dirname : string.

Definition always (req : request) : matching := Matches.

Definition route (m : method) (pattern : string) (req : request) : bool :=
  match_path pattern (req_path req) && handles_method m (req_method req).

(** The [:filename] parameter of [/uploads/:filename], which Express
    decodes while it matches the path: [None] when the path does not have
    that form, [Some None] when the segment does not decode. *)
Definition filename_param (req : request) : option (option string) :=
  Str.decodeURIComponent <$> match_param "/uploads" (req_path req).

(** The path is matched, and its parameter decoded, before the method is
    looked at. *)
Definition getfile_match (req : request) : matching :=
  match filename_param req with
  | None => NoMatch
  | Some None => MatchFails (HttpError 400)
  | Some (Some _) => matched (handles_method GET (req_method req))
  end.

Definition getfile_layer (req : request) (e : env) : M step :=
  match filename_param req with
  | Some (Some filename) => getfile_handler dirname filename
  | _ => mret Next
  end.

Definition stack : list layer :=
  [ {| layer_name := LCors; layer_match := always;
       layer_run := Middleware cors |};
    {| layer_name := LJson; layer_match := always;
       layer_run := Middleware json_parser |};
    {| layer_name := LUrlencoded; layer_match := always;
       layer_run := Middleware urlencoded_parser |};
    {| layer_name := LStatic; layer_match := always;
       layer_run := Middleware (serve_static (publicDir dirname)) |};
    {| layer_name := LRoot;
       layer_match := λ req, matched (route GET "/" req);
       layer_run := Middleware (λ _ _, root_handler dirname) |};
    {| layer_name := LUpload;
       layer_match := λ req, matched (route POST "/upload" req);
       layer_run := Middleware (upload_route dirname) |};
    {| layer_name := LList;
       layer_match := λ req, matched (route GET "/uploads" req);
       layer_run := Middleware (λ _ e, list_handler dirname e) |};
    {| layer_name := LGetFile; layer_match := getfile_match;
       layer_run := Middleware getfile_layer |};
    {| layer_name := LHealth;
       layer_match := λ req, matched (route GET "/health" req);
       layer_run := Middleware (λ _ e, health_handler dirname e) |};
    {| layer_name := L404; layer_match := always;
       layer_run := Middleware (λ req _, notfound_handler req) |};
    {| layer_name := L405; layer_match := always;
       layer_run := Middleware (λ req _, notallowed_handler req) |};
    {| layer_name := LError; layer_match := always;
       layer_run := ErrorMiddleware (λ err _ _, error_handler err) |} ].

(** One request served by the application. *)
Definition app (req : request) (e : env) : M final := run stack None req e.

(** Whether some [app.get]/[app.post] route is registered for the
    request's method and path. *)
Definition matches_route (req : request) : bool :=
  existsb (λ l, is_match (layer_match l req))
    (List.filter (λ l, match layer_name l with
                       | LRoot | LUpload | LList | LGetFile | LHealth => true
                       | _ => false
                       end) stack).

(** No path parameter of the request fails to decode while the routes
    are tried. *)
Definition params_decode (req : request) : bool :=
  forallb (λ l, match layer_match l req with
                | MatchFails _ => false
                | _ => true
                end) stack.

(** [POST /upload] on its own: the route, then the error handler for
    whatever it passes to [next(err)]. *)
Definition post_upload (req : request) (e : env) : M final :=
  s ← guard (upload_route dirname req e);
  match s with
  | End r => mret (Responded r)
  | NextErr err => mret (Responded (error_response err))
  | Crash err => mret (Crashed err)
  | Next => mret (Responded (route_not_found req))
  end.

(** The global middleware lets the request through to the routes: it is
    no preflight, its body parses, and no static file answers it. *)
Definition reaches_router (req : request) (e : env) (w : world) : Prop :=
  req_method req ≠ OPTIONS
  ∧ json_failure req = None
  ∧ urlencoded_failure req = None
  ∧ (serve_static (publicDir dirname) req e w).1 = Val Next.

(** [p] lies within directory [dir]. *)
Definition inside (dir p : string) : bool :=
  Str.eqb p dir || Str.starts_with (dir +:+ "/") p.

(** A sequence of upload requests, served one after the other. *)
Fixpoint serve_uploads (rs : list (request * env)) (w : world)
    : list (result final) * world :=
  match rs with
  | [] => ([], w)
  | (req, e) :: rest =>
      let '(r, w1) := post_upload req e w in
      let '(rs', w2) := serve_uploads rest w1 in
      (r :: rs', w2)
  end.

(** The request was answered with status 200. *)
Definition succeeded (r : result final) : Prop :=
  ∃ resp, r = Val (Responded resp) ∧ status resp = 200.

Definition succeededb (r : result final) : bool :=
  match r with
  | Val (Responded resp) => status resp =? 200
  | _ => false
  end.

(** The name [storage.filename] generates for a request, if it carries a
    file. *)
Definition generated_name (re : request * env) : option string :=
  storage_filename re.2 <$> req_part re.1.

(** The entries of the upload directory, and the size of one of them. *)
Definition entries (w : world) : list string :=
  children (uploadDir dirname) (fs w).

Definition entry_size (w : world) (name : string) : Z :=
  match fs w !! (uploadDir dirname +:+ "/" +:+ name) with
  | Some st => st_size st
  | None => 0
  end.

(** The upload directory exists. *)
Definition directory_ready (w : world) : Prop :=
  ∃ st, fs w !! uploadDir dirname = Some st ∧ st_isDirectory st = true.

End WithDirname.

End App.

(* ===================================================================== *)
(** * A concrete deployment, for the worked examples *)
(* ===================================================================== *)

Module Scenario.
Import Http Server JS.

Definition dirname : string := "/srv/app/src".

Definition directory : stats := {| st_size := 4096; st_isDirectory := true |}.

(** A fresh process: no session, an empty upload directory. *)
Definition fresh : world :=
  {| uploadSessions := ∅;
     fs := {[ uploadDir dirname := directory ]};
     trace := [] |}.

Definition photo : file_part :=
  {| fieldname := "file"; originalname := "photo.png";
     mimetype := "image/png"; payload := 2097152 |}.

(** The messages of one release of multer. *)
Definition release_text (c : multer_code) : string :=
  match c with
  | LIMIT_FILE_SIZE => "File too large"
  | LIMIT_UNEXPECTED_FILE => "Unexpected field"
  end.

Definition quiet : env :=
  {| t_name := 1700000000000;
     rnd := {| mant := 2 ^ 52; expo := 53 |};
     t_start := 1700000000005;
     t_session := 1700000000005;
     unlinked_before_stat := false;
     t_iso := 1700000000006;
     t_end := 1700000000007;
     unlinked_after_scan := [];
     cut_at_limit := false;
     multer_text := release_text |}.

Definition upload_from (ip : string) (file : file_part) : request :=
  {| req_method := POST; req_path := "/upload"; req_ip := ip;
     req_part := Some file; json_failure := None;
     urlencoded_failure := None |}.

Definition get (path : string) : request :=
  {| req_method := GET; req_path := path; req_ip := "10.0.0.7";
     req_part := None; json_failure := None; urlencoded_failure := None |}.

(** The path [photo] is stored under when uploaded with [quiet]. *)
Definition stored_path : string :=
  "/srv/app/public/uploads/1700000000000-500000000.png".

(** A process in which client 10.0.0.7 holds a gate entry. *)
Definition busy : world :=
  {| uploadSessions := {[ "10.0.0.7" := "10.0.0.71700000000001" ]};
     fs := {[ uploadDir dirname := directory ]};
     trace := [] |}.

(** As [quiet], but another process removes the stored file between the
    handler's [existsSync] and [statSync]. *)
Definition racing : env :=
  {| t_name := 1700000000000;
     rnd := {| mant := 2 ^ 52; expo := 53 |};
     t_start := 1700000000005;
     t_session := 1700000000005;
     unlinked_before_stat := true;
     t_iso := 1700000000006;
     t_end := 1700000000007;
     unlinked_after_scan := [];
     cut_at_limit := false;
     multer_text := release_text |}.

(** As [quiet], but another process removes the stored photo between the
    directory scan and its callback. *)
Definition sweeping : env :=
  {| t_name := 1700000000000;
     rnd := {| mant := 2 ^ 52; expo := 53 |};
     t_start := 1700000000005;
     t_session := 1700000000005;
     unlinked_before_stat := false;
     t_iso := 1700000000006;
     t_end := 1700000000007;
     unlinked_after_scan := [stored_path];
     cut_at_limit := false;
     multer_text := release_text |}.

(** As [quiet], with [Math.random()] returning [1 - 2^-31]. *)
Definition lucky : env :=
  {| t_name := 1700000000000;
     rnd := {| mant := 2 ^ 31 - 1; expo := 31 |};
     t_start := 1700000000005;
     t_session := 1700000000005;
     unlinked_before_stat := false;
     t_iso := 1700000000006;
     t_end := 1700000000007;
     unlinked_after_scan := [];
     cut_at_limit := false;
     multer_text := release_text |}.

(** As [quiet], one millisecond later. *)
Definition later : env :=
  {| t_name := 1700000000001;
     rnd := {| mant := 2 ^ 52; expo := 53 |};
     t_start := 1700000000006;
     t_session := 1700000000006;
     unlinked_before_stat := false;
     t_iso := 1700000000007;
     t_end := 1700000000008;
     unlinked_after_scan := [];
     cut_at_limit := false;
     multer_text := release_text |}.

(** An oversize file of a type and extension that are not allowed, and
    an oversize file that is an image. *)
Definition installer : file_part :=
  {| fieldname := "file"; originalname := "setup.exe";
     mimetype := "application/octet-stream"; payload := 20000000 |}.

Definition poster : file_part :=
  {| fieldname := "file"; originalname := "poster.png";
     mimetype := "image/png"; payload := 20000000 |}.

(** A deployment with a directory next to the upload directory whose
    name starts with the same text. *)
Definition secret_path : string := "/srv/app/public/uploads-old/secret.txt".

Definition with_sibling : world :=
  {| uploadSessions := ∅;
     fs := <[ secret_path := file_node 42 ]>
             (<[ "/srv/app/public/uploads-old" := directory ]>
                {[ uploadDir dirname := directory ]});
     trace := [] |}.

(** The deployment with the files the repository ships in [public/]. *)
Definition deployed : world :=
  {| uploadSessions := ∅;
     fs := <[ "/srv/app/public/index.html" := file_node 2048 ]>
             (<[ "/srv/app/public/script.js" := file_node 16384 ]>
                (<[ "/srv/app/public" := directory ]>
                   {[ uploadDir dirname := directory ]}));
     trace := [] |}.

Definition preflight : request :=
  {| req_method := OPTIONS; req_path := "/nowhere"; req_ip := "10.0.0.7";
     req_part := None; json_failure := None; urlencoded_failure := None |}.

(** A [POST] to a path of the form [/uploads/:filename] whose segment
    is no percent-encoding of anything. *)
Definition undecodable : request :=
  {| req_method := POST; req_path := "/uploads/a%zz"; req_ip := "10.0.0.7";
     req_part := None; json_failure := None; urlencoded_failure := None |}.

(** Two uploads in the same millisecond that draw the same random number
    and carry the same extension. *)
Definition colliding : list (request * env) :=
  [ (upload_from "10.0.0.7" photo, quiet); (upload_from "10.0.0.8" photo, quiet) ].

(** Two uploads one millisecond apart. *)
Definition distinct : list (request * env) :=
  [ (upload_from "10.0.0.7" photo, quiet); (upload_from "10.0.0.8" photo, later) ].

(** What a test can observe of a world. *)
Definition sessions_of (w : world) : list (string * string) :=
  map_to_list (uploadSessions w).

End Scenario.

(* ===================================================================== *)
(** * Process start: the upload directory and the empty session map
      (lines 18-26) *)
(* ===================================================================== *)

Module Startup.
Import Http Server.

(** The directories on the way to an absolute path, outermost first; the
    path itself comes last. *)
Fixpoint prefixes_from (base : string) (segs : list string) : list string :=
  match segs with
  | [] => []
  | seg :: rest =>
      let p := base +:+ "/" +:+ seg in
      p :: prefixes_from p rest
  end.

Definition ancestors (p : string) : list string :=
  prefixes_from ""
    (List.filter (λ seg, negb (Str.eqb seg "")) (Str.split_slash p)).

Definition new_directory (size : Z) : stats :=
  {| st_size := size; st_isDirectory := true |}.

Definition regular_file_at (files : gmap string stats) (p : string) : bool :=
  match files !! p with
  | Some st => negb (st_isDirectory st)
  | None => false
  end.

Definition make_missing (node : stats) (p : string)
    (files : gmap string stats) : gmap string stats :=
  match files !! p with
  | Some _ => files
  | None => <[p := node]> files
  end.

(** [fs.mkdirSync(p, { recursive: true })] for an absolute path: every
    directory on the way that is missing is created; a regular file on the
    way fails the call and nothing is created.  [size] is the size the
    file system gives a new directory. *)
Definition fs_mkdirSync_recursive (size : Z) (p : string) : M unit := λ w,
  match List.find (regular_file_at (fs w)) (ancestors p) with
  | Some a =>
      (Throw (SystemError (if Str.eqb a p then "EEXIST" else "ENOTDIR")), w)
  | None =>
      (Val tt,
       with_fs (λ files,
                  foldr (make_missing (new_directory size)) files (ancestors p)) w)
  end.

Section WithDirname.
Variable dirname : string.

(** Lines 18-23. *)
Definition startup (size : Z) : M unit :=
  present ← fs_existsSync (uploadDir dirname);
  if negb present then fs_mkdirSync_recursive size (uploadDir dirname)
  else mret tt.

(** The process when the module has been loaded over the files [files]:
    the session map is empty (line 26). *)
Definition boot (size : Z) (files : gmap string stats) : result unit * world :=
  startup size {| uploadSessions := ∅; fs := files; trace := [] |}.

End WithDirname.

End Startup.

(* ===================================================================== *)
(** * Vocabulary for the properties of names and of the whole stack *)
(* ===================================================================== *)

Module Digits.

Definition digit (c : ascii) : bool :=
  let n := N_of_ascii c in ((48 <=? n) && (n <=? 57))%N.

(** The text is empty or starts with something that is no digit. *)
Definition starts_without_digit (s : string) : bool :=
  match s with
  | EmptyString => true
  | String c _ => negb (digit c)
  end.

End Digits.

Module Outcome.
Import Http Server Express.

(** What a step says about the final outcome, if it settles it. *)
Definition answers (Q : request → env → final → Prop) (req : request)
    (e : env) (s : step) : Prop :=
  match s with
  | End r => Q req e (Responded r)
  | Crash x => Q req e (Crashed x)
  | Next | NextErr _ => True
  end.

(** Whenever the layer is called for a request it matches, it returns, and
    an outcome it settles satisfies [Q]. *)
Definition layer_keeps (Q : request → env → final → Prop) (l : layer) : Prop :=
  match layer_run l with
  | Middleware f =>
      ∀ req e w, layer_match l req = Matches →
        ∃ s w', guard (f req e) w = (Val s, w') ∧ answers Q req e s
  | ErrorMiddleware f =>
      ∀ x req e w, layer_match l req = Matches →
        ∃ s w', guard (f x req e) w = (Val s, w') ∧ answers Q req e s
  end.

(** The responses the application sends: a JSON body with one of six
    status codes (its own handlers), the empty 204 of a CORS preflight, a
    file (from [express.static] or [res.sendFile]) or the redirect of
    [express.static]. *)
Definition known_response (r : response) : Prop :=
  match content r with
  | Json _ => In (status r) [200; 400; 403; 404; 429; 500]
  | NoBody => status r = 204
  | FileContent _ => status r = 200
  | Html _ => status r = 301
  end.

Section WithDirname.
Variable dirname : string.

(** The outcomes of the application: a known response, a crash with
    [ENOENT] on the listing route, or a crash with the [TypeError] of
    [fs.createWriteStream] on the upload route, for a file whose storage
    path holds a NUL byte. *)
Definition app_outcome (req : request) (e : env) (o : final) : Prop :=
  match o with
  | Responded r => known_response r
  | Crashed x =>
      (x = SystemError "ENOENT"
       ∧ (match_path "/uploads" (req_path req)
          && handles_method GET (req_method req)) = true)
      ∨ (x = TypeError "ERR_INVALID_ARG_VALUE"
         ∧ (match_path "/upload" (req_path req)
            && handles_method POST (req_method req)) = true
         ∧ ∃ file,
             req_part req = Some file
             ∧ Str.has_nul (Path.join (uploadDir dirname)
                              (storage_filename e file)) = true)
  end.

End WithDirname.

End Outcome.

(* ===================================================================== *)
(** * More of the concrete deployment *)
(* ===================================================================== *)

Module Deployment.
Import Http Server JS App Scenario.

(** A machine on which only [/srv] exists. *)
Definition bare : gmap string stats := {[ "/srv" := directory ]}.

(** A machine on which a regular file sits where the upload directory
    should be. *)
Definition blocked : world :=
  {| uploadSessions := ∅;
     fs := <[ uploadDir dirname := file_node 12 ]>
             (<[ "/srv/app/public" := directory ]> ∅);
     trace := [] |}.

(** A process without an upload directory. *)
Definition unready : world :=
  {| uploadSessions := ∅; fs := ∅; trace := [] |}.

Definition upload_without_part (ip : string) : request :=
  {| req_method := POST; req_path := "/upload"; req_ip := ip;
     req_part := None; json_failure := None; urlencoded_failure := None |}.

(** The photo sent under a field name the route does not expect. *)
Definition misfiled : file_part :=
  {| fieldname := "avatar"; originalname := "photo.png";
     mimetype := "image/png"; payload := 2097152 |}.

(** A file of a type and extension that are not allowed. *)
Definition script : file_part :=
  {| fieldname := "file"; originalname := "run.sh";
     mimetype := "text/x-shellscript"; payload := 120 |}.

(** A photo whose original name tries to leave the upload directory. *)
Definition sneaky : file_part :=
  {| fieldname := "file"; originalname := "../../../etc/cron.d/job.png";
     mimetype := "image/png"; payload := 64 |}.

(** A machine on which [/srv/app] is a regular file. *)
Definition obstructed : world :=
  {| uploadSessions := ∅;
     fs := <[ "/srv/app" := file_node 7 ]> {[ "/srv" := directory ]};
     trace := [] |}.

(** The machine [bare] before the module is loaded. *)
Definition cold : world :=
  {| uploadSessions := ∅; fs := bare; trace := [] |}.

(** Three uploads in a row from one client: a photo, a file the filter
    turns away, and the photo again. *)
Definition repeated : list (request * env) :=
  [ (upload_from "10.0.0.7" photo, quiet);
    (upload_from "10.0.0.7" script, later);
    (upload_from "10.0.0.7" photo, later) ].

(** The fresh process after the photo has been uploaded. *)
Definition stored : world :=
  (post_upload dirname (upload_from "10.0.0.7" photo) quiet fresh).2.

Definition stored_name : string := "1700000000000-500000000.png".

(** A photo whose original name holds a NUL byte in its extension. *)
Definition nul_named : file_part :=
  {| fieldname := "file";
     originalname := "photo.p" +:+ String "000"%char "ng";
     mimetype := "image/png"; payload := 64 |}.

(** A photo whose extension is longer than a file name may be, and the
    same with more bytes than the size limit allows. *)
Definition long_named : file_part :=
  {| fieldname := "file";
     originalname := "photo." +:+ Str.of_list (replicate 300 "x"%char);
     mimetype := "image/png"; payload := 64 |}.

Definition long_named_poster : file_part :=
  {| fieldname := "file";
     originalname := "poster." +:+ Str.of_list (replicate 300 "x"%char);
     mimetype := "image/png"; payload := 20000000 |}.

(** A photo whose extension holds a question mark, and the path a client
    that fetches the [url] of the answer asks for: the URL ends where its
    query starts. *)
Definition queried : file_part :=
  {| fieldname := "file"; originalname := "photo.p?g";
     mimetype := "image/png"; payload := 64 |}.

Definition queried_url_path : string := "/uploads/1700000000000-500000000.p".

(** The fresh process with one stored file whose name must be escaped in
    a URL. *)
Definition odd_name : string := "a?b #1.png".

Definition with_odd_name : world :=
  {| uploadSessions := ∅;
     fs := <[ uploadDir dirname +:+ "/" +:+ odd_name := file_node 10 ]> (fs fresh);
     trace := [] |}.

(** The fresh process after the two uploads of [distinct]. *)
Definition twice : world := (serve_uploads dirname distinct fresh).2.

End Deployment.

(* ===================================================================== *)
(** * Sanity checks of the library models *)
(* ===================================================================== *)

Example join_ex1 : Path.join "/srv/app/src" "../public/uploads" = "/srv/app/public/uploads".
Proof. reflexivity. Qed.
Example join_ex2 : Path.join "/srv/app/public/uploads" "../../etc/passwd" = "/srv/app/etc/passwd".
Proof. reflexivity. Qed.
Example join_ex3 : Path.join "/a/b" "../../../x/" = "/x/".
Proof. reflexivity. Qed.
Example norm_ex1 : Path.normalize "a/../../b/./c//" = "../b/c/".
Proof. reflexivity. Qed.
Example extname_ex1 :
  map Path.extname ["index.html"; "index.coffee.md"; "index."; "index"; ".index"; ".index.md"; ".."; "a.b/c"; "x/photo.PNG/"; "..."; "a.."]
  = [".html"; ".md"; "."; ""; ""; ".md"; ""; ""; ".PNG"; "."; "."].
Proof. reflexivity. Qed.
Example decode_ex1 : Str.decodeURIComponent "..%2f..%2Fetc%2fpasswd" = Some "../../etc/passwd".
Proof. reflexivity. Qed.
Example decode_ex2 : Str.decodeURIComponent "a%zz" = None.
Proof. reflexivity. Qed.
Example decode_ex3 :
  map Str.decodeURIComponent ["caf%C3%A9"; "%ff"; "%C0%AF"; "%ED%A0%80"; "%C3x"]
  = [Some "café"; None; None; None; None].
Proof. reflexivity. Qed.
Example random_suffix_ex1 : JS.random_suffix {| JS.mant := 2 ^ 52; JS.expo := 53 |} = 500000000.
Proof. reflexivity. Qed.
Example random_suffix_ex2 : JS.random_suffix {| JS.mant := 1; JS.expo := 1 |} = 500000000.
Proof. reflexivity. Qed.
Example random_suffix_ex3 : JS.random_suffix {| JS.mant := 2 ^ 53 - 1; JS.expo := 53 |} = 1000000000.
Proof. reflexivity. Qed.
Example toISOString_ex1 : JS.toISOString 1700000000000 = "2023-11-14T22:13:20.000Z".
Proof. reflexivity. Qed.
Example toISOString_ex2 : JS.toISOString 951782400123 = "2000-02-29T00:00:00.123Z".
Proof. reflexivity. Qed.
Example toISOString_ex3 : JS.toISOString (-1) = "1969-12-31T23:59:59.999Z".
Proof. reflexivity. Qed.

(* ===================================================================== *)
(** * Characters: case folding *)
(* ===================================================================== *)

#[local] Arguments String.append !_ _ / : simpl nomatch.

Section CaseFolding.
Import Str.

Lemma all_ascii_complete (c : ascii) : In c all_ascii.
Proof.
  unfold all_ascii. rewrite <- (ascii_nat_embedding c).
  apply in_map, in_seq. pose proof (nat_ascii_bounded c). lia.
Qed.

Lemma fold_agree_all :
  forallb (λ a, forallb (fold_agree a) all_ascii) all_ascii = true.
Proof. vm_compute. reflexivity. Qed.

(** Upper-casing and lower-casing identify the same pairs of characters. *)
Lemma upper_eq_iff_lower_eq (a b : ascii) :
  upper a = upper b ↔ lower a = lower b.
Proof.
  pose proof fold_agree_all as H.
  rewrite forallb_forall in H. specialize (H a (all_ascii_complete a)).
  rewrite forallb_forall in H. specialize (H b (all_ascii_complete b)).
  unfold fold_agree in H. apply Bool.eqb_prop in H.
  rewrite <- !Ascii.eqb_eq. rewrite H. reflexivity.
Qed.

Lemma map_upper_eq_iff_lower_eq (s t : string) :
  map_chars upper s = map_chars upper t ↔ toLowerCase s = toLowerCase t.
Proof.
  unfold toLowerCase. revert t.
  induction s as [|a s IH]; intros [|b t]; simpl; try (split; congruence).
  split; intros H; injection H as Hc Hs.
  - apply upper_eq_iff_lower_eq in Hc. apply IH in Hs. congruence.
  - apply upper_eq_iff_lower_eq in Hc. apply IH in Hs. congruence.
Qed.

End CaseFolding.

(* ===================================================================== *)
(** * The regular-expression matcher *)
(* ===================================================================== *)

Section Matcher.
Import Str Regex.

Lemma append_nil_r (s : string) : s +:+ "" = s.
Proof. induction s; simpl; congruence. Qed.

Lemma append_assoc (a b c : string) : (a +:+ b) +:+ c = a +:+ b +:+ c.
Proof. induction a; simpl; congruence. Qed.

(** A literal matches a prefix that equals it up to case. *)
Lemma rmatch_lit (w s : string) (k : string → bool) :
  rmatch (lit w) s k = true
  ↔ ∃ front rest, s = front +:+ rest
                  ∧ map_chars upper front = map_chars upper w
                  ∧ k rest = true.
Proof.
  revert s. induction w as [|c w IH]; intros s; simpl.
  - split.
    + intros H. exists "", s. auto.
    + intros (front & rest & -> & Hf & Hk). destruct front; [exact Hk | discriminate].
  - destruct s as [|x s]; simpl.
    + split; [discriminate|].
      intros (front & rest & Hs & Hf & _). destruct front; discriminate.
    + rewrite andb_true_iff, Ascii.eqb_eq, IH. split.
      * intros (Hx & front & rest & -> & Hf & Hk).
        exists (String x front), rest. simpl. rewrite Hx, Hf. auto.
      * intros (front & rest & Hs & Hf & Hk).
        destruct front as [|y front]; [discriminate|].
        simpl in Hs, Hf. injection Hs as -> ->. injection Hf as Hc Hf.
        split; [exact Hc|]. exists front, rest. auto.
Qed.

(** An alternation of literals matches when one of them does. *)
Lemma rmatch_alts (w : string) (ws : list string) (s : string) (k : string → bool) :
  rmatch (alts w ws) s k = true
  ↔ ∃ w', In w' (w :: ws) ∧ rmatch (lit w') s k = true.
Proof.
  revert w. induction ws as [|w1 ws IH]; intros w.
  - simpl. split.
    + intros H. exists w. auto.
    + intros (w' & [<- | []] & H). exact H.
  - cbn [alts rmatch]. rewrite orb_true_iff, IH. split.
    + intros [H | (w' & Hin & H)].
      * exists w. split; [left; reflexivity | exact H].
      * exists w'. split; [right; exact Hin | exact H].
    + intros (w' & [<- | Hin] & H); [left; exact H|].
      right. exists w'. auto.
Qed.

(** [search] tries every suffix. *)
Lemma search_iff (r : regex) (s : string) :
  search r s = true
  ↔ ∃ front back, s = front +:+ back ∧ rmatch r back (λ _, true) = true.
Proof.
  induction s as [|c s IH]; simpl.
  - rewrite orb_false_r. split.
    + intros H. exists "", "". auto.
    + intros (front & back & Hs & H).
      destruct front; [|discriminate]. simpl in Hs. subst back. exact H.
  - rewrite orb_true_iff, IH. split.
    + intros [H | (front & back & -> & H)].
      * exists "", (String c s). auto.
      * exists (String c front), back. auto.
    + intros (front & back & Hs & H). destruct front as [|y front].
      * simpl in Hs. subst back. left. exact H.
      * simpl in Hs. injection Hs as -> ->. right. exists front, back. auto.
Qed.

(** [\.(w|...)$] matches exactly the texts that equal ["." ++ w'], for one
    of the alternatives [w'], up to case. *)
Lemma rmatch_dot_alts_end (c : ascii) (w : string) (ws : list string) (s : string) :
  rmatch (Seq (Chr c) (Seq (alts w ws) EndOfInput)) s (λ _, true) = true
  ↔ ∃ w', In w' (w :: ws)
          ∧ map_chars upper s = map_chars upper (String c w').
Proof.
  cbn [rmatch]. destruct s as [|x s].
  - split; [discriminate|]. intros (w' & _ & H). discriminate.
  - rewrite andb_true_iff, Ascii.eqb_eq, rmatch_alts. split.
    + intros (Hx & w' & Hin & H). exists w'. split; [exact Hin|].
      apply rmatch_lit in H as (front & rest & -> & Hf & Hk).
      destruct rest; [|discriminate]. rewrite append_nil_r.
      simpl. rewrite Hx, Hf. reflexivity.
    + intros (w' & Hin & H). simpl in H. injection H as Hx Hs.
      split; [exact Hx|]. exists w'. split; [exact Hin|].
      apply rmatch_lit. exists s, "". rewrite append_nil_r. auto.
Qed.

End Matcher.

(* ===================================================================== *)
(** * File validation *)
(* ===================================================================== *)

Section Validation.
Import Http Server.

Lemma mimetype_check (m : string) :
  existsb (λ type, String.eqb m type) allowedTypes = true
  ↔ In m FilterSpec.allowedMimeTypes.
Proof.
  rewrite existsb_exists. split.
  - intros (t & Hin & Heq). apply String.eqb_eq in Heq. subst t. exact Hin.
  - intros Hin. exists m. split; [exact Hin | apply String.eqb_refl].
Qed.

Lemma extension_check (name : string) :
  Regex.search allowedPattern name = true
  ↔ ∃ ext, In ext FilterSpec.allowedExtensions
           ∧ FilterSpec.ends_with_ignoring_case ext name.
Proof.
  unfold allowedPattern, FilterSpec.ends_with_ignoring_case.
  rewrite search_iff. split.
  - intros (front & back & -> & H).
    apply rmatch_dot_alts_end in H as (w' & Hin & H).
    exists (String "." w'). split.
    + simpl in Hin. simpl.
      repeat (destruct Hin as [<- | Hin]; [tauto|]). destruct Hin.
    + exists front, back. split; [reflexivity|].
      apply map_upper_eq_iff_lower_eq. exact H.
  - intros (ext & Hin & front & back & -> & H).
    exists front, back. split; [reflexivity|].
    apply rmatch_dot_alts_end.
    apply map_upper_eq_iff_lower_eq in H.
    simpl in Hin.
    repeat (destruct Hin as [<- | Hin];
            [eexists; split; [|exact H]; simpl; tauto|]).
    destruct Hin.
Qed.

(** C4.  [fileFilter] accepts a file exactly when its declared mime type is
    one of the eight allowed types or its original name ends, letter case
    set aside, with one of the eight allowed extensions; either check is
    enough, and a file that passes neither is rejected with an error that
    says what is allowed. *)
Theorem fileFilter_accepts_iff_type_or_extension (file : file_part) :
  (fileFilter file = Accept ↔ FilterSpec.acceptable file)
  ∧ (fileFilter file = Accept
     ∨ fileFilter file = Reject "Only image files and 3D models are allowed!")
  ∧ (In (mimetype file) FilterSpec.allowedMimeTypes → fileFilter file = Accept)
  ∧ ((∃ ext, In ext FilterSpec.allowedExtensions
             ∧ FilterSpec.ends_with_ignoring_case ext (originalname file))
     → fileFilter file = Accept).
Proof.
  assert (Hiff : fileFilter file = Accept ↔ FilterSpec.acceptable file).
  { unfold fileFilter, FilterSpec.acceptable.
    rewrite <- mimetype_check, <- extension_check, <- orb_true_iff.
    destruct (_ || _); split; congruence. }
  split; [exact Hiff|]. split.
  - unfold fileFilter. destruct (_ || _); auto.
  - split; intros H; apply Hiff; [left | right]; exact H.
Qed.

End Validation.

(* ===================================================================== *)
(** * The random suffix of a stored name *)
(* ===================================================================== *)

Section RandomSuffix.
Import JS.

Lemma round53_nonneg (n : Z) : 0 <= n → 0 <= round53 n.
Proof.
  intros Hn. unfold round53. cbv zeta.
  destruct (Z.leb_spec (Z.log2 n + 1) 53) as [_|Hlen]; [exact Hn|].
  assert (0 < 2 ^ (Z.log2 n + 1 - 53)) by (apply Z.pow_pos_nonneg; lia).
  assert (0 <= n / 2 ^ (Z.log2 n + 1 - 53)) by (apply Z.div_pos; lia).
  destruct (_ || _); nia.
Qed.

(** Rounding to 53 bits changes a number by at most one part in [2 ^ 53]. *)
Lemma round53_upper (n : Z) :
  0 <= n → 2 ^ 53 * round53 n <= (2 ^ 53 + 1) * n.
Proof.
  intros Hn. unfold round53. cbv zeta.
  destruct (Z.leb_spec (Z.log2 n + 1) 53) as [_|Hlen]; [lia|].
  set (s := Z.log2 n + 1 - 53) in *.
  assert (Hs : 1 <= s) by lia.
  assert (Hpos : 0 < n).
  { destruct (Z.eq_dec n 0) as [->|]; [|lia]. cbn in s. lia. }
  set (h := 2 ^ (s - 1)).
  assert (Hh : 0 < h) by (apply Z.pow_pos_nonneg; lia).
  assert (H2s : 2 ^ s = 2 * h).
  { unfold h. rewrite <- Z.pow_succ_r by lia. f_equal. lia. }
  assert (Hlow : 2 ^ 53 * h <= n).
  { unfold h. rewrite <- Z.pow_add_r by lia.
    replace (53 + (s - 1)) with (Z.log2 n) by lia.
    apply Z.log2_spec. exact Hpos. }
  rewrite H2s.
  pose proof (Z.div_mod n (2 * h) ltac:(lia)) as Hdm.
  pose proof (Z.mod_pos_bound n (2 * h) ltac:(lia)) as Hr.
  set (q := n / (2 * h)) in *. set (r := n mod (2 * h)) in *.
  destruct (Z.ltb_spec h r) as [Hup|Hup]; cbn [orb].
  - nia.
  - destruct (Z.eqb_spec r h) as [Heq|Hne]; cbn [andb].
    + destruct (Z.odd q); nia.
    + nia.
Qed.

(** [Math.round(Math.random() * 1E9)] lies in the closed range
    [[0, 1e9]]. *)
Lemma random_suffix_range (x : unit_double) :
  valid_unit x → 0 <= random_suffix x <= 10 ^ 9.
Proof.
  intros ((Hm0 & Hm53) & (He & _) & Hme).
  unfold random_suffix, math_round, times_1e9.
  set (E := 2 ^ expo x) in *.
  assert (HE : 0 < E) by (apply Z.pow_pos_nonneg; lia).
  rewrite (Z.pow_add_r 2 (expo x) 1) by lia. change (2 ^ 1) with 2. fold E.
  pose proof (round53_nonneg (mant x * 10 ^ 9) ltac:(lia)) as Hlo.
  pose proof (round53_upper (mant x * 10 ^ 9) ltac:(lia)) as Hhi.
  set (P := round53 (mant x * 10 ^ 9)) in *.
  change (2 ^ 53) with 9007199254740992 in *.
  change (10 ^ 9) with 1000000000 in *.
  split.
  - apply Z.div_pos; lia.
  - apply Z.lt_succ_r. apply Z.div_lt_upper_bound; lia.
Qed.

End RandomSuffix.

(* ===================================================================== *)
(** * Strings and paths *)
(* ===================================================================== *)

Section Paths.
Import Str Path.

Lemma eqb_false (a b : string) : eqb a b = false ↔ a ≠ b.
Proof. unfold eqb. apply String.eqb_neq. Qed.

Lemma has_slash_app (a b : string) :
  has_slash (a +:+ b) = has_slash a || has_slash b.
Proof.
  induction a as [|c a IH]; simpl; [reflexivity|].
  rewrite IH. apply orb_assoc.
Qed.

Lemma split_slash_nonempty (s : string) : split_slash s ≠ [].
Proof.
  induction s as [|c s IH]; simpl; [discriminate|].
  destruct (is_slash c); [discriminate|].
  destruct (split_slash s); [contradiction | discriminate].
Qed.

Lemma split_slash_no_slash (s : string) :
  has_slash s = false → split_slash s = [s].
Proof.
  induction s as [|c s IH]; simpl; [reflexivity|].
  intros H. apply orb_false_iff in H as [Hc Hs].
  rewrite Hc, (IH Hs). reflexivity.
Qed.

(** Splitting a text glued with a separator splits both halves. *)
Lemma split_slash_app (a b : string) :
  split_slash (a +:+ String slash b) = split_slash a ++ split_slash b.
Proof.
  induction a as [|c a IH]; simpl.
  - reflexivity.
  - rewrite IH. destruct (is_slash c); [reflexivity|].
    pose proof (split_slash_nonempty a) as Hne.
    destruct (split_slash a); [contradiction | reflexivity].
Qed.

Lemma split_slash_pieces (s : string) :
  Forall (λ seg, has_slash seg = false) (split_slash s).
Proof.
  induction s as [|c s IH]; simpl.
  - constructor; [reflexivity | constructor].
  - destruct (is_slash c) eqn:Hc.
    + constructor; [reflexivity | exact IH].
    + destruct (split_slash s) as [|seg rest]; inversion IH; subst.
      * constructor; [simpl; rewrite Hc; reflexivity | constructor].
      * constructor; [simpl; rewrite Hc; assumption | assumption].
Qed.

Lemma split_join_slash (segs : list string) :
  segs ≠ [] → Forall (λ seg, has_slash seg = false) segs →
  split_slash (join_slash segs) = segs.
Proof.
  induction segs as [|seg rest IH]; [contradiction|].
  intros _ Hall. inversion Hall as [|? ? Hseg Hrest]; subst.
  destruct rest as [|seg' rest'].
  - simpl. apply split_slash_no_slash. exact Hseg.
  - change (join_slash (seg :: seg' :: rest'))
      with (seg +:+ String slash (join_slash (seg' :: rest'))).
    rewrite split_slash_app, (split_slash_no_slash _ Hseg).
    rewrite IH by (try discriminate; assumption). reflexivity.
Qed.

Lemma join_slash_snoc (segs : list string) (seg : string) :
  segs ≠ [] →
  join_slash (segs ++ [seg]) = join_slash segs +:+ String slash seg.
Proof.
  induction segs as [|a rest IH]; [contradiction|]. intros _.
  destruct rest as [|b rest'].
  - reflexivity.
  - change (join_slash ((a :: b :: rest') ++ [seg]))
      with (a +:+ String slash (join_slash ((b :: rest') ++ [seg]))).
    rewrite IH by discriminate.
    change (join_slash (a :: b :: rest'))
      with (a +:+ String slash (join_slash (b :: rest'))).
    rewrite append_assoc. reflexivity.
Qed.

Lemma join_slash_nonempty (segs : list string) :
  segs ≠ [] → Forall (λ seg, seg ≠ "") segs → join_slash segs ≠ "".
Proof.
  destruct segs as [|a rest]; [contradiction|]. intros _ Hall.
  inversion Hall as [|? ? Ha _]; subst.
  destruct rest; cbn [join_slash]; destruct a; simpl; congruence.
Qed.

Lemma norm_step_ordinary (allow : bool) (stack : list string) (seg : string) :
  ordinary seg → norm_step allow stack seg = seg :: stack.
Proof.
  intros (H1 & H2 & H3 & _). unfold norm_step.
  apply eqb_false in H1, H2, H3. rewrite H1, H2, H3. reflexivity.
Qed.

Lemma fold_norm_step_ordinary (allow : bool) (segs stack : list string) :
  Forall ordinary segs →
  fold_left (norm_step allow) segs stack = rev segs ++ stack.
Proof.
  revert stack. induction segs as [|seg rest IH]; intros stack Hall.
  - reflexivity.
  - inversion Hall; subst. simpl.
    rewrite norm_step_ordinary by assumption.
    rewrite IH by assumption. rewrite <- app_assoc. reflexivity.
Qed.

(** Below the root, normalisation keeps only ordinary segments. *)
Lemma norm_step_keeps_ordinary (stack : list string) (seg : string) :
  has_slash seg = false → Forall ordinary stack →
  Forall ordinary (norm_step false stack seg).
Proof.
  intros Hseg Hstack. unfold norm_step.
  destruct (eqb seg "") eqn:E1; [exact Hstack|].
  destruct (eqb seg ".") eqn:E2; [exact Hstack|]. cbn [orb].
  destruct (eqb seg "..") eqn:E3.
  - destruct stack as [|top rest]; [constructor|].
    inversion Hstack; subst. destruct (eqb top ".."); assumption.
  - constructor; [|exact Hstack].
    apply eqb_false in E1, E2, E3. repeat split; assumption.
Qed.

Lemma fold_norm_step_keeps_ordinary (segs stack : list string) :
  Forall (λ seg, has_slash seg = false) segs → Forall ordinary stack →
  Forall ordinary (fold_left (norm_step false) segs stack).
Proof.
  revert stack. induction segs as [|seg rest IH]; intros stack Hsegs Hstack.
  - exact Hstack.
  - inversion Hsegs; subst. simpl. apply IH; [assumption|].
    apply norm_step_keeps_ordinary; assumption.
Qed.

Lemma last_char_app (a b : string) :
  b ≠ "" → last_char (a +:+ b) = last_char b.
Proof.
  intros Hb. induction a as [|c a IH]; [reflexivity|].
  simpl. rewrite IH. destruct (a +:+ b) eqn:E; [|reflexivity].
  destruct a; simpl in E; [contradiction | discriminate].
Qed.

Lemma last_char_no_slash (s : string) :
  has_slash s = false → s ≠ "" →
  match last_char s with Some c => is_slash c | None => false end = false.
Proof.
  induction s as [|c s IH]; [contradiction|]. intros H _.
  simpl in H. apply orb_false_iff in H as [Hc Hs].
  destruct s as [|c' s']; [exact Hc|].
  change (last_char (String c (String c' s'))) with (last_char (String c' s')).
  apply IH; [exact Hs | discriminate].
Qed.

End Paths.

Section UploadDir.
Import Str Path Http Server.

Lemma entry_name_ordinary (name : string) :
  entry_name name = true ↔ ordinary name.
Proof.
  unfold entry_name, ordinary.
  rewrite negb_true_iff, !orb_false_iff, !eqb_false. tauto.
Qed.

Lemma absolute_nonempty (p : string) : isAbsolute p = true → p ≠ "".
Proof. intros H ->. discriminate. Qed.

Lemma isAbsolute_app (a b : string) :
  isAbsolute a = true → isAbsolute (a +:+ b) = true.
Proof. destruct a; [discriminate|]. intros H. exact H. Qed.

(** What [normalize] returns for an absolute path that does not end in a
    separator and keeps at least one segment. *)
Lemma normalize_absolute (p : string) (segs : list string) :
  isAbsolute p = true → trailingSeparator p = false →
  rev (fold_left (norm_step false) (split_slash p) []) = segs →
  segs ≠ [] → Forall ordinary segs →
  normalize p = "/" +:+ join_slash segs.
Proof.
  intros Habs Htrail Hsegs Hne Hord. unfold normalize, normalizeString.
  pose proof (absolute_nonempty p Habs) as Hp. apply eqb_false in Hp.
  rewrite Hp, Habs, Htrail. cbn [negb]. rewrite Hsegs.
  assert (Hq : join_slash segs ≠ "").
  { apply join_slash_nonempty; [exact Hne|].
    eapply Forall_impl; [exact Hord|]. intros seg Hseg. apply Hseg. }
  apply eqb_false in Hq. rewrite Hq. reflexivity.
Qed.

(** [uploadDir] is an absolute path made of ordinary segments. *)
Lemma uploadDir_shape (dirname : string) :
  isAbsolute dirname = true →
  ∃ segs, segs ≠ [] ∧ Forall ordinary segs
          ∧ uploadDir dirname = "/" +:+ join_slash segs.
Proof.
  intros Habs. unfold uploadDir, join.
  pose proof (absolute_nonempty _ Habs) as Hd. apply eqb_false in Hd.
  rewrite Hd. change (eqb "../public/uploads" "") with false. cbv iota.
  set (st0 := fold_left (norm_step false) (split_slash dirname) []).
  assert (H0 : Forall ordinary st0).
  { apply fold_norm_step_keeps_ordinary; [apply split_slash_pieces | constructor]. }
  set (st1 := norm_step false st0 "..").
  assert (H1 : Forall ordinary st1).
  { apply norm_step_keeps_ordinary; [reflexivity | exact H0]. }
  exists (rev st1 ++ ["public"; "uploads"]). split; [|split].
  - destruct (rev st1); discriminate.
  - apply Forall_app. split; [apply Forall_rev; exact H1|].
    repeat constructor; discriminate.
  - apply normalize_absolute.
    + apply isAbsolute_app. exact Habs.
    + unfold trailingSeparator. rewrite last_char_app by discriminate.
      reflexivity.
    + rewrite split_slash_app, fold_left_app. fold st0.
      change (split_slash "../public/uploads") with [".."; "public"; "uploads"].
      cbn [fold_left]. fold st1.
      rewrite !norm_step_ordinary
        by (repeat split; (discriminate || reflexivity)).
      cbn [rev]. rewrite <- !app_assoc. reflexivity.
    + destruct (rev st1); discriminate.
    + apply Forall_app. split; [apply Forall_rev; exact H1|].
      repeat constructor; discriminate.
Qed.

(** Joining [uploadDir] with an ordinary name only appends the name. *)
Lemma join_uploadDir (dirname name : string) :
  isAbsolute dirname = true → ordinary name →
  Path.join (uploadDir dirname) name = uploadDir dirname +:+ "/" +:+ name.
Proof.
  intros Habs Hname.
  destruct (uploadDir_shape dirname Habs) as (segs & Hne & Hord & HU).
  pose proof Hname as (Hn1 & Hn2 & Hn3 & Hn4).
  unfold join. rewrite HU.
  change (eqb ("/" +:+ join_slash segs) "") with false.
  apply eqb_false in Hn1. rewrite Hn1. apply eqb_false in Hn1.
  assert (Hslash : Forall (λ seg, has_slash seg = false) segs).
  { eapply Forall_impl; [exact Hord|]. intros seg Hseg. apply Hseg. }
  rewrite (normalize_absolute _ (segs ++ [name])).
  - rewrite join_slash_snoc by exact Hne. reflexivity.
  - reflexivity.
  - unfold trailingSeparator.
    rewrite last_char_app by discriminate.
    change (String slash name) with ("/" +:+ name).
    rewrite last_char_app by exact Hn1.
    apply last_char_no_slash; assumption.
  - rewrite split_slash_app. change ("/" +:+ join_slash segs)
      with ("" +:+ String slash (join_slash segs)).
    rewrite split_slash_app, split_join_slash by assumption.
    rewrite (split_slash_no_slash name Hn4).
    change (split_slash "") with [""]. rewrite <- app_assoc. cbn [app fold_left].
    change (norm_step false [] "") with (@nil string).
    rewrite fold_norm_step_ordinary.
    + rewrite app_nil_r, rev_involutive. reflexivity.
    + apply Forall_app. split; [exact Hord | repeat constructor; assumption].
  - destruct segs; discriminate.
  - apply Forall_app. split; [exact Hord | repeat constructor; assumption].
Qed.

Lemma drop_prefix_app (p s : string) : drop_prefix p (p +:+ s) = Some s.
Proof.
  induction p as [|c p IH]; [reflexivity|].
  simpl. rewrite Ascii.eqb_refl. exact IH.
Qed.

Lemma drop_prefix_Some (p s rest : string) :
  drop_prefix p s = Some rest → s = p +:+ rest.
Proof.
  revert s. induction p as [|c p IH]; intros s H.
  - injection H as ->. reflexivity.
  - destruct s as [|x s]; [discriminate|]. simpl in H.
    destruct (Ascii.eqb c x) eqn:E; [|discriminate].
    apply Ascii.eqb_eq in E. subst x. simpl. f_equal. apply IH. exact H.
Qed.

Lemma child_of_Some (dir key name : string) :
  child_of dir key = Some name
  ↔ key = dir +:+ "/" +:+ name ∧ ordinary name.
Proof.
  unfold child_of. split.
  - destruct (drop_prefix (dir +:+ "/") key) as [rest|] eqn:E; [|discriminate].
    destruct (entry_name rest) eqn:En; [|discriminate].
    intros H. injection H as ->. apply drop_prefix_Some in E.
    rewrite append_assoc in E. split; [exact E|].
    apply entry_name_ordinary. exact En.
  - intros (-> & Hord). rewrite <- append_assoc, drop_prefix_app.
    apply entry_name_ordinary in Hord. rewrite Hord. reflexivity.
Qed.

End UploadDir.

(* ===================================================================== *)
(** * Stored names *)
(* ===================================================================== *)

Section StoredNames.
Import Str Path Http Server JS.

Lemma all_plain_no_slash (s : string) :
  all_chars (λ c, negb (is_slash c)) s = true → has_slash s = false.
Proof.
  induction s as [|c s IH]; simpl; [reflexivity|].
  intros H. apply andb_true_iff in H as [Hc Hs].
  apply negb_true_iff in Hc. rewrite Hc, (IH Hs). reflexivity.
Qed.

Lemma pretty_N_char_plain (x : N) : plain (pretty_N_char x) = true.
Proof. unfold pretty_N_char. repeat case_match; reflexivity. Qed.

Lemma pretty_N_go_plain (x : N) (s : string) :
  all_chars plain s = true → all_chars plain (pretty_N_go x s) = true.
Proof.
  revert s. induction (N.lt_wf_0 x) as [x _ IH]. intros s Hs.
  destruct (decide (x = 0)%N) as [->|Hx].
  - rewrite pretty_N_go_0. exact Hs.
  - rewrite pretty_N_go_step by lia. apply IH.
    + apply N.div_lt; lia.
    + simpl. rewrite pretty_N_char_plain. exact Hs.
Qed.

Lemma pretty_N_go_nonempty (x : N) (s : string) :
  (0 < x)%N → pretty_N_go x s ≠ "".
Proof.
  revert s. induction (N.lt_wf_0 x) as [x _ IH]. intros s Hx.
  rewrite pretty_N_go_step by exact Hx.
  destruct (decide (x `div` 10 = 0)%N) as [->|Hq].
  - rewrite pretty_N_go_0. discriminate.
  - apply IH; [apply N.div_lt; lia | apply N.neq_0_lt_0; exact Hq].
Qed.

Lemma pretty_N_plain (x : N) :
  all_chars plain (pretty x) = true ∧ pretty x ≠ "".
Proof.
  unfold pretty, pretty_N. case_decide.
  - split; [reflexivity | discriminate].
  - split; [apply pretty_N_go_plain; reflexivity|].
    apply pretty_N_go_nonempty. lia.
Qed.

(** A printed integer is not empty and holds no separator and no dot. *)
Lemma number_to_string_plain (z : Z) :
  all_chars plain (number_to_string z) = true ∧ number_to_string z ≠ "".
Proof.
  unfold number_to_string, pretty, pretty_Z.
  destruct z as [|p|p].
  - split; [reflexivity | discriminate].
  - apply pretty_N_plain.
  - destruct (pretty_N_plain (N.pos p)) as [H1 H2]. split.
    + simpl. exact H1.
    + discriminate.
Qed.

Lemma take_component_no_slash (l : list ascii) :
  forallb (λ c, negb (is_slash c)) (take_component l) = true.
Proof.
  induction l as [|c l IH]; [reflexivity|]. simpl.
  destruct (is_slash c) eqn:E; [reflexivity|]. simpl. rewrite E. exact IH.
Qed.

Lemma split_dot_Some (l rext rpre : list ascii) :
  split_dot l = Some (rext, rpre) → l = rext ++ dot :: rpre.
Proof.
  revert rext. induction l as [|c l IH]; intros rext H; [discriminate|].
  simpl in H. destruct (is_dot c) eqn:E.
  - injection H as <- <-. apply Ascii.eqb_eq in E. subst c. reflexivity.
  - destruct (split_dot l) as [[ext pre]|]; [|discriminate].
    injection H as <- <-. simpl. f_equal. apply IH. reflexivity.
Qed.

Lemma has_slash_of_list (l : list ascii) :
  has_slash (of_list l) = existsb is_slash l.
Proof. induction l as [|c l IH]; simpl; [reflexivity | rewrite IH; reflexivity]. Qed.

Lemma forallb_not_existsb {A} (P : A → bool) (l : list A) :
  forallb (λ x, negb (P x)) l = true → existsb P l = false.
Proof.
  induction l as [|x l IH]; [reflexivity|]. simpl.
  intros H. apply andb_true_iff in H as [Hx Hl].
  apply negb_true_iff in Hx. rewrite Hx, (IH Hl). reflexivity.
Qed.

(** An extension never holds a separator. *)
Lemma extname_no_slash (p : string) : has_slash (extname p) = false.
Proof.
  unfold extname.
  pose proof (take_component_no_slash (drop_slashes (rev (to_list p)))) as Hc.
  destruct (split_dot _) as [[rext rpre]|] eqn:E; [|reflexivity].
  apply split_dot_Some in E. rewrite E in Hc.
  rewrite forallb_app in Hc. apply andb_true_iff in Hc as [Hext _].
  assert (H : has_slash (of_list (dot :: rev rext)) = false).
  { rewrite has_slash_of_list. simpl. apply forallb_not_existsb.
    rewrite forallb_forall in *. intros c Hin. apply Hext.
    apply in_rev. exact Hin. }
  destruct rpre as [|c [|c' rpre']]; [reflexivity | | exact H].
  destruct rext; [|exact H]. destruct (is_dot c); [reflexivity | exact H].
Qed.

Lemma of_list_app (a b : list ascii) : of_list (a ++ b) = of_list a +:+ of_list b.
Proof. induction a as [|c a IH]; simpl; [reflexivity | rewrite IH; reflexivity]. Qed.

Lemma drop_slashes_id (l : list ascii) :
  forallb (λ c, negb (is_slash c)) l = true → drop_slashes l = l.
Proof.
  destruct l as [|c l]; [reflexivity|]. simpl. intros H.
  apply andb_true_iff in H as [Hc _]. apply negb_true_iff in Hc.
  rewrite Hc. reflexivity.
Qed.

Lemma take_component_id (l : list ascii) :
  forallb (λ c, negb (is_slash c)) l = true → take_component l = l.
Proof.
  induction l as [|c l IH]; [reflexivity|]. simpl. intros H.
  apply andb_true_iff in H as [Hc Hl]. apply negb_true_iff in Hc.
  rewrite Hc, (IH Hl). reflexivity.
Qed.

Lemma no_slash_to_list (s : string) :
  has_slash s = false → forallb (λ c, negb (is_slash c)) (to_list s) = true.
Proof.
  induction s as [|c s IH]; [reflexivity|]. simpl. intros H.
  apply orb_false_iff in H as [Hc Hs]. rewrite Hc, (IH Hs). reflexivity.
Qed.

Lemma forallb_rev {A} (P : A → bool) (l : list A) :
  forallb P (rev l) = forallb P l.
Proof.
  induction l as [|x l IH]; [reflexivity|]. simpl.
  rewrite forallb_app, IH. simpl. rewrite andb_true_r. apply andb_comm.
Qed.

(** The extension of a bare file name is the tail of that name, character
    for character. *)
Lemma extname_is_suffix (name : string) :
  has_slash name = false → ∃ front, name = front +:+ extname name.
Proof.
  intros Hname. unfold extname.
  pose proof (no_slash_to_list name Hname) as Hl.
  rewrite <- forallb_rev in Hl.
  rewrite (drop_slashes_id _ Hl), (take_component_id _ Hl).
  assert (Hempty : ∃ front, name = front +:+ "").
  { exists name. symmetry. apply append_nil_r. }
  destruct (split_dot _) as [[rext rpre]|] eqn:E; [|exact Hempty].
  apply split_dot_Some in E.
  assert (Hsplit : name = of_list (rev rpre) +:+ of_list (dot :: rev rext)).
  { rewrite <- of_list_app.
    replace (rev rpre ++ dot :: rev rext) with (rev (rext ++ dot :: rpre)).
    - rewrite <- E, rev_involutive. unfold of_list, to_list.
      symmetry. apply string_of_list_ascii_of_string.
    - rewrite rev_app_distr. simpl. rewrite <- app_assoc. reflexivity. }
  destruct rpre as [|c [|c' rpre']]; [exact Hempty | | eauto].
  destruct rext; [|eauto]. destruct (is_dot c); [exact Hempty | eauto].
Qed.

Lemma plain_first_char (s t : string) :
  all_chars plain s = true → s ≠ "" → ordinary_head (s +:+ t).
Proof.
  destruct s as [|c s]; [contradiction|]. simpl. intros H _.
  apply andb_true_iff in H as [Hc _]. unfold plain in Hc.
  apply andb_true_iff in Hc as [_ Hd]. apply negb_true_iff in Hd.
  exists c, (s +:+ t). auto.
Qed.

End StoredNames.

Section StoredNameFormat.
Import Str Path Http Server JS.

(** Every generated name is an ordinary directory entry name. *)
Lemma storage_filename_ordinary (e : env) (file : file_part) :
  ordinary (storage_filename e file).
Proof.
  unfold storage_filename.
  destruct (number_to_string_plain (t_name e)) as [Ht Htne].
  destruct (number_to_string_plain (random_suffix (rnd e))) as [Hr _].
  destruct (plain_first_char (number_to_string (t_name e))
              ("-" +:+ number_to_string (random_suffix (rnd e))
               +:+ extname (originalname file)) Ht Htne)
    as (c & rest & Heq & Hc).
  assert (Hns : ∀ s, all_chars plain s = true → has_slash s = false).
  { intros s Hs. apply all_plain_no_slash.
    induction s as [|x s IH]; [reflexivity|]. simpl in *.
    apply andb_true_iff in Hs as [Hx Hs]. unfold plain in Hx.
    apply andb_true_iff in Hx as [Hx _]. rewrite Hx. apply IH. exact Hs. }
  repeat split.
  - rewrite Heq. discriminate.
  - rewrite Heq. intros H. injection H as -> _. discriminate.
  - rewrite Heq. intros H. injection H as -> _. discriminate.
  - rewrite !has_slash_app, (Hns _ Ht), (Hns _ Hr), extname_no_slash.
    reflexivity.
Qed.

Lemma to_list_app (a b : string) : to_list (a +:+ b) = to_list a ++ to_list b.
Proof. induction a as [|c a IH]; simpl; [reflexivity | rewrite IH; reflexivity]. Qed.

(** C6 (as amended).  The stored name is the millisecond timestamp, a
    hyphen, a random integer of the closed range [[0, 1e9]] and the
    extension of the original name as [path.extname] returns it. *)
Theorem stored_name_format (e : env) (file : file_part) :
  valid_unit (rnd e) →
  ∃ random : Z,
    0 <= random <= 10 ^ 9
    ∧ storage_filename e file
      = number_to_string (t_name e) +:+ "-" +:+ number_to_string random
        +:+ extname (originalname file).
Proof.
  intros Hvalid. exists (random_suffix (rnd e)). split.
  - apply random_suffix_range. exact Hvalid.
  - reflexivity.
Qed.

End StoredNameFormat.

(* ===================================================================== *)
(** * [POST /upload]: multer, the handler, the error handler *)
(* ===================================================================== *)

Ltac run_m :=
  unfold mbind, Http.M_bind, mret, Http.M_ret, Http.throw, Http.emit in *.

Section Upload.
Import Str Path Http Server Express App JS.
Variable d : string.

Lemma world_eq (w1 w2 : world) :
  uploadSessions w1 = uploadSessions w2 → fs w1 = fs w2 →
  trace w1 = trace w2 → w1 = w2.
Proof. destruct w1, w2; simpl; intros -> -> ->; reflexivity. Qed.

Lemma disk_open_ok (w : world) (p : string) :
  writable d w p →
  disk_open (uploadDir d) p w = (Val tt, with_fs (insert p (file_node 0)) w).
Proof.
  intros ((st & Hd & Hisd) & Ht & _ & Hlen). unfold disk_open.
  rewrite Hd, Hisd, Hlen.
  destruct (fs w !! p) as [t|] eqn:E; [|reflexivity].
  rewrite (Ht t eq_refl). reflexivity.
Qed.

Lemma fs_createWriteStream_ok (w : world) (p : string) :
  writable d w p → fs_createWriteStream p w = (Val tt, w).
Proof.
  intros (_ & _ & Hnul & _). unfold fs_createWriteStream. rewrite Hnul.
  reflexivity.
Qed.

Lemma over_limit_above (e : env) (n : Z) :
  fileSize < n → over_limit e n = true.
Proof.
  intros H. unfold over_limit.
  destruct (Z.ltb_spec fileSize n); [reflexivity | lia].
Qed.

Lemma over_limit_below (e : env) (n : Z) :
  n < fileSize → over_limit e n = false.
Proof.
  intros H. unfold over_limit.
  destruct (Z.ltb_spec fileSize n); [lia|].
  destruct (Z.eqb_spec n fileSize); [lia | reflexivity].
Qed.

(** *** What multer does, case by case *)

Lemma upload_single_none (req : request) (e : env) (w : world) :
  req_part req = None →
  upload_single d "file" req e w = (Val (Parsed None), w).
Proof. intros H. unfold upload_single. rewrite H. reflexivity. Qed.

Lemma upload_single_rejected (req : request) (e : env) (w : world)
    (file : file_part) (message : string) :
  req_part req = Some file → originalname file ≠ "" →
  fieldname file = "file" → fileFilter file = Reject message →
  upload_single d "file" req e w
  = (Throw (PlainError message), with_event (EvFilter (originalname file)) w).
Proof.
  intros Hpart Hname Hfield Hfilter. apply eqb_false in Hname.
  unfold upload_single. rewrite Hpart, Hname, Hfield. cbn [String.eqb negb].
  run_m. rewrite Hfilter. reflexivity.
Qed.

Lemma upload_single_accept (req : request) (e : env) (w : world)
    (file : file_part) :
  req_part req = Some file → originalname file ≠ "" →
  fieldname file = "file" →
  fileFilter file = Accept → over_limit e (payload file) = false →
  writable d w (file_path (stored_as d e file)) →
  upload_single d "file" req e w
  = (Val (Parsed (Some (stored_as d e file))),
     {| uploadSessions := uploadSessions w;
        fs := <[file_path (stored_as d e file) := file_node (payload file)]> (fs w);
        trace := trace w ++ [EvFilter (originalname file);
                             EvWrite (file_path (stored_as d e file))] |}).
Proof.
  intros Hpart Hname Hfield Hfilter Hsize Hw. apply eqb_false in Hname.
  unfold upload_single. rewrite Hpart, Hname, Hfield. cbn [String.eqb negb].
  run_m. rewrite Hfilter.
  assert (Hw' : writable d (with_event (EvFilter (originalname file)) w)
                  (file_path (stored_as d e file))) by exact Hw.
  simpl in Hw'. simpl. unfold in_callback.
  rewrite (fs_createWriteStream_ok _ _ Hw'), (disk_open_ok _ _ Hw'), Hsize.
  unfold disk_write. f_equal. apply world_eq; simpl.
  - reflexivity.
  - apply insert_insert_eq.
  - rewrite <- app_assoc. reflexivity.
Qed.

Lemma upload_single_oversize (req : request) (e : env) (w : world)
    (file : file_part) :
  req_part req = Some file → originalname file ≠ "" →
  fieldname file = "file" →
  fileFilter file = Accept → over_limit e (payload file) = true →
  writable d w (file_path (stored_as d e file)) →
  upload_single d "file" req e w
  = (Throw (MulterError LIMIT_FILE_SIZE (multer_text e LIMIT_FILE_SIZE)),
     {| uploadSessions := uploadSessions w;
        fs := delete (file_path (stored_as d e file)) (fs w);
        trace := trace w ++ [EvFilter (originalname file);
                             EvWrite (file_path (stored_as d e file));
                             EvUnlink (file_path (stored_as d e file))] |}).
Proof.
  intros Hpart Hname Hfield Hfilter Hsize Hw. apply eqb_false in Hname.
  unfold upload_single. rewrite Hpart, Hname, Hfield. cbn [String.eqb negb].
  run_m. rewrite Hfilter.
  assert (Hw' : writable d (with_event (EvFilter (originalname file)) w)
                  (file_path (stored_as d e file))) by exact Hw.
  simpl in Hw'. simpl. unfold in_callback.
  rewrite (fs_createWriteStream_ok _ _ Hw'), (disk_open_ok _ _ Hw'), Hsize.
  unfold disk_write, disk_unlink. simpl. f_equal. apply world_eq; simpl.
  - reflexivity.
  - rewrite !delete_insert_eq. reflexivity.
  - rewrite <- !app_assoc. reflexivity.
Qed.

Lemma upload_single_escapes (req : request) (e : env) (w : world)
    (file : file_part) :
  req_part req = Some file → originalname file ≠ "" →
  fieldname file = "file" → fileFilter file = Accept →
  has_nul (file_path (stored_as d e file)) = true →
  upload_single d "file" req e w
  = (Val (Escaped (TypeError "ERR_INVALID_ARG_VALUE")),
     with_event (EvFilter (originalname file)) w).
Proof.
  intros Hpart Hname Hfield Hfilter Hnul. apply eqb_false in Hname.
  unfold upload_single. rewrite Hpart, Hname, Hfield. cbn [String.eqb negb].
  run_m. rewrite Hfilter. simpl in Hnul. simpl.
  unfold in_callback, fs_createWriteStream. rewrite Hnul. reflexivity.
Qed.

Lemma writable_dec (w : world) (p : string) :
  writable d w p ∨ ¬ writable d w p.
Proof.
  unfold writable.
  destruct (has_nul p) eqn:Hnul; [right; intros (_ & _ & H & _); discriminate|].
  destruct (too_long p) eqn:Hlen; [right; intros (_ & _ & _ & H); discriminate|].
  destruct (fs w !! uploadDir d) as [st|] eqn:Hd;
    [|right; intros ((st & H & _) & _); discriminate].
  destruct (st_isDirectory st) eqn:Hisd;
    [|right; intros ((st' & H & H') & _); congruence].
  destruct (fs w !! p) as [t|] eqn:Ht.
  - destruct (st_isDirectory t) eqn:Htd.
    + right. intros (_ & H & _). specialize (H t eq_refl). congruence.
    + left. split; [eauto|]. split; [|auto]. intros t' Ht'. congruence.
  - left. split; [eauto|]. split; [|auto]. intros t' Ht'. discriminate.
Qed.

Lemma upload_single_open_fails (req : request) (e : env) (w : world)
    (file : file_part) :
  req_part req = Some file → originalname file ≠ "" →
  fieldname file = "file" → fileFilter file = Accept →
  has_nul (file_path (stored_as d e file)) = false →
  ¬ writable d w (file_path (stored_as d e file)) →
  ∃ code,
    upload_single d "file" req e w
    = (Throw (SystemError code), with_event (EvFilter (originalname file)) w).
Proof.
  intros Hpart Hname Hfield Hfilter Hnul Hn. apply eqb_false in Hname.
  unfold upload_single. rewrite Hpart, Hname, Hfield. cbn [String.eqb negb].
  run_m. rewrite Hfilter. simpl in Hnul, Hn. simpl.
  unfold in_callback, fs_createWriteStream. rewrite Hnul.
  unfold disk_open. simpl.
  destruct (fs w !! uploadDir d) as [st|] eqn:Hd; [|eauto].
  destruct (st_isDirectory st) eqn:Hisd; [|eauto].
  destruct (too_long _) eqn:Hlen; [eauto|].
  destruct (fs w !! Path.join (uploadDir d) (storage_filename e file))
    as [t|] eqn:Ht.
  - destruct (st_isDirectory t) eqn:Htd; [eauto|].
    exfalso. apply Hn. split; [eauto|]. split; [|auto].
    intros t' Ht'. congruence.
  - exfalso. apply Hn. split; [eauto|]. split; [|auto].
    intros t' Ht'. congruence.
Qed.

(** Every way [upload.single] can end, in the order of its tests. *)
Lemma upload_single_cases (req : request) (e : env) (w : world) :
  ((∀ file, req_part req = Some file → originalname file = "")
   ∧ upload_single d "file" req e w = (Val (Parsed None), w))
  ∨ ∃ file,
      req_part req = Some file ∧ originalname file ≠ ""
      ∧ ((fieldname file ≠ "file"
          ∧ upload_single d "file" req e w
            = (Throw (MulterError LIMIT_UNEXPECTED_FILE
                        (multer_text e LIMIT_UNEXPECTED_FILE)), w))
         ∨ (fieldname file = "file"
            ∧ ((∃ message,
                  fileFilter file = Reject message
                  ∧ upload_single d "file" req e w
                    = (Throw (PlainError message),
                       with_event (EvFilter (originalname file)) w))
               ∨ (fileFilter file = Accept
                  ∧ ((has_nul (file_path (stored_as d e file)) = true
                      ∧ upload_single d "file" req e w
                        = (Val (Escaped (TypeError "ERR_INVALID_ARG_VALUE")),
                           with_event (EvFilter (originalname file)) w))
                     ∨ (has_nul (file_path (stored_as d e file)) = false
                        ∧ ¬ writable d w (file_path (stored_as d e file))
                        ∧ ∃ code,
                            upload_single d "file" req e w
                            = (Throw (SystemError code),
                               with_event (EvFilter (originalname file)) w))
                     ∨ (writable d w (file_path (stored_as d e file))
                        ∧ over_limit e (payload file) = true
                        ∧ upload_single d "file" req e w
                          = (Throw (MulterError LIMIT_FILE_SIZE
                                      (multer_text e LIMIT_FILE_SIZE)),
                             {| uploadSessions := uploadSessions w;
                                fs := delete (file_path (stored_as d e file)) (fs w);
                                trace :=
                                  trace w
                                  ++ [EvFilter (originalname file);
                                      EvWrite (file_path (stored_as d e file));
                                      EvUnlink (file_path (stored_as d e file))] |}))
                     ∨ (writable d w (file_path (stored_as d e file))
                        ∧ over_limit e (payload file) = false
                        ∧ upload_single d "file" req e w
                          = (Val (Parsed (Some (stored_as d e file))),
                             {| uploadSessions := uploadSessions w;
                                fs := <[file_path (stored_as d e file)
                                        := file_node (payload file)]> (fs w);
                                trace :=
                                  trace w
                                  ++ [EvFilter (originalname file);
                                      EvWrite (file_path (stored_as d e file))] |}))))))).
Proof.
  destruct (req_part req) as [file|] eqn:Hpart.
  - destruct (String.eqb_spec (originalname file) "") as [Hname|Hname].
    + left. split; [intros file' H; congruence|].
      unfold upload_single. rewrite Hpart. unfold eqb. rewrite Hname.
      reflexivity.
    + right. exists file. split; [reflexivity|]. split; [exact Hname|].
      destruct (String.eqb_spec (fieldname file) "file") as [Hfield|Hfield].
      * right. split; [exact Hfield|].
        destruct (fileFilter file) as [|message] eqn:Hfilter.
        -- right. split; [reflexivity|].
           destruct (has_nul (file_path (stored_as d e file))) eqn:Hnul.
           ++ left. split; [reflexivity|].
              apply (upload_single_escapes req e w file); assumption.
           ++ right.
              destruct (writable_dec w (file_path (stored_as d e file)))
                as [Hw|Hw].
              ** right. destruct (over_limit e (payload file)) eqn:Hsize.
                 --- left. split; [exact Hw|]. split; [reflexivity|].
                     apply (upload_single_oversize req e w file); assumption.
                 --- right. split; [exact Hw|]. split; [reflexivity|].
                     apply (upload_single_accept req e w file); assumption.
              ** left. split; [reflexivity|]. split; [exact Hw|].
                 apply (upload_single_open_fails req e w file); assumption.
        -- left. exists message. split; [reflexivity|].
           apply (upload_single_rejected req e w file message); assumption.
      * left. split; [exact Hfield|].
        apply eqb_false in Hname. apply String.eqb_neq in Hfield.
        unfold upload_single. rewrite Hpart, Hname, Hfield. reflexivity.
  - left. split; [intros file H; congruence|].
    unfold upload_single. rewrite Hpart. reflexivity.
Qed.

Ltac multer_cases req e w :=
  let file := fresh "file" in
  let Hpart := fresh "Hpart" in
  let Hname := fresh "Hname" in
  let Hfield := fresh "Hfield" in
  let Hfilter := fresh "Hfilter" in
  let Hnul := fresh "Hnul" in
  let Hw := fresh "Hw" in
  let Hsize := fresh "Hsize" in
  let Hrun := fresh "Hrun" in
  let message := fresh "message" in
  let code := fresh "code" in
  let Hnone := fresh "Hnone" in
  destruct (upload_single_cases req e w)
    as [[Hnone Hrun]
       |(file & Hpart & Hname
         & [[Hfield Hrun]
           |(Hfield
             & [(message & Hfilter & Hrun)
               |(Hfilter
                 & [[Hnul Hrun]
                   |[(Hnul & Hw & code & Hrun)
                    |[(Hw & Hsize & Hrun)|(Hw & Hsize & Hrun)]]])])])].

(** multer never touches the session map, and all it records is file
    processing. *)
Lemma upload_single_events (req : request) (e : env) (w : world) :
  ∃ pre, trace (upload_single d "file" req e w).2 = trace w ++ pre
         ∧ forallb storage_event pre = true
         ∧ uploadSessions (upload_single d "file" req e w).2 = uploadSessions w.
Proof.
  multer_cases req e w; rewrite Hrun; simpl;
    try (exists []; rewrite app_nil_r; auto; fail);
    eexists; (split; [reflexivity | split; reflexivity]).
Qed.

(** What multer stored when it set [req.file]. *)
Lemma upload_single_Some_inv (req : request) (e : env) (w w1 : world)
    (f : stored_file) :
  upload_single d "file" req e w = (Val (Parsed (Some f)), w1) →
  ∃ file, req_part req = Some file
          ∧ f = stored_as d e file
          ∧ fs w1 = <[file_path f := file_node (payload file)]> (fs w)
          ∧ writable d w (file_path f).
Proof.
  intros H. multer_cases req e w; rewrite Hrun in H; try discriminate H.
  injection H as <- <-. exists file. auto.
Qed.

(** The one exception that escapes multer: the [TypeError] of
    [fs.createWriteStream] for a path that holds a NUL byte. *)
Lemma upload_single_escaped_inv (req : request) (e : env) (w w1 : world)
    (x : error) :
  upload_single d "file" req e w = (Val (Escaped x), w1) →
  x = TypeError "ERR_INVALID_ARG_VALUE"
  ∧ ∃ file, req_part req = Some file
            ∧ has_nul (Path.join (uploadDir d) (storage_filename e file)) = true.
Proof.
  intros H. multer_cases req e w; rewrite Hrun in H; try discriminate H.
  injection H as <- _. split; [reflexivity|]. eauto.
Qed.

(** multer changes no file but the one it stores. *)
Lemma upload_single_frame (req : request) (e : env) (w : world) (k : string) :
  (∀ file, req_part req = Some file →
           k ≠ Path.join (uploadDir d) (storage_filename e file)) →
  fs (upload_single d "file" req e w).2 !! k = fs w !! k.
Proof.
  intros Hk. multer_cases req e w; rewrite Hrun; simpl; try reflexivity.
  - apply lookup_delete_ne. intros Heq. exact (Hk file Hpart (eq_sym Heq)).
  - apply lookup_insert_ne. intros Heq. exact (Hk file Hpart (eq_sym Heq)).
Qed.

(** *** What the handler does, case by case *)

Lemma upload_handler_duplicate (req : request) (file : option stored_file)
    (e : env) (w : world) :
  is_Some (uploadSessions w !! req_ip req) →
  upload_handler d req file e w
  = (Val (End too_many_requests), with_event (EvHas (req_ip req)) w).
Proof.
  intros H. unfold upload_handler, sessions_has. run_m.
  rewrite bool_decide_eq_true_2 by exact H. reflexivity.
Qed.

Lemma upload_handler_no_file (req : request) (e : env) (w : world) :
  uploadSessions w !! req_ip req = None →
  upload_handler d req None e w = (Val (End no_file), settled req w).
Proof.
  intros H. unfold upload_handler, sessions_has, sessions_set, sessions_delete.
  run_m. rewrite bool_decide_eq_false_2 by (rewrite H; apply is_Some_None).
  simpl. f_equal. apply world_eq; simpl.
  - apply delete_insert_id. exact H.
  - reflexivity.
  - rewrite <- !app_assoc. reflexivity.
Qed.

Lemma upload_handler_file (req : request) (f : stored_file) (e : env)
    (w : world) :
  uploadSessions w !! req_ip req = None →
  unlinked_before_stat e = false →
  upload_handler d req (Some f) e w
  = (Val (End (json_response 200 (upload_result f e))), settled req w).
Proof.
  intros H Hq.
  unfold upload_handler, sessions_has, sessions_set, sessions_delete,
    fs_existsSync, fs_statSync, outside_unlink.
  run_m. rewrite bool_decide_eq_false_2 by (rewrite H; apply is_Some_None).
  rewrite Hq. simpl.
  destruct (fs w !! Path.join (uploadDir d) (file_filename f)) as [st|] eqn:E.
  - rewrite bool_decide_eq_true_2 by eauto. simpl. rewrite E. simpl.
    f_equal. apply world_eq; simpl.
    + apply delete_insert_id. exact H.
    + reflexivity.
    + rewrite <- !app_assoc. reflexivity.
  - rewrite bool_decide_eq_false_2 by apply is_Some_None.
    f_equal. apply world_eq; simpl.
    + apply delete_insert_id. exact H.
    + reflexivity.
    + rewrite <- !app_assoc. reflexivity.
Qed.

(** The one way the handler throws: the stored file vanishes between the
    existence check and the [statSync] call.  The session entry stays. *)
Lemma upload_handler_throws (req : request) (f : stored_file) (e : env)
    (w : world) :
  uploadSessions w !! req_ip req = None →
  is_Some (fs w !! Path.join (uploadDir d) (file_filename f)) →
  unlinked_before_stat e = true →
  upload_handler d req (Some f) e w
  = (Throw (SystemError "ENOENT"),
     {| uploadSessions :=
          <[req_ip req := req_ip req +:+ number_to_string (t_session e)]>
            (uploadSessions w);
        fs := delete (Path.join (uploadDir d) (file_filename f)) (fs w);
        trace := trace w ++ [EvHas (req_ip req); EvSet (req_ip req)] |}).
Proof.
  intros H Hp Hq.
  unfold upload_handler, sessions_has, sessions_set, sessions_delete,
    fs_existsSync, fs_statSync, outside_unlink.
  run_m. rewrite bool_decide_eq_false_2 by (rewrite H; apply is_Some_None).
  rewrite Hq. simpl. rewrite bool_decide_eq_true_2 by exact Hp.
  rewrite lookup_delete_eq. f_equal. apply world_eq; simpl.
  - reflexivity.
  - reflexivity.
  - rewrite <- !app_assoc. reflexivity.
Qed.

(** The handler never touches the disk state unless an outside process
    does, and all it records is gate activity. *)
Lemma upload_handler_events (req : request) (file : option stored_file)
    (e : env) (w : world) :
  ∃ post, trace (upload_handler d req file e w).2 = trace w ++ post
          ∧ forallb gate_event post = true.
Proof.
  destruct (uploadSessions w !! req_ip req) as [sid|] eqn:Hs.
  - rewrite upload_handler_duplicate by eauto. eexists. split; reflexivity.
  - destruct file as [f|].
    + destruct (unlinked_before_stat e) eqn:Hq.
      * destruct (fs w !! Path.join (uploadDir d) (file_filename f)) as [st|] eqn:E.
        -- rewrite upload_handler_throws by eauto. eexists. split; reflexivity.
        -- unfold upload_handler, sessions_has, sessions_set, sessions_delete,
             fs_existsSync. run_m.
           rewrite bool_decide_eq_false_2 by (rewrite Hs; apply is_Some_None).
           simpl. rewrite E.
           rewrite bool_decide_eq_false_2 by apply is_Some_None.
           simpl. rewrite <- !app_assoc. eexists. split; reflexivity.
      * rewrite upload_handler_file by assumption. eexists. split; reflexivity.
    + rewrite upload_handler_no_file by assumption. eexists. split; reflexivity.
Qed.

(** *** The route as a whole *)

Lemma post_upload_multer_error (req : request) (e : env) (w w1 : world)
    (x : error) :
  upload_single d "file" req e w = (Throw x, w1) →
  post_upload d req e w = (Val (Responded (error_response x)), w1).
Proof.
  intros H. unfold post_upload, guard, upload_route. run_m.
  rewrite H. reflexivity.
Qed.

Lemma post_upload_handler_end (req : request) (e : env) (w w1 w2 : world)
    (f : option stored_file) (r : response) :
  upload_single d "file" req e w = (Val (Parsed f), w1) →
  upload_handler d req f e w1 = (Val (End r), w2) →
  post_upload d req e w = (Val (Responded r), w2).
Proof.
  intros H1 H2. unfold post_upload, guard, upload_route. run_m.
  rewrite H1, H2. reflexivity.
Qed.

Lemma post_upload_handler_throw (req : request) (e : env) (w w1 w2 : world)
    (f : option stored_file) (x : error) :
  upload_single d "file" req e w = (Val (Parsed f), w1) →
  upload_handler d req f e w1 = (Throw x, w2) →
  post_upload d req e w = (Val (Responded (error_response x)), w2).
Proof.
  intros H1 H2. unfold post_upload, guard, upload_route. run_m.
  rewrite H1, H2. reflexivity.
Qed.

(** What escapes multer's callback reaches nobody: no response is sent. *)
Lemma post_upload_escaped (req : request) (e : env) (w w1 : world)
    (x : error) :
  upload_single d "file" req e w = (Val (Escaped x), w1) →
  post_upload d req e w = (Val (Crashed x), w1).
Proof.
  intros H. unfold post_upload, guard, upload_route. run_m.
  rewrite H. reflexivity.
Qed.

Lemma post_upload_world (req : request) (e : env) (w : world) :
  (post_upload d req e w).2
  = (upload_route d req e w).2.
Proof.
  unfold post_upload, guard. run_m.
  destruct (upload_route d req e w) as [[s|x] w']; [destruct s|]; reflexivity.
Qed.

(** A response with status 200 comes from the success branch of the
    handler and from nowhere else. *)
Lemma post_upload_200_inv (req : request) (e : env) (w : world)
    (resp : response) :
  (post_upload d req e w).1 = Val (Responded resp) → status resp = 200 →
  ∃ file, req_part req = Some file
          ∧ resp = json_response 200 (upload_result (stored_as d e file) e).
Proof.
  intros Hresp Hstatus.
  destruct (upload_single d "file" req e w) as [[[f|x]|x] w1] eqn:Hm.
  - destruct (upload_handler d req f e w1) as [[s|x] w2] eqn:Hh.
    + destruct s as [|y|r|y].
      * unfold post_upload, guard, upload_route in Hresp. run_m.
        rewrite Hm, Hh in Hresp. simpl in Hresp.
        injection Hresp as <-. discriminate.
      * unfold post_upload, guard, upload_route in Hresp. run_m.
        rewrite Hm, Hh in Hresp. simpl in Hresp. injection Hresp as <-.
        destruct y as [[] m| | | |]; discriminate.
      * rewrite (post_upload_handler_end _ _ _ _ _ _ _ Hm Hh) in Hresp.
        simpl in Hresp. injection Hresp as ->.
        destruct (uploadSessions w1 !! req_ip req) as [sid|] eqn:Hs.
        { rewrite upload_handler_duplicate in Hh by eauto.
          injection Hh as <- _. discriminate. }
        destruct f as [sf|].
        -- assert (Hr : resp = json_response 200 (upload_result sf e)).
           { destruct (unlinked_before_stat e) eqn:Hq.
             - destruct (fs w1 !! Path.join (uploadDir d) (file_filename sf))
                 as [st|] eqn:E.
               + rewrite upload_handler_throws in Hh by eauto. discriminate.
               + revert Hh.
                 unfold upload_handler, sessions_has, sessions_set,
                   sessions_delete, fs_existsSync. run_m.
                 rewrite bool_decide_eq_false_2
                   by (rewrite Hs; apply is_Some_None).
                 simpl. rewrite E.
                 rewrite bool_decide_eq_false_2 by apply is_Some_None.
                 simpl. intros Hh. injection Hh as <- _. reflexivity.
             - rewrite upload_handler_file in Hh by assumption.
               injection Hh as <- _. reflexivity. }
           destruct (upload_single_Some_inv _ _ _ _ _ Hm)
             as (file & Hpart & -> & _).
           exists file. auto.
        -- rewrite upload_handler_no_file in Hh by assumption.
           injection Hh as <- _. discriminate.
      * unfold post_upload, guard, upload_route in Hresp. run_m.
        rewrite Hm, Hh in Hresp. simpl in Hresp. discriminate.
    + rewrite (post_upload_handler_throw _ _ _ _ _ _ _ Hm Hh) in Hresp.
      simpl in Hresp. injection Hresp as <-.
      destruct x as [[] m| | | |]; discriminate.
  - rewrite (post_upload_escaped _ _ _ _ _ Hm) in Hresp. discriminate.
  - rewrite (post_upload_multer_error _ _ _ _ _ Hm) in Hresp.
    simpl in Hresp. injection Hresp as <-.
    destruct x as [[] m| | | |]; discriminate.
Qed.

(** C7.  A successful upload is answered with status 200 and a JSON object
    of exactly eight fields: [success] (true), [filename] (the generated
    name), [originalName], [size], [mimetype], [url] (["/uploads/"]
    followed by the generated name), [uploadedAt] (an ISO timestamp) and
    [uploadTime] (the elapsed milliseconds followed by ["ms"]).  An
    accepted file below the size limit, sent by a client without a gate
    entry and stored under a path the file system takes (no NUL byte, no
    name over 255 bytes) in a storage directory nobody else touches, is
    such an upload; and every response with status 200 has this form. *)
Theorem upload_success_response (req : request) (e : env) (w : world)
    (file : file_part) :
  req_part req = Some file →
  originalname file ≠ "" →
  fieldname file = "file" →
  fileFilter file = Accept →
  payload file < fileSize →
  writable d w (Path.join (uploadDir d) (storage_filename e file)) →
  uploadSessions w !! req_ip req = None →
  unlinked_before_stat e = false →
  (∃ w',
     post_upload d req e w
     = (Val (Responded
               {| status := 200;
                  content :=
                    Json (JObj
                      [ ("success", JBool true);
                        ("filename", JStr (storage_filename e file));
                        ("originalName", JStr (originalname file));
                        ("size", JNum (payload file));
                        ("mimetype", JStr (mimetype file));
                        ("url", JStr ("/uploads/" +:+ storage_filename e file));
                        ("uploadedAt", JStr (toISOString (t_iso e)));
                        ("uploadTime",
                         JStr (number_to_string (t_end e - t_start e) +:+ "ms")) ]) |}),
        w')
     ∧ uploadSessions w' = uploadSessions w
     ∧ fs w' = <[Path.join (uploadDir d) (storage_filename e file)
                 := file_node (payload file)]> (fs w))
  ∧ (∀ req' e' w0 resp,
       (post_upload d req' e' w0).1 = Val (Responded resp) →
       status resp = 200 →
       ∃ file',
         req_part req' = Some file'
         ∧ resp
           = {| status := 200;
                content :=
                  Json (JObj
                    [ ("success", JBool true);
                      ("filename", JStr (storage_filename e' file'));
                      ("originalName", JStr (originalname file'));
                      ("size", JNum (payload file'));
                      ("mimetype", JStr (mimetype file'));
                      ("url", JStr ("/uploads/" +:+ storage_filename e' file'));
                      ("uploadedAt", JStr (toISOString (t_iso e')));
                      ("uploadTime",
                       JStr (number_to_string (t_end e' - t_start e') +:+ "ms")) ]) |}).
Proof.
  intros Hpart Hname Hfield Hfilter Hsize Hw Hfree Hquiet. split.
  - eexists. split; [|split].
    + eapply post_upload_handler_end.
      * apply upload_single_accept; try eassumption.
        apply over_limit_below. exact Hsize.
      * apply upload_handler_file; assumption.
    + reflexivity.
    + reflexivity.
  - intros req' e' w0 resp Hresp Hstatus.
    destruct (post_upload_200_inv req' e' w0 resp Hresp Hstatus)
      as (file' & Hpart' & ->).
    exists file'. split; [exact Hpart' | reflexivity].
Qed.

(** C5 (as amended).  A file sent in field [file] that passes the type
    filter, is larger than 10 MiB and is stored under a path the file
    system takes (no NUL byte, no name over 255 bytes) fails the request
    with status 400 and the message "File too large. Maximum size is
    10MB.", which no type rejection is answered with; the partial file
    is removed. *)
Theorem oversize_upload_rejected (req : request) (e : env) (w : world)
    (file : file_part) :
  req_part req = Some file →
  originalname file ≠ "" →
  fieldname file = "file" →
  fileFilter file = Accept →
  10 * 1024 * 1024 < payload file →
  writable d w (Path.join (uploadDir d) (storage_filename e file)) →
  ∃ w',
    post_upload d req e w
    = (Val (Responded
              {| status := 400;
                 content :=
                   Json (JObj
                     [ ("success", JBool false);
                       ("error", JStr "File too large. Maximum size is 10MB.") ]) |}),
       w')
    ∧ uploadSessions w' = uploadSessions w
    ∧ fs w' !! Path.join (uploadDir d) (storage_filename e file) = None
    ∧ ∀ message,
        error_response (PlainError message)
        ≠ {| status := 400;
             content :=
               Json (JObj
                 [ ("success", JBool false);
                   ("error", JStr "File too large. Maximum size is 10MB.") ]) |}.
Proof.
  intros Hpart Hname Hfield Hfilter Hsize Hw.
  eexists. split; [|split; [|split]].
  - change {| status := 400; content := _ |}
      with (error_response
              (MulterError LIMIT_FILE_SIZE (multer_text e LIMIT_FILE_SIZE))).
    apply post_upload_multer_error.
    apply upload_single_oversize; try eassumption.
    apply over_limit_above. exact Hsize.
  - reflexivity.
  - simpl. apply lookup_delete_eq.
  - intros message. discriminate.
Qed.

(** Whenever nothing interferes from outside, the request leaves the
    session map as it found it: the gate is released on every path on
    which the handler returns. *)
Lemma post_upload_releases (req : request) (e : env) (w : world) :
  uploadSessions w !! req_ip req = None →
  unlinked_before_stat e = false →
  uploadSessions (post_upload d req e w).2 = uploadSessions w.
Proof.
  intros Hfree Hquiet. rewrite post_upload_world. unfold upload_route. run_m.
  destruct (upload_single_events req e w) as (_ & _ & _ & Hs).
  destruct (upload_single d "file" req e w) as [[[f|x]|x] w1]; simpl in *;
    [|exact Hs|exact Hs].
  rewrite <- Hs in Hfree. rewrite <- Hs.
  destruct f as [f|].
  - rewrite upload_handler_file by assumption. reflexivity.
  - rewrite upload_handler_no_file by assumption. reflexivity.
Qed.

End Upload.

(* ===================================================================== *)
(** * [GET /uploads]: the listing *)
(* ===================================================================== *)

Section Listing.
Import Str Path Http Server Express App JS.
Variable d : string.

Lemma stat_entry_run (file : string) (w : world) :
  stat_entry d file w
  = match fs w !! Path.join (uploadDir d) file with
    | Some st => (Val (list_entry file (st_size st)), w)
    | None => (Throw (SystemError "ENOENT"), w)
    end.
Proof.
  unfold stat_entry, fs_statSync. run_m.
  destruct (fs w !! _); reflexivity.
Qed.

Lemma mapM_stat_ok (names : list string) (w : world) :
  (∀ name, name ∈ names → is_Some (fs w !! Path.join (uploadDir d) name)) →
  mapM (stat_entry d) names w
  = (Val (map (λ name,
                 list_entry name
                   (match fs w !! Path.join (uploadDir d) name with
                    | Some st => st_size st
                    | None => 0
                    end)) names), w).
Proof.
  induction names as [|name rest IH]; intros Hall; [reflexivity|].
  cbn [mapM map]. run_m. rewrite stat_entry_run.
  destruct (Hall name ltac:(left)) as [st Hst]. rewrite Hst.
  rewrite IH; [reflexivity|]. intros n Hn. apply Hall. right. exact Hn.
Qed.

Lemma mapM_stat_fail (names : list string) (w : world) (name : string) :
  name ∈ names → fs w !! Path.join (uploadDir d) name = None →
  mapM (stat_entry d) names w = (Throw (SystemError "ENOENT"), w).
Proof.
  intros Hin Hnone. induction names as [|n rest IH]; [inversion Hin|].
  cbn [mapM]. run_m. rewrite stat_entry_run.
  destruct (fs w !! Path.join (uploadDir d) n) as [st|] eqn:E; [|reflexivity].
  rewrite IH; [reflexivity|].
  apply elem_of_cons in Hin as [->|Hin]; [congruence | exact Hin].
Qed.

(** The entries are the ordinary names below [uploadDir] that the file
    system holds. *)
Lemma elem_of_entries (w : world) (name : string) :
  name ∈ entries d w
  ↔ ordinary name ∧ is_Some (fs w !! (uploadDir d +:+ "/" +:+ name)).
Proof.
  unfold entries, children. rewrite list_elem_of_omap. split.
  - intros ([key st] & Hin & Hchild). simpl in Hchild.
    apply child_of_Some in Hchild as [-> Hord].
    apply elem_of_map_to_list in Hin. eauto.
  - intros (Hord & st & Hst). exists (uploadDir d +:+ "/" +:+ name, st).
    split; [apply elem_of_map_to_list; exact Hst|].
    simpl. apply child_of_Some. auto.
Qed.

Lemma child_of_inj (dir k1 k2 name : string) :
  child_of dir k1 = Some name → child_of dir k2 = Some name → k1 = k2.
Proof.
  intros H1 H2. apply child_of_Some in H1 as [-> _].
  apply child_of_Some in H2 as [-> _]. reflexivity.
Qed.

Lemma NoDup_omap_inj {A B} (f : A → option B) (l : list A) :
  (∀ x y b, x ∈ l → y ∈ l → f x = Some b → f y = Some b → x = y) →
  NoDup l → NoDup (omap f l).
Proof.
  intros Hinj Hnd. induction Hnd as [|x l Hx Hnd IH]; [constructor|].
  simpl. destruct (f x) as [b|] eqn:E.
  - apply NoDup_cons. split.
    + rewrite list_elem_of_omap. intros (y & Hy & Hfy).
      assert (x = y) by (eapply Hinj; eauto; [left | right; exact Hy]).
      subst y. contradiction.
    + apply IH. intros a b' c Ha Hb. apply Hinj; right; assumption.
  - apply IH. intros a b' c Ha Hb. apply Hinj; right; assumption.
Qed.

(** No entry is listed twice. *)
Lemma entries_NoDup (w : world) : NoDup (entries d w).
Proof.
  unfold entries, children. apply NoDup_omap_inj.
  - intros [k1 s1] [k2 s2] name H1 H2 Hc1 Hc2. simpl in *.
    assert (k1 = k2) by (eapply child_of_inj; eauto). subst k2.
    apply elem_of_map_to_list in H1, H2. congruence.
  - apply NoDup_map_to_list.
Qed.

Lemma fs_readdir_ready (w : world) :
  directory_ready d w →
  fs_readdir (uploadDir d) w = (Val (Some (entries d w)), w).
Proof.
  intros (st & Hst & Hdir). unfold fs_readdir. rewrite Hst, Hdir. reflexivity.
Qed.

Lemma fs_readdir_not_ready (w : world) :
  ¬ directory_ready d w → fs_readdir (uploadDir d) w = (Val None, w).
Proof.
  intros Hn. unfold fs_readdir.
  destruct (fs w !! uploadDir d) as [st|] eqn:E; [|reflexivity].
  destruct (st_isDirectory st) eqn:Hd; [|reflexivity].
  exfalso. apply Hn. exists st. auto.
Qed.

Lemma with_fs_id (w : world) : with_fs (λ m, m) w = w.
Proof. destruct w; reflexivity. Qed.

(** The listing of a directory nobody else is changing. *)
Lemma list_handler_quiet (e : env) (w : world) :
  isAbsolute d = true → directory_ready d w → unlinked_after_scan e = [] →
  list_handler d e w
  = (Val (End (json_response 200
                 (JObj [ ("success", JBool true);
                         ("count", JNum (Z.of_nat (length (entries d w))));
                         ("files",
                          JArr (map (λ name, list_entry name (entry_size d w name))
                                  (entries d w))) ]))), w).
Proof.
  intros Habs Hready Hquiet. unfold list_handler. run_m.
  rewrite (fs_readdir_ready _ Hready). unfold outside_unlink.
  rewrite Hquiet. cbn [foldr]. rewrite with_fs_id.
  unfold uncaught, list_callback. run_m. rewrite mapM_stat_ok.
  - rewrite length_map.
    rewrite (map_ext_in _ (λ name, list_entry name (entry_size d w name)));
      [reflexivity|].
    intros name Hin. apply list_elem_of_In in Hin.
    apply elem_of_entries in Hin as [Hord _].
    unfold entry_size. rewrite join_uploadDir by assumption. reflexivity.
  - intros name Hin. apply elem_of_entries in Hin as [Hord Hsome].
    rewrite join_uploadDir by assumption. exact Hsome.
Qed.

(** C10.  The size lookup of the listing is unguarded: when the directory
    scan succeeded but some listed entry can no longer be stat-ed when
    the callback runs, the handler raises the [statSync] exception, which
    nothing catches, instead of sending the 500 JSON response kept for a
    failed directory read. *)
Theorem listing_crashes_on_vanished_entry (e : env) (w : world)
    (name : string) :
  directory_ready d w →
  name ∈ entries d w →
  foldr delete (fs w) (unlinked_after_scan e)
    !! Path.join (uploadDir d) name = None →
  ∃ w',
    list_handler d e w = (Val (Crash (SystemError "ENOENT")), w')
    ∧ list_handler d e w ≠ (Val (End list_failure), w')
    ∧ uncaught (list_callback d None) w' = (Val (End list_failure), w').
Proof.
  intros Hready Hin Hgone. unfold list_handler. run_m.
  rewrite (fs_readdir_ready _ Hready). unfold outside_unlink.
  eexists. split; [|split].
  - unfold uncaught, list_callback. run_m.
    erewrite mapM_stat_fail; [reflexivity | exact Hin | exact Hgone].
  - unfold uncaught, list_callback. run_m.
    erewrite mapM_stat_fail; [discriminate | exact Hin | exact Hgone].
  - reflexivity.
Qed.

End Listing.

(* ===================================================================== *)
(** * Uploads followed by a listing *)
(* ===================================================================== *)

Section UploadsThenListing.
Import Str Path Http Server Express App JS.
Variable d : string.
Hypothesis Habs : isAbsolute d = true.

Lemma error_response_status (x : error) :
  status (error_response x) = 400 ∨ status (error_response x) = 500.
Proof. destruct x as [[] m| | | |]; simpl; auto. Qed.

Lemma upload_handler_200_inv (req : request) (f : option stored_file)
    (e : env) (w1 w2 : world) (r : response) :
  upload_handler d req f e w1 = (Val (End r), w2) → status r = 200 →
  ∃ sf, f = Some sf ∧ fs w2 = fs w1.
Proof.
  intros H Hst.
  destruct (uploadSessions w1 !! req_ip req) as [sid|] eqn:Hs.
  - rewrite upload_handler_duplicate in H by eauto.
    injection H as <- _. discriminate.
  - destruct f as [sf|].
    + exists sf. split; [reflexivity|].
      destruct (unlinked_before_stat e) eqn:Hq.
      * destruct (fs w1 !! Path.join (uploadDir d) (file_filename sf)) as [st|] eqn:E.
        -- rewrite upload_handler_throws in H by eauto. discriminate.
        -- revert H.
           unfold upload_handler, sessions_has, sessions_set, sessions_delete,
             fs_existsSync. run_m.
           rewrite bool_decide_eq_false_2 by (rewrite Hs; apply is_Some_None).
           simpl. rewrite E.
           rewrite bool_decide_eq_false_2 by apply is_Some_None.
           simpl. intros H. injection H as _ <-. reflexivity.
      * rewrite upload_handler_file in H by assumption.
        injection H as _ <-. reflexivity.
    + rewrite upload_handler_no_file in H by assumption.
      injection H as <- _. discriminate.
Qed.

Lemma upload_handler_cases (req : request) (f : option stored_file)
    (e : env) (w1 : world) :
  (∃ r w2, upload_handler d req f e w1 = (Val (End r), w2)
           ∧ (status r = 429 ∨ status r = 400 ∨ status r = 200))
  ∨ (∃ x w2, upload_handler d req f e w1 = (Throw x, w2)).
Proof.
  destruct (uploadSessions w1 !! req_ip req) as [sid|] eqn:Hs.
  - rewrite upload_handler_duplicate by eauto. left. eauto 6.
  - destruct f as [sf|].
    + destruct (unlinked_before_stat e) eqn:Hq.
      * destruct (fs w1 !! Path.join (uploadDir d) (file_filename sf)) as [st|] eqn:E.
        -- rewrite upload_handler_throws by eauto. right. eauto.
        -- unfold upload_handler, sessions_has, sessions_set, sessions_delete,
             fs_existsSync. run_m.
           rewrite bool_decide_eq_false_2 by (rewrite Hs; apply is_Some_None).
           simpl. rewrite E.
           rewrite bool_decide_eq_false_2 by apply is_Some_None.
           simpl. left. eauto 6.
      * rewrite upload_handler_file by assumption. left. eauto 6.
    + rewrite upload_handler_no_file by assumption. left. eauto 6.
Qed.

(** A request answered 200 stored exactly one file, under the generated
    name. *)
Lemma post_upload_success_inv (req : request) (e : env) (w : world) :
  succeeded (post_upload d req e w).1 →
  ∃ file, req_part req = Some file
          ∧ fs (post_upload d req e w).2
            = <[uploadDir d +:+ "/" +:+ storage_filename e file
                := file_node (payload file)]> (fs w)
          ∧ writable d w (uploadDir d +:+ "/" +:+ storage_filename e file).
Proof.
  intros (resp & Hresp & Hstatus).
  destruct (upload_single d "file" req e w) as [[[f|x]|x] w1] eqn:Hm.
  - destruct (upload_handler d req f e w1) as [hr w2] eqn:Hh.
    destruct (upload_handler_cases req f e w1)
      as [(r & w2' & Hr & _)|(x & w2' & Hx)];
      rewrite Hh in *; [injection Hr as -> -> | injection Hx as -> ->].
    + rewrite (post_upload_handler_end d _ _ _ _ _ _ _ Hm Hh) in *.
      simpl in *. injection Hresp as ->.
      destruct (upload_handler_200_inv _ _ _ _ _ _ Hh Hstatus) as (sf & -> & Hfs).
      destruct (upload_single_Some_inv d _ _ _ _ _ Hm)
        as (file & Hpart & -> & Hw1 & Hw).
      simpl in Hw1, Hw.
      rewrite join_uploadDir in Hw1, Hw
        by (exact Habs || apply storage_filename_ordinary).
      exists file. split; [exact Hpart|]. split; [|exact Hw].
      rewrite Hfs, Hw1. reflexivity.
    + rewrite (post_upload_handler_throw d _ _ _ _ _ _ _ Hm Hh) in *.
      simpl in Hresp. injection Hresp as <-.
      destruct (error_response_status x); congruence.
  - rewrite (post_upload_escaped d _ _ _ _ _ Hm) in Hresp. discriminate.
  - rewrite (post_upload_multer_error d _ _ _ _ _ Hm) in *.
    simpl in Hresp. injection Hresp as <-.
    destruct (error_response_status x); congruence.
Qed.

Lemma append_neq_self (a b : string) : b ≠ "" → a +:+ b ≠ a.
Proof.
  intros Hb H. apply Hb. apply (f_equal to_list) in H.
  rewrite to_list_app in H. rewrite <- (app_nil_r (to_list a)) in H at 2.
  apply app_inv_head in H. destruct b; [reflexivity | discriminate].
Qed.

Lemma directory_ready_insert (w1 w : world) (name : string) (st : stats) :
  fs w1 = <[uploadDir d +:+ "/" +:+ name := st]> (fs w) →
  directory_ready d w → directory_ready d w1.
Proof.
  intros Hfs (dst & Hd & Hisd). exists dst. split; [|exact Hisd].
  rewrite Hfs, lookup_insert_ne; [exact Hd|].
  apply append_neq_self. discriminate.
Qed.

(** A new file below [uploadDir] is one new entry. *)
Lemma entries_insert_fresh (w1 w : world) (name : string) (st : stats) :
  ordinary name →
  fs w1 = <[uploadDir d +:+ "/" +:+ name := st]> (fs w) →
  name ∉ entries d w →
  entries d w1 ≡ₚ name :: entries d w.
Proof.
  intros Hord Hfs Hnew. unfold entries, children. rewrite Hfs.
  rewrite map_to_list_insert.
  - simpl. rewrite (proj2 (child_of_Some _ _ _)) by auto. reflexivity.
  - destruct (fs w !! (uploadDir d +:+ "/" +:+ name)) as [old|] eqn:E;
      [|reflexivity].
    exfalso. apply Hnew. apply elem_of_entries. eauto.
Qed.

Lemma uploads_fill_directory (rs : list (request * env)) :
  ∀ (w : world) (done : list (option string)),
    directory_ready d w →
    Some <$> entries d w ≡ₚ done →
    NoDup (done ++ map generated_name rs) →
    Forall (succeeded) (serve_uploads d rs w).1 →
    length (entries d (serve_uploads d rs w).2)
    = (length done + length rs)%nat.
Proof.
  induction rs as [|[req e] rest IH]; intros w done Hready Hdone Hnd Hok.
  - simpl. rewrite <- Hdone, length_fmap. lia.
  - cbn [serve_uploads] in *.
    destruct (post_upload d req e w) as [r w1] eqn:Hp.
    destruct (serve_uploads d rest w1) as [rs' w2] eqn:Hrest.
    simpl in Hok. inversion Hok as [|? ? Hr Hrs']; subst.
    pose proof (post_upload_success_inv req e w) as Hinv.
    rewrite Hp in Hinv. simpl in Hinv.
    destruct (Hinv Hr) as (file & Hpart & Hfs & _).
    pose proof (storage_filename_ordinary e file) as Hord.
    assert (Hname : generated_name (req, e) = Some (storage_filename e file)).
    { unfold generated_name. simpl. rewrite Hpart. reflexivity. }
    cbn [map] in Hnd. rewrite Hname in Hnd.
    assert (Hnew : storage_filename e file ∉ entries d w).
    { intros Hin. apply NoDup_app in Hnd as (_ & Hdisj & _).
      apply (Hdisj (Some (storage_filename e file))).
      - rewrite <- Hdone. apply list_elem_of_fmap. eauto.
      - left. }
    pose proof (entries_insert_fresh w1 w _ _ Hord Hfs Hnew) as Hperm.
    specialize (IH w1 (Some (storage_filename e file) :: done)).
    rewrite Hrest in IH. simpl in IH. simpl. rewrite IH.
    + simpl. lia.
    + exact (directory_ready_insert w1 w _ _ Hfs Hready).
    + rewrite Hperm. simpl. rewrite Hdone. reflexivity.
    + cbn [app]. rewrite Permutation_middle. exact Hnd.
    + exact Hrs'.
Qed.

(** After N successful uploads into an empty directory it has N entries,
    provided the generated names are pairwise distinct. *)
Lemma uploads_counted (rs : list (request * env)) (w0 : world) :
  directory_ready d w0 →
  entries d w0 = [] →
  Forall succeeded (serve_uploads d rs w0).1 →
  NoDup (map generated_name rs) →
  length (entries d (serve_uploads d rs w0).2) = length rs.
Proof.
  intros Hready0 Hempty Hok Hnd.
  rewrite (uploads_fill_directory rs w0 []); try assumption.
  - reflexivity.
  - rewrite Hempty. reflexivity.
Qed.

End UploadsThenListing.

(* ===================================================================== *)
(** * [GET /uploads/:filename] *)
(* ===================================================================== *)

Section Retrieval.
Import Str Path Http Server Express App JS.
Variable d : string.

Lemma res_sendFile_cases (p : string) (w : world) :
  res_sendFile p w = (Val Next, w)
  ∨ res_sendFile p w = (Val (NextErr (HttpError 404)), w)
  ∨ res_sendFile p w
    = (Val (End {| status := 200; content := FileContent p |}), w).
Proof.
  unfold res_sendFile. destruct (containsDotFile p); [auto|].
  destruct (fs w !! p) as [st|]; [|auto].
  destruct (st_isDirectory st); auto.
Qed.

(** What the handler's check does guarantee: a file it sends has a path
    that starts with the text of [uploadDir], and exists. *)
Lemma getfile_sends_prefixed (filename p : string) (w w' : world) :
  getfile_handler d filename w
  = (Val (End {| status := 200; content := FileContent p |}), w') →
  p = Path.join (uploadDir d) filename
  ∧ starts_with (uploadDir d) p = true
  ∧ is_Some (fs w !! p).
Proof.
  unfold getfile_handler, fs_existsSync. run_m.
  destruct (starts_with (uploadDir d) (Path.join (uploadDir d) filename)) eqn:Hpre;
    cbn [negb]; [|discriminate].
  destruct (bool_decide _) eqn:Hex; cbn [negb]; [|discriminate].
  apply bool_decide_eq_true_1 in Hex.
  destruct (res_sendFile_cases (Path.join (uploadDir d) filename) w)
    as [H|[H|H]]; rewrite H; intros Heq; inversion Heq; subst; auto.
Qed.

(** A name that leaves [uploadDir] for a path that does not even start
    with its text is refused with 403. *)
Lemma getfile_denies_unprefixed (filename : string) (w : world) :
  starts_with (uploadDir d) (Path.join (uploadDir d) filename) = false →
  getfile_handler d filename w = (Val (End access_denied), w).
Proof. intros H. unfold getfile_handler. rewrite H. reflexivity. Qed.

(** A name that passes the check but names nothing is answered 404. *)
Lemma getfile_missing (filename : string) (w : world) :
  starts_with (uploadDir d) (Path.join (uploadDir d) filename) = true →
  fs w !! Path.join (uploadDir d) filename = None →
  getfile_handler d filename w = (Val (End file_not_found), w).
Proof.
  intros H Hnone. unfold getfile_handler, fs_existsSync. run_m.
  rewrite H. cbn [negb]. cbv beta. rewrite Hnone.
  rewrite bool_decide_eq_false_2 by apply is_Some_None. reflexivity.
Qed.

End Retrieval.

(* ===================================================================== *)
(** * The layer stack *)
(* ===================================================================== *)

Section Dispatch.
Import Str Path Http Server Express App JS.

Lemma run_skip (l : layer) (rest : list layer) (err : option error)
    (req : request) (e : env) (w : world) :
  layer_match l req = NoMatch →
  run (l :: rest) err req e w = run rest err req e w.
Proof. intros H. cbn [run]. rewrite H. reflexivity. Qed.

(** A parameter that does not decode becomes the pending error, unless
    an error is pending already. *)
Lemma run_match_fails (l : layer) (rest : list layer) (err : option error)
    (x : error) (req : request) (e : env) (w : world) :
  layer_match l req = MatchFails x →
  run (l :: rest) err req e w = run rest (Some (default x err)) req e w.
Proof. intros H. cbn [run]. rewrite H. reflexivity. Qed.

Lemma run_wrong_kind_error (l : layer) (rest : list layer) (x : error)
    (req : request) (e : env) (w : world) f :
  layer_run l = Middleware f →
  run (l :: rest) (Some x) req e w = run rest (Some x) req e w.
Proof.
  intros H. cbn [run]. rewrite H. destruct (layer_match l req); reflexivity.
Qed.

Lemma run_wrong_kind_normal (l : layer) (rest : list layer)
    (req : request) (e : env) (w : world) f :
  layer_run l = ErrorMiddleware f → layer_match l req = Matches →
  run (l :: rest) None req e w = run rest None req e w.
Proof. intros H Hm. cbn [run]. rewrite H, Hm. reflexivity. Qed.

Lemma run_middleware (l : layer) (rest : list layer) (req : request)
    (e : env) (w w' : world) f (s : step) :
  layer_run l = Middleware f → layer_match l req = Matches →
  guard (f req e) (with_event (EvEnter (layer_name l)) w) = (Val s, w') →
  run (l :: rest) None req e w
  = match s with
    | Next => run rest None req e w'
    | NextErr x => run rest (Some x) req e w'
    | End r => (Val (Responded r), w')
    | Crash x => (Val (Crashed x), w')
    end.
Proof.
  intros Hf Hm Hg. cbn [run]. rewrite Hf, Hm. run_m.
  simpl. rewrite Hg. destruct s; reflexivity.
Qed.

Lemma run_error_middleware (l : layer) (rest : list layer) (req : request)
    (e : env) (w w' : world) f (x : error) (s : step) :
  layer_run l = ErrorMiddleware f → layer_match l req = Matches →
  guard (f x req e) (with_event (EvEnter (layer_name l)) w) = (Val s, w') →
  run (l :: rest) (Some x) req e w
  = match s with
    | Next => run rest None req e w'
    | NextErr y => run rest (Some y) req e w'
    | End r => (Val (Responded r), w')
    | Crash y => (Val (Crashed y), w')
    end.
Proof.
  intros Hf Hm Hg. cbn [run]. rewrite Hf, Hm. run_m.
  simpl. rewrite Hg. destruct s; reflexivity.
Qed.

Lemma tame_weaken {A} (answer : A → option response) (m : M A) (w : world)
    (evs0 : list event) (w0 : world) :
  trace w = trace w0 ++ evs0 → Forall (λ ev, ev ≠ EvEnter L405) evs0 →
  (∃ a w' evs, m w = (Val a, w')
     ∧ (∀ r, answer a = Some r → status r ≠ 405)
     ∧ trace w' = trace w ++ evs
     ∧ Forall (λ ev, ev ≠ EvEnter L405) evs) →
  ∃ a w' evs, m w = (Val a, w')
     ∧ (∀ r, answer a = Some r → status r ≠ 405)
     ∧ trace w' = trace w0 ++ evs
     ∧ Forall (λ ev, ev ≠ EvEnter L405) evs.
Proof.
  intros Htr Hevs0 (a & w' & evs & Hm & Hans & Htr' & Hevs).
  exists a, w', (evs0 ++ evs). repeat split; try assumption.
  - rewrite Htr', Htr, app_assoc. reflexivity.
  - apply Forall_app. auto.
Qed.

(** Tame layers in front of a tame remainder make a tame stack. *)
Lemma run_tame (front : list layer) (tail : list layer) :
  Forall tame_layer front →
  (∀ err req e, tame final_answer (run tail err req e)) →
  ∀ err req e, tame final_answer (run (front ++ tail) err req e).
Proof.
  intros Hfront Htail. induction Hfront as [|l front [Hname Hl] _ IH];
    [exact Htail|].
  intros err req e w. change ((l :: front) ++ tail) with (l :: (front ++ tail)).
  destruct (layer_match l req) as [| |y] eqn:Hm;
    [rewrite run_skip by exact Hm; apply IH
    | | rewrite (run_match_fails _ _ _ y) by exact Hm; apply IH].
  destruct (layer_run l) as [f|f] eqn:Hf, err as [x|].
  - rewrite (run_wrong_kind_error _ _ _ _ _ _ _ Hf). apply IH.
  - destruct (Hl req e (with_event (EvEnter (layer_name l)) w))
      as (s & w' & evs & Hg & Hans & Htr & Hevs).
    rewrite (run_middleware _ _ _ _ _ _ _ _ Hf Hm Hg).
    assert (Htr' : trace w' = trace w ++ (EvEnter (layer_name l) :: evs)).
    { rewrite Htr. simpl. rewrite <- app_assoc. reflexivity. }
    assert (Hevs' : Forall (λ ev, ev ≠ EvEnter L405) (EvEnter (layer_name l) :: evs)).
    { constructor; [congruence | exact Hevs]. }
    destruct s as [|y|r|y].
    + eapply tame_weaken; [exact Htr' | exact Hevs' | apply IH].
    + eapply tame_weaken; [exact Htr' | exact Hevs' | apply IH].
    + exists (Responded r), w', (EvEnter (layer_name l) :: evs).
      repeat split; assumption.
    + exists (Crashed y), w', (EvEnter (layer_name l) :: evs).
      repeat split; assumption.
  - destruct (Hl x req e (with_event (EvEnter (layer_name l)) w))
      as (s & w' & evs & Hg & Hans & Htr & Hevs).
    rewrite (run_error_middleware _ _ _ _ _ _ _ _ _ Hf Hm Hg).
    assert (Htr' : trace w' = trace w ++ (EvEnter (layer_name l) :: evs)).
    { rewrite Htr. simpl. rewrite <- app_assoc. reflexivity. }
    assert (Hevs' : Forall (λ ev, ev ≠ EvEnter L405) (EvEnter (layer_name l) :: evs)).
    { constructor; [congruence | exact Hevs]. }
    destruct s as [|y|r|y].
    + eapply tame_weaken; [exact Htr' | exact Hevs' | apply IH].
    + eapply tame_weaken; [exact Htr' | exact Hevs' | apply IH].
    + exists (Responded r), w', (EvEnter (layer_name l) :: evs).
      repeat split; assumption.
    + exists (Crashed y), w', (EvEnter (layer_name l) :: evs).
      repeat split; assumption.
  - rewrite (run_wrong_kind_normal _ _ _ _ _ _ Hf Hm). apply IH.
Qed.

End Dispatch.

Section Application.
Import Str Path Http Server Express App JS.
Variable d : string.

Lemma tame_unchanged {A} (answer : A → option response) (m : M A) :
  (∀ w, ∃ a, m w = (Val a, w) ∧ ∀ r, answer a = Some r → status r ≠ 405) →
  tame answer m.
Proof.
  intros H w. destruct (H w) as (a & Hm & Hans).
  exists a, w, []. rewrite app_nil_r. repeat split; auto.
Qed.

Lemma storage_events_tame (evs : list event) :
  forallb storage_event evs = true → Forall (λ ev, ev ≠ EvEnter L405) evs.
Proof.
  rewrite forallb_forall, Forall_forall. intros H ev Hin ->.
  apply list_elem_of_In in Hin. specialize (H _ Hin). discriminate.
Qed.

Lemma gate_events_tame (evs : list event) :
  forallb gate_event evs = true → Forall (λ ev, ev ≠ EvEnter L405) evs.
Proof.
  rewrite forallb_forall, Forall_forall. intros H ev Hin ->.
  apply list_elem_of_In in Hin. specialize (H _ Hin). discriminate.
Qed.

Lemma cors_tame (req : request) (e : env) : tame step_answer (guard (cors req e)).
Proof.
  apply tame_unchanged. intros w. unfold guard, cors. run_m.
  destruct (req_method req); eexists; (split; [reflexivity|]);
    simpl; intros r Hr; inversion Hr; subst; simpl; lia.
Qed.

Lemma json_parser_tame (req : request) (e : env) :
  tame step_answer (guard (json_parser req e)).
Proof.
  apply tame_unchanged. intros w. unfold guard, json_parser. run_m.
  destruct (json_failure req); eexists; (split; [reflexivity|]);
    simpl; intros r Hr; discriminate.
Qed.

Lemma urlencoded_parser_tame (req : request) (e : env) :
  tame step_answer (guard (urlencoded_parser req e)).
Proof.
  apply tame_unchanged. intros w. unfold guard, urlencoded_parser. run_m.
  destruct (urlencoded_failure req); eexists; (split; [reflexivity|]);
    simpl; intros r Hr; discriminate.
Qed.

(** The static middleware reads the file system and nothing else, and
    answers 200 or 301 when it answers. *)
Lemma serve_static_cases (root : string) (req : request) (e : env) (w : world) :
  ∃ s, serve_static root req e w = (Val s, w)
       ∧ (s = Next ∨ ∃ r, s = End r ∧ (status r = 200 ∨ status r = 301)).
Proof.
  unfold serve_static. cbv zeta.
  repeat case_match; eexists; (split; [reflexivity|]); eauto.
Qed.

Lemma serve_static_fs (root : string) (req : request) (e : env) (w w1 : world) :
  fs w1 = fs w →
  (serve_static root req e w).1 = Val Next →
  serve_static root req e w1 = (Val Next, w1).
Proof.
  unfold serve_static. cbv zeta. intros ->.
  repeat case_match; simpl; intros Hnext; (discriminate || reflexivity).
Qed.

Lemma serve_static_tame (root : string) (req : request) (e : env) :
  tame step_answer (guard (serve_static root req e)).
Proof.
  apply tame_unchanged. intros w. unfold guard.
  destruct (serve_static_cases root req e w) as (s & Hs & Hcases).
  rewrite Hs. exists s. split; [reflexivity|].
  intros r Hr. destruct Hcases as [->|(r' & -> & Hst)]; [discriminate|].
  injection Hr as <-. lia.
Qed.

Lemma res_sendFile_tame (p : string) : tame step_answer (guard (res_sendFile p)).
Proof.
  apply tame_unchanged. intros w. unfold guard.
  destruct (res_sendFile_cases p w) as [H|[H|H]]; rewrite H;
    eexists; (split; [reflexivity|]); intros r Hr; inversion Hr; subst;
    simpl; lia.
Qed.

Lemma upload_route_tame (req : request) (e : env) :
  tame step_answer (guard (upload_route d req e)).
Proof.
  intros w. unfold guard, upload_route. run_m.
  destruct (upload_single_events d req e w) as (pre & Hpre & Hst & _).
  destruct (upload_single d "file" req e w) as [[[f|x]|x] w1]; simpl in *;
    [|exists (Crash x), w1, pre; repeat split; try assumption;
      [intros r' Hr'; discriminate | apply storage_events_tame; exact Hst]|].
  - destruct (upload_handler_events d req f e w1) as (post & Hpost & Hg).
    assert (Htr : trace (upload_handler d req f e w1).2 = trace w ++ (pre ++ post)).
    { rewrite Hpost, Hpre, app_assoc. reflexivity. }
    assert (Hevs : Forall (λ ev, ev ≠ EvEnter L405) (pre ++ post)).
    { apply Forall_app. split;
        [apply storage_events_tame | apply gate_events_tame]; assumption. }
    destruct (upload_handler_cases d req f e w1)
      as [(r & w2 & Hh & Hstatus)|(y & w2 & Hh)]; rewrite Hh in *; simpl in *.
    + exists (End r), w2, (pre ++ post). repeat split; try assumption.
      intros r' Hr'. injection Hr' as <-. lia.
    + exists (NextErr y), w2, (pre ++ post). repeat split; try assumption.
      intros r' Hr'. discriminate.
  - exists (NextErr x), w1, pre. repeat split; try assumption.
    + intros r' Hr'. discriminate.
    + apply storage_events_tame. exact Hst.
Qed.

Lemma mapM_stat_world (names : list string) (w : world) :
  (mapM (stat_entry d) names w).2 = w.
Proof.
  induction names as [|name rest IH]; [reflexivity|].
  cbn [mapM]. run_m. rewrite stat_entry_run.
  destruct (fs w !! Path.join (uploadDir d) name); [|reflexivity].
  destruct (mapM (stat_entry d) rest w) as [[l|x] w'] eqn:E;
    simpl in *; exact IH.
Qed.

Lemma list_handler_tame (e : env) : tame step_answer (guard (list_handler d e)).
Proof.
  intros w. unfold guard, list_handler, fs_readdir, outside_unlink. run_m.
  set (w1 := with_fs (λ m, foldr delete m (unlinked_after_scan e)) w).
  assert (Hcb : ∀ scan, ∃ s,
             uncaught (list_callback d scan) w1 = (Val s, w1)
             ∧ ∀ r, step_answer s = Some r → status r ≠ 405).
  { intros [names|]; unfold uncaught, list_callback; run_m.
    - pose proof (mapM_stat_world names w1) as Hw.
      destruct (mapM (stat_entry d) names w1) as [[l|x] w'];
        simpl in Hw; subst w'; eexists; (split; [reflexivity|]);
        intros r Hr; inversion Hr; subst; simpl; lia.
    - eexists. split; [reflexivity|].
      intros r Hr. inversion Hr; subst. simpl. lia. }
  destruct (fs w !! uploadDir d) as [st|]; [destruct (st_isDirectory st)|];
    fold w1;
    match goal with
    | |- context [uncaught (list_callback d ?scan) w1] =>
        destruct (Hcb scan) as (s & Hs & Hans); rewrite Hs
    end;
    exists s, w1, []; rewrite app_nil_r; repeat split; auto.
Qed.

Lemma getfile_handler_cases (filename : string) (w : world) :
  ∃ s, getfile_handler d filename w = (Val s, w)
       ∧ ∀ r, step_answer s = Some r → status r ≠ 405.
Proof.
  unfold getfile_handler, fs_existsSync. run_m.
  destruct (negb (starts_with _ _)).
  - eexists. split; [reflexivity|]. intros r Hr. inversion Hr; subst. simpl. lia.
  - destruct (negb (bool_decide _)).
    + eexists. split; [reflexivity|].
      intros r Hr. inversion Hr; subst. simpl. lia.
    + destruct (res_sendFile_cases (Path.join (uploadDir d) filename) w)
        as [H|[H|H]]; rewrite H; eexists; (split; [reflexivity|]);
        intros r Hr; inversion Hr; subst; simpl; lia.
Qed.

Lemma getfile_layer_tame (req : request) (e : env) :
  tame step_answer (guard (getfile_layer d req e)).
Proof.
  apply tame_unchanged. intros w. unfold guard, getfile_layer. run_m.
  destruct (filename_param req) as [[filename|]|].
  - destruct (getfile_handler_cases filename w) as (s & Hs & Hans).
    rewrite Hs. eauto.
  - eexists. split; [reflexivity|]. intros r Hr. discriminate.
  - eexists. split; [reflexivity|]. intros r Hr. discriminate.
Qed.

Lemma health_handler_tame (e : env) : tame step_answer (guard (health_handler d e)).
Proof.
  apply tame_unchanged. intros w. eexists. split; [reflexivity|].
  intros r Hr. inversion Hr; subst. simpl. lia.
Qed.

(** The layers in front of the 404 handler, and the rest. *)
Lemma stack_split : stack d = firstn 9 (stack d) ++ skipn 9 (stack d).
Proof. reflexivity. Qed.

Lemma front_tame : Forall tame_layer (firstn 9 (stack d)).
Proof.
  cbn [firstn stack]. repeat constructor; try discriminate; cbn [layer_run];
    intros.
  - apply cors_tame.
  - apply json_parser_tame.
  - apply urlencoded_parser_tame.
  - apply serve_static_tame.
  - apply res_sendFile_tame.
  - apply upload_route_tame.
  - apply list_handler_tame.
  - apply getfile_layer_tame.
  - apply health_handler_tame.
Qed.

(** From the 404 handler on: an unanswered request gets the 404 JSON, a
    pending error gets the error handler's answer; the 405 handler in
    between is never called. *)
Lemma tail_run (err : option error) (req : request) (e : env) (w : world) :
  run (skipn 9 (stack d)) err req e w
  = match err with
    | None => (Val (Responded (route_not_found req)), with_event (EvEnter L404) w)
    | Some x => (Val (Responded (error_response x)), with_event (EvEnter LError) w)
    end.
Proof. destruct err; reflexivity. Qed.

Lemma error_response_not_405 (x : error) : status (error_response x) ≠ 405.
Proof. destruct (error_response_status x) as [H|H]; rewrite H; lia. Qed.

Lemma tail_tame (err : option error) (req : request) (e : env) :
  tame final_answer (run (skipn 9 (stack d)) err req e).
Proof.
  intros w. rewrite tail_run. destruct err as [x|].
  - exists (Responded (error_response x)), (with_event (EvEnter LError) w),
      [EvEnter LError].
    repeat split; [|repeat constructor; discriminate].
    intros r Hr. injection Hr as <-. apply error_response_not_405.
  - exists (Responded (route_not_found req)), (with_event (EvEnter L404) w),
      [EvEnter L404].
    repeat split; [|repeat constructor; discriminate].
    intros r Hr. injection Hr as <-. simpl. lia.
Qed.

Lemma app_tame (req : request) (e : env) : tame final_answer (app d req e).
Proof.
  unfold app. rewrite stack_split.
  apply run_tame; [apply front_tame | intros; apply tail_tame].
Qed.

Lemma is_match_matched (b : bool) : is_match (matched b) = b.
Proof. destruct b; reflexivity. Qed.

Lemma matched_false (b : bool) : b = false → matched b = NoMatch.
Proof. intros ->. reflexivity. Qed.

Lemma matched_true (b : bool) : b = true → matched b = Matches.
Proof. intros ->. reflexivity. Qed.

Lemma matches_route_false (req : request) :
  matches_route d req = false →
  route GET "/" req = false
  ∧ route POST "/upload" req = false
  ∧ route GET "/uploads" req = false
  ∧ is_match (getfile_match req) = false
  ∧ route GET "/health" req = false.
Proof.
  unfold matches_route. cbn [stack List.filter layer_name existsb layer_match].
  rewrite !is_match_matched, !orb_false_iff. tauto.
Qed.

(** The one parameter of the application is [:filename]. *)
Lemma params_decode_getfile (req : request) :
  params_decode d req
  = match getfile_match req with MatchFails _ => false | _ => true end.
Proof.
  unfold params_decode. cbn [stack forallb layer_match]. unfold always.
  destruct (route GET "/" req), (route POST "/upload" req),
    (route GET "/uploads" req), (route GET "/health" req),
    (getfile_match req); reflexivity.
Qed.

Lemma getfile_match_fails (req : request) :
  params_decode d req = false →
  getfile_match req = MatchFails (HttpError 400)
  ∧ ∃ raw, match_param "/uploads" (req_path req) = Some raw.
Proof.
  intros H. rewrite params_decode_getfile in H.
  unfold getfile_match, filename_param in *.
  destruct (match_param "/uploads" (req_path req)) as [raw|];
    [|discriminate H].
  cbn [fmap option_fmap option_map] in *.
  destruct (decodeURIComponent raw).
  - destruct (handles_method GET (req_method req)); discriminate H.
  - eauto.
Qed.

Lemma lower_idempotent (c : ascii) : lower (lower c) = lower c.
Proof.
  assert (H : forallb (λ c, Ascii.eqb (lower (lower c)) (lower c)) all_ascii
              = true) by (vm_compute; reflexivity).
  rewrite forallb_forall in H. apply Ascii.eqb_eq. apply H.
  apply all_ascii_complete.
Qed.

(** A prefix that the lower-cased path does not start with is no prefix
    of the path itself, letter case set aside. *)
Lemma strip_prefix_ci_lower (prefix s : string) :
  strip_prefix_ci prefix (toLowerCase s) = None →
  strip_prefix_ci prefix s = None.
Proof.
  revert s. induction prefix as [|a prefix IH]; intros s; [discriminate|].
  destruct s as [|b s]; [reflexivity|]. simpl.
  rewrite lower_idempotent.
  destruct (Ascii.eqb (lower a) (lower b)); [apply IH | reflexivity].
Qed.

Lemma match_param_lower (prefix path : string) :
  strip_prefix_ci (prefix +:+ "/") (toLowerCase path) = None →
  match_param prefix path = None.
Proof.
  intros H. unfold match_param. rewrite (strip_prefix_ci_lower _ _ H).
  reflexivity.
Qed.

(** A path with a prefix, letter case set aside, starts with that prefix
    once both are lower-cased. *)
Lemma strip_prefix_ci_lowered (prefix s rest : string) :
  strip_prefix_ci prefix s = Some rest →
  toLowerCase s = toLowerCase prefix +:+ toLowerCase rest.
Proof.
  revert s. induction prefix as [|a prefix IH]; intros s.
  - simpl. intros [= ->]. reflexivity.
  - destruct s as [|b s]; [discriminate|]. simpl.
    destruct (Ascii.eqb (lower a) (lower b)) eqn:E; [|discriminate].
    apply Ascii.eqb_eq in E. intros H.
    unfold toLowerCase in *. cbn [map_chars]. rewrite (IH _ H), E.
    reflexivity.
Qed.

(** A path of the form [/uploads/:filename] is the path of no other
    route. *)
Lemma param_path_only (path raw : string) :
  match_param "/uploads" path = Some raw →
  match_path "/" path = false
  ∧ match_path "/upload" path = false
  ∧ match_path "/uploads" path = false
  ∧ match_path "/health" path = false.
Proof.
  unfold match_param.
  destruct (strip_prefix_ci ("/uploads" +:+ "/") path) as [rest|] eqn:Hp;
    [|discriminate].
  apply strip_prefix_ci_lowered in Hp.
  destruct rest as [|c rest]; [discriminate|].
  intros _. unfold match_path. rewrite Hp. repeat split; reflexivity.
Qed.

(** The first four layers pass a request that reaches the router on. *)
Lemma run_to_router (rest : list layer) (req : request) (e : env)
    (w : world) :
  reaches_router d req e w →
  run ({| layer_name := LCors; layer_match := always;
          layer_run := Middleware cors |}
       :: {| layer_name := LJson; layer_match := always;
             layer_run := Middleware json_parser |}
       :: {| layer_name := LUrlencoded; layer_match := always;
             layer_run := Middleware urlencoded_parser |}
       :: {| layer_name := LStatic; layer_match := always;
             layer_run := Middleware (serve_static (publicDir d)) |}
       :: rest) None req e w
  = run rest None req e
      {| uploadSessions := uploadSessions w; fs := fs w;
         trace := trace w ++ [ EvEnter LCors; EvEnter LJson;
                               EvEnter LUrlencoded; EvEnter LStatic ] |}.
Proof.
  intros (Hmethod & Hjson & Hurl & Hstatic).
  erewrite run_middleware with (s := Next);
    [|reflexivity | reflexivity
     | unfold guard, cors; destruct (req_method req); try reflexivity;
       contradiction].
  erewrite run_middleware with (s := Next);
    [|reflexivity | reflexivity
     | unfold guard, json_parser; rewrite Hjson; reflexivity].
  erewrite run_middleware with (s := Next);
    [|reflexivity | reflexivity
     | unfold guard, urlencoded_parser; rewrite Hurl; reflexivity].
  erewrite run_middleware with (s := Next);
    [|reflexivity | reflexivity
     | unfold guard; cbn [layer_name];
       erewrite (serve_static_fs _ _ _ w);
         [reflexivity | reflexivity | exact Hstatic]].
  f_equal. apply world_eq; simpl; try reflexivity.
  rewrite <- !app_assoc. reflexivity.
Qed.

(** C9 (as amended).  No request is ever answered with status 405 and the
    405 handler is never called, because the 404 handler in front of it
    answers everything that reaches it.  A request that the global
    middleware lets through (no CORS preflight, a body that parses, no
    static file of that path) and that matches no route is answered with
    the 404 JSON that lists the available routes, provided its path holds
    no [:filename] segment that fails to decode; a request with such a
    segment never reaches the 404 handler, whatever its method: the
    decoding error goes to the global error handler, which answers 500. *)
Theorem unmatched_requests_get_404_never_405 (req : request) (e : env)
    (w : world) :
  (∃ o w' evs,
      app d req e w = (Val o, w')
      ∧ (∀ r, o = Responded r → status r ≠ 405)
      ∧ trace w' = trace w ++ evs
      ∧ EvEnter L405 ∉ evs)
  ∧ (reaches_router d req e w →
     matches_route d req = false →
     params_decode d req = true →
     app d req e w
     = (Val (Responded (route_not_found req)),
        {| uploadSessions := uploadSessions w;
           fs := fs w;
           trace := trace w ++ [ EvEnter LCors; EvEnter LJson;
                                 EvEnter LUrlencoded; EvEnter LStatic;
                                 EvEnter L404 ] |})
     ∧ status (route_not_found req) = 404)
  ∧ (reaches_router d req e w →
     params_decode d req = false →
     matches_route d req = false
     ∧ app d req e w
       = (Val (Responded
                 {| status := 500;
                    content :=
                      Json (JObj [ ("success", JBool false);
                                   ("error", JStr "Internal server error") ]) |}),
          {| uploadSessions := uploadSessions w;
             fs := fs w;
             trace := trace w ++ [ EvEnter LCors; EvEnter LJson;
                                   EvEnter LUrlencoded; EvEnter LStatic;
                                   EvEnter LError ] |})).
Proof.
  split; [|split].
  - destruct (app_tame req e w) as (o & w' & evs & Happ & Hans & Htr & Hevs).
    exists o, w', evs. repeat split; try assumption.
    + intros r ->. apply Hans. reflexivity.
    + intros Hin. rewrite Forall_forall in Hevs. exact (Hevs _ Hin eq_refl).
  - intros Hreach Hroutes Hdec.
    apply matches_route_false in Hroutes as (H1 & H2 & H3 & H4 & H5).
    rewrite params_decode_getfile in Hdec.
    assert (H4' : getfile_match req = NoMatch)
      by (destruct (getfile_match req); (reflexivity || discriminate)).
    split; [|reflexivity].
    unfold app, stack. rewrite (run_to_router _ req e w Hreach).
    rewrite run_skip by (apply matched_false; exact H1).
    rewrite run_skip by (apply matched_false; exact H2).
    rewrite run_skip by (apply matched_false; exact H3).
    rewrite run_skip by exact H4'.
    rewrite run_skip by (apply matched_false; exact H5).
    erewrite run_middleware with (s := End (route_not_found req));
      [|reflexivity | reflexivity | reflexivity].
    f_equal. apply world_eq; simpl; try reflexivity.
    rewrite <- !app_assoc. reflexivity.
  - intros Hreach Hdec.
    destruct (getfile_match_fails req Hdec) as (Hfail & raw & Hraw).
    destruct (param_path_only _ _ Hraw) as (P1 & P2 & P3 & P5).
    assert (H1 : route GET "/" req = false) by (unfold route; rewrite P1; reflexivity).
    assert (H2 : route POST "/upload" req = false)
      by (unfold route; rewrite P2; reflexivity).
    assert (H3 : route GET "/uploads" req = false)
      by (unfold route; rewrite P3; reflexivity).
    assert (H5 : route GET "/health" req = false)
      by (unfold route; rewrite P5; reflexivity).
    split.
    + unfold matches_route.
      cbn [stack List.filter layer_name existsb layer_match].
      rewrite !is_match_matched, H1, H2, H3, H5, Hfail. reflexivity.
    + unfold app, stack. rewrite (run_to_router _ req e w Hreach).
      rewrite run_skip by (apply matched_false; exact H1).
      rewrite run_skip by (apply matched_false; exact H2).
      rewrite run_skip by (apply matched_false; exact H3).
      rewrite (run_match_fails _ _ _ (HttpError 400)) by exact Hfail.
      cbn [default].
      rewrite run_skip by (apply matched_false; exact H5).
      repeat (erewrite run_wrong_kind_error by reflexivity).
      erewrite run_error_middleware;
        [|reflexivity | reflexivity | reflexivity].
      f_equal. apply world_eq; simpl; try reflexivity.
      rewrite <- !app_assoc. reflexivity.
Qed.

End Application.

(* ===================================================================== *)
(** * Worked runs of the concrete deployment *)
(* ===================================================================== *)

Section Runs.
Import Str Path Http Server Express App JS Scenario.

Example traversal_to_etc_passwd_denied :
  (app dirname (get "/uploads/..%2f..%2fetc%2fpasswd") quiet fresh).1
  = Val (Responded access_denied).
Proof. vm_compute. reflexivity. Qed.

Example missing_upload_not_found :
  (app dirname (get "/uploads/nothing.png") quiet fresh).1
  = Val (Responded file_not_found).
Proof. vm_compute. reflexivity. Qed.

Example listing_url_without_slash_redirects :
  (app dirname (get "/uploads") quiet fresh).1
  = Val (Responded {| status := 301; content := Html "Redirecting to /uploads/" |}).
Proof. vm_compute. reflexivity. Qed.

Lemma succeededb_all (results : list (result final)) :
  forallb succeededb results = true → Forall succeeded results.
Proof.
  rewrite forallb_forall, Forall_forall. intros H r Hin.
  apply list_elem_of_In in Hin. specialize (H r Hin).
  destruct r as [[resp|]|]; try discriminate.
  exists resp. split; [reflexivity|]. apply Z.eqb_eq. exact H.
Qed.

Lemma fresh_ready : directory_ready dirname fresh.
Proof. exists directory. split; vm_compute; reflexivity. Qed.

Lemma fresh_writable : writable dirname fresh stored_path.
Proof.
  split; [exact fresh_ready|].
  split; [intros st H; vm_compute in H; discriminate|].
  split; vm_compute; reflexivity.
Qed.

Lemma busy_writable : writable dirname busy stored_path.
Proof.
  split; [exists directory; split; vm_compute; reflexivity|].
  split; [intros st H; vm_compute in H; discriminate|].
  split; vm_compute; reflexivity.
Qed.

(** C1, the failing runs.  The gate is consulted by the route handler,
    which runs after multer has filtered and stored the file.  In a fresh
    process the photo of client 10.0.0.7 is written to the disk before
    the gate is checked and the entry inserted.  And when the client
    already holds a gate entry, the upload is answered 429 and the gate
    is untouched, yet the photo has been written to the storage
    directory, where it stays. *)
Theorem upload_is_stored_before_gate_check :
  let req := upload_from "10.0.0.7" photo in
  let admitted := post_upload dirname req quiet fresh in
  let refused := post_upload dirname req quiet busy in
  trace admitted.2
  = [ EvFilter "photo.png"; EvWrite stored_path;
      EvHas "10.0.0.7"; EvSet "10.0.0.7"; EvDelete "10.0.0.7" ]
  ∧ is_Some (uploadSessions busy !! "10.0.0.7")
  ∧ refused.1 = Val (Responded too_many_requests)
  ∧ sessions_of refused.2 = sessions_of busy
  ∧ fs busy !! stored_path = None
  ∧ fs refused.2 !! stored_path = Some (file_node 2097152)
  ∧ trace refused.2
    = [EvFilter "photo.png"; EvWrite stored_path; EvHas "10.0.0.7"].
Proof. vm_compute. repeat split; eauto. Qed.

(** C2, the failing run: the stored photo is removed from outside between
    [existsSync] and [statSync]; the handler throws after
    [uploadSessions.set], nothing deletes the entry, the client is
    answered 500 and its next upload is refused with 429. *)
Theorem session_entry_survives_handler_throw :
  let first := post_upload dirname (upload_from "10.0.0.7" photo) racing fresh in
  let second := post_upload dirname (upload_from "10.0.0.7" photo) quiet first.2 in
  uploadSessions fresh !! "10.0.0.7" = None
  ∧ first.1 = Val (Responded internal_error)
  ∧ uploadSessions first.2 !! "10.0.0.7" = Some "10.0.0.71700000000005"
  ∧ trace first.2
    = [EvFilter "photo.png"; EvWrite stored_path; EvHas "10.0.0.7"; EvSet "10.0.0.7"]
  ∧ second.1 = Val (Responded too_many_requests).
Proof. vm_compute. repeat split; reflexivity. Qed.

(** C3, the failing run: the name [../../public/uploads-old/secret.txt]
    resolves to a file in a directory next to the upload directory; its
    path starts with the text of [uploadDir], so the check lets it
    through and the handler sends it. *)
Theorem getfile_serves_sibling_of_upload_dir :
  let name := "../../public/uploads-old/secret.txt" in
  let request := get "/uploads/..%2F..%2Fpublic%2Fuploads-old%2Fsecret.txt" in
  Path.join (uploadDir dirname) name = secret_path
  ∧ inside (uploadDir dirname) secret_path = false
  ∧ (getfile_handler dirname name with_sibling).1
    = Val (End {| status := 200; content := FileContent secret_path |})
  ∧ (app dirname request quiet with_sibling).1
    = Val (Responded {| status := 200; content := FileContent secret_path |}).
Proof. vm_compute. repeat split; reflexivity. Qed.

(** C5, the claim as stated fails: an oversize file of a type that is not
    allowed is turned away by the filter, and the client is answered 500
    "Internal server error", not the size-limit response. *)
Lemma oversize_disallowed_type_gets_500 :
  10 * 1024 * 1024 < payload installer
  ∧ fileFilter installer = Reject "Only image files and 3D models are allowed!"
  ∧ (post_upload dirname (upload_from "10.0.0.7" installer) quiet fresh).1
    = Val (Responded internal_error)
  ∧ status internal_error = 500
  ∧ internal_error ≠ file_too_large.
Proof. vm_compute. repeat split; (reflexivity || discriminate). Qed.

Lemma oversize_upload_rejected_witness :
  10 * 1024 * 1024 < payload poster
  ∧ writable dirname fresh stored_path
  ∧ (post_upload dirname (upload_from "10.0.0.7" poster) quiet fresh).1
    = Val (Responded file_too_large).
Proof.
  assert (H : 10 * 1024 * 1024 < payload poster) by (vm_compute; reflexivity).
  split; [exact H|]. split; [exact fresh_writable|].
  destruct (oversize_upload_rejected dirname (upload_from "10.0.0.7" poster)
              quiet fresh poster eq_refl ltac:(discriminate) eq_refl eq_refl
              H fresh_writable)
    as (w' & Hrun & _).
  rewrite Hrun. reflexivity.
Defined.

(** C6, the claim as stated fails: for [Math.random() = 1 - 2^-31] the
    product rounds to 1000000000, which is outside [[0, 1e9)]. *)
Lemma random_suffix_reaches_1e9 :
  valid_unit (rnd lucky)
  ∧ random_suffix (rnd lucky) = 1000000000
  ∧ ¬ (0 <= random_suffix (rnd lucky) < 10 ^ 9)
  ∧ storage_filename lucky photo = "1700000000000-1000000000.png".
Proof.
  split; [|split; [|split]].
  - unfold valid_unit. simpl. lia.
  - vm_compute. reflexivity.
  - change (random_suffix (rnd lucky)) with 1000000000. lia.
  - vm_compute. reflexivity.
Qed.

Lemma stored_name_format_witness :
  valid_unit (rnd quiet)
  ∧ ∃ random : Z,
      0 <= random <= 10 ^ 9
      ∧ storage_filename quiet photo
        = number_to_string (t_name quiet) +:+ "-" +:+ number_to_string random
          +:+ extname (originalname photo).
Proof.
  assert (H : valid_unit (rnd quiet)) by (unfold valid_unit; simpl; lia).
  split; [exact H|]. exact (stored_name_format quiet photo H).
Defined.

Lemma upload_success_response_witness :
  writable dirname fresh stored_path
  ∧ uploadSessions fresh !! "10.0.0.7" = None
  ∧ (post_upload dirname (upload_from "10.0.0.7" photo) quiet fresh).1
    = Val (Responded
             {| status := 200;
                content :=
                  Json (JObj
                    [ ("success", JBool true);
                      ("filename", JStr "1700000000000-500000000.png");
                      ("originalName", JStr "photo.png");
                      ("size", JNum 2097152);
                      ("mimetype", JStr "image/png");
                      ("url", JStr "/uploads/1700000000000-500000000.png");
                      ("uploadedAt", JStr "2023-11-14T22:13:20.006Z");
                      ("uploadTime", JStr "2ms") ]) |}).
Proof.
  split; [exact fresh_writable|]. split; [reflexivity|].
  destruct (upload_success_response dirname (upload_from "10.0.0.7" photo)
              quiet fresh photo eq_refl ltac:(discriminate) eq_refl eq_refl
              ltac:(vm_compute; reflexivity) fresh_writable eq_refl eq_refl)
    as ((w' & Hrun & _) & _).
  rewrite Hrun. vm_compute. reflexivity.
Defined.

(** C8, the claim as stated fails: two uploads into the empty directory
    both succeed, but they generate the same name, the second overwrites
    the first, and the listing reports a count of 1.  And the request
    [GET /uploads] itself never reaches the listing: the static
    middleware answers it with a redirect. *)
Lemma colliding_names_undercount :
  let out := serve_uploads dirname colliding fresh in
  entries dirname fresh = []
  ∧ length colliding = 2%nat
  ∧ Forall succeeded out.1
  ∧ (∃ files,
       (list_handler dirname quiet out.2).1
       = Val (End (json_response 200
                     (JObj [ ("success", JBool true); ("count", JNum 1);
                             ("files", JArr files) ]))))
  ∧ (app dirname (get "/uploads") quiet out.2).1
    = Val (Responded {| status := 301;
                        content := Html "Redirecting to /uploads/" |}).
Proof.
  split; [vm_compute; reflexivity|]. split; [reflexivity|]. split; [|split].
  - apply succeededb_all. vm_compute. reflexivity.
  - eexists. vm_compute. reflexivity.
  - vm_compute. reflexivity.
Qed.

(** C9, the claim as stated fails.  A preflight request for a path no
    route is registered for is answered 204 by the CORS middleware, a
    [GET] of [/script.js], which no route is registered for either, is
    answered with the file of that name in [public/], and a [POST] of
    [/uploads/a%zz], a path only a [GET] route is registered for, is
    answered 500 because the segment does not decode; none reaches the
    404 handler. *)
Lemma unmatched_requests_answered_before_404 :
  matches_route dirname undecodable = false
  ∧ (app dirname undecodable quiet fresh).1 = Val (Responded internal_error)
  ∧ trace (app dirname undecodable quiet fresh).2
    = [EvEnter LCors; EvEnter LJson; EvEnter LUrlencoded; EvEnter LStatic;
       EvEnter LError]
  ∧ matches_route dirname preflight = false
  ∧ (app dirname preflight quiet fresh).1
    = Val (Responded {| status := 204; content := NoBody |})
  ∧ trace (app dirname preflight quiet fresh).2 = [EvEnter LCors]
  ∧ matches_route dirname (get "/script.js") = false
  ∧ (app dirname (get "/script.js") quiet deployed).1
    = Val (Responded {| status := 200;
                        content := FileContent "/srv/app/public/script.js" |})
  ∧ trace (app dirname (get "/script.js") quiet deployed).2
    = [EvEnter LCors; EvEnter LJson; EvEnter LUrlencoded; EvEnter LStatic].
Proof. vm_compute. repeat split; reflexivity. Qed.

Lemma unmatched_requests_get_404_never_405_witness :
  reaches_router dirname (get "/nowhere") quiet fresh
  ∧ matches_route dirname (get "/nowhere") = false
  ∧ params_decode dirname (get "/nowhere") = true
  ∧ (app dirname (get "/nowhere") quiet fresh).1
    = Val (Responded (route_not_found (get "/nowhere")))
  ∧ reaches_router dirname undecodable quiet fresh
  ∧ params_decode dirname undecodable = false
  ∧ (app dirname undecodable quiet fresh).1 = Val (Responded internal_error).
Proof.
  assert (H1 : reaches_router dirname (get "/nowhere") quiet fresh).
  { repeat split; try discriminate; vm_compute; reflexivity. }
  assert (H2 : matches_route dirname (get "/nowhere") = false)
    by (vm_compute; reflexivity).
  assert (H3 : params_decode dirname (get "/nowhere") = true)
    by (vm_compute; reflexivity).
  assert (H4 : reaches_router dirname undecodable quiet fresh).
  { repeat split; try discriminate; vm_compute; reflexivity. }
  assert (H5 : params_decode dirname undecodable = false)
    by (vm_compute; reflexivity).
  split; [exact H1|]. split; [exact H2|]. split; [exact H3|].
  destruct (unmatched_requests_get_404_never_405 dirname
              (get "/nowhere") quiet fresh) as (_ & Hget & _).
  destruct (Hget H1 H2 H3) as [Hrun _].
  split; [rewrite Hrun; reflexivity|].
  split; [exact H4|]. split; [exact H5|].
  destruct (unmatched_requests_get_404_never_405 dirname
              undecodable quiet fresh) as (_ & _ & Hpost).
  destruct (Hpost H4 H5) as [_ Hrun'].
  rewrite Hrun'. reflexivity.
Defined.

Lemma listing_crashes_on_vanished_entry_witness :
  let w := (post_upload dirname (upload_from "10.0.0.7" photo) quiet fresh).2 in
  directory_ready dirname w
  ∧ "1700000000000-500000000.png" ∈ entries dirname w
  ∧ (list_handler dirname sweeping w).1 = Val (Crash (SystemError "ENOENT")).
Proof.
  intros w.
  assert (Hready : directory_ready dirname w)
    by (exists directory; split; vm_compute; reflexivity).
  assert (Hin : "1700000000000-500000000.png" ∈ entries dirname w).
  { apply list_elem_of_In. vm_compute. left. reflexivity. }
  split; [exact Hready|]. split; [exact Hin|].
  destruct (listing_crashes_on_vanished_entry dirname sweeping w
              "1700000000000-500000000.png" Hready Hin
              ltac:(vm_compute; reflexivity))
    as (w' & Hrun & _).
  rewrite Hrun. reflexivity.
Defined.

End Runs.

(* ===================================================================== *)
(** * [POST /upload]: the failure paths, the gate, the files touched *)
(* ===================================================================== *)

Section UploadOutcomes.
Import Str Path Http Server Express App JS.
Variable d : string.

Lemma upload_single_unnamed (req : request) (e : env) (w : world) :
  (∀ file, req_part req = Some file → originalname file = "") →
  upload_single d "file" req e w = (Val (Parsed None), w).
Proof.
  intros H. unfold upload_single.
  destruct (req_part req) as [file|]; [|reflexivity].
  rewrite (H file eq_refl). reflexivity.
Qed.

Lemma upload_single_unexpected (req : request) (e : env) (w : world)
    (file : file_part) :
  req_part req = Some file → originalname file ≠ "" →
  fieldname file ≠ "file" →
  upload_single d "file" req e w
  = (Throw (MulterError LIMIT_UNEXPECTED_FILE
              (multer_text e LIMIT_UNEXPECTED_FILE)), w).
Proof.
  intros Hpart Hname Hfield. apply eqb_false in Hname.
  apply String.eqb_neq in Hfield.
  unfold upload_single. rewrite Hpart, Hname, Hfield. reflexivity.
Qed.

(** X1.  A file that [fileFilter] turns away is answered with status 500
    and the message "Internal server error": the filter's own message
    never reaches the client, nothing is written, and the gate is not
    consulted. *)
Theorem rejected_type_answered_500 (req : request) (e : env) (w : world)
    (file : file_part) :
  req_part req = Some file →
  originalname file ≠ "" →
  fieldname file = "file" →
  fileFilter file ≠ Accept →
  post_upload d req e w
  = (Val (Responded
            {| status := 500;
               content :=
                 Json (JObj [ ("success", JBool false);
                              ("error", JStr "Internal server error") ]) |}),
     {| uploadSessions := uploadSessions w;
        fs := fs w;
        trace := trace w ++ [EvFilter (originalname file)] |}).
Proof.
  intros Hpart Hname Hfield Hfilter.
  destruct (fileFilter file) as [|message] eqn:E; [contradiction|].
  apply (post_upload_multer_error d req e w _ (PlainError message)).
  apply (upload_single_rejected d req e w file message); assumption.
Qed.

(** X2.  An upload request that carries no file, or a file part without a
    file name, from a client without a gate entry is answered with status
    400 and "No file uploaded or invalid file type"; the gate is taken and
    given back, and no file is touched. *)
Theorem upload_without_file_answered_400 (req : request) (e : env)
    (w : world) :
  (∀ file, req_part req = Some file → originalname file = "") →
  uploadSessions w !! req_ip req = None →
  post_upload d req e w
  = (Val (Responded
            {| status := 400;
               content :=
                 Json (JObj [ ("success", JBool false);
                              ("error",
                               JStr "No file uploaded or invalid file type") ]) |}),
     {| uploadSessions := uploadSessions w;
        fs := fs w;
        trace := trace w ++ [ EvHas (req_ip req); EvSet (req_ip req);
                              EvDelete (req_ip req) ] |}).
Proof.
  intros Hpart Hfree.
  apply (post_upload_handler_end d req e w w _ None).
  - apply upload_single_unnamed. exact Hpart.
  - apply upload_handler_no_file. exact Hfree.
Qed.

(** X3.  A file sent under a field name other than [file] is answered
    with status 400 and "Upload error: " followed by the message the
    installed release of multer gives its [LIMIT_UNEXPECTED_FILE] error;
    the filter is not asked, nothing is written and the gate is not
    consulted. *)
Theorem unexpected_field_answered_400 (req : request) (e : env) (w : world)
    (file : file_part) :
  req_part req = Some file →
  originalname file ≠ "" →
  fieldname file ≠ "file" →
  post_upload d req e w
  = (Val (Responded
            {| status := 400;
               content :=
                 Json (JObj [ ("success", JBool false);
                              ("error",
                               JStr ("Upload error: "
                                     +:+ multer_text e LIMIT_UNEXPECTED_FILE)) ]) |}),
     w).
Proof.
  intros Hpart Hname Hfield.
  apply (post_upload_multer_error d req e w w
           (MulterError LIMIT_UNEXPECTED_FILE
              (multer_text e LIMIT_UNEXPECTED_FILE))).
  apply (upload_single_unexpected req e w file); assumption.
Qed.

Lemma upload_handler_sessions (req : request) (f : option stored_file)
    (e : env) (w : world) :
  unlinked_before_stat e = false →
  uploadSessions (upload_handler d req f e w).2 = uploadSessions w.
Proof.
  intros Hquiet.
  destruct (uploadSessions w !! req_ip req) as [sid|] eqn:Hs.
  - rewrite upload_handler_duplicate by eauto. reflexivity.
  - destruct f as [f|].
    + rewrite upload_handler_file by assumption. reflexivity.
    + rewrite upload_handler_no_file by assumption. reflexivity.
Qed.

Lemma post_upload_gate (req : request) (e : env) (w : world) :
  unlinked_before_stat e = false →
  uploadSessions (post_upload d req e w).2 = uploadSessions w.
Proof.
  intros Hquiet. rewrite post_upload_world. unfold upload_route. run_m.
  destruct (upload_single_events d req e w) as (_ & _ & _ & Hs).
  destruct (upload_single d "file" req e w) as [[[f|x]|x] w1]; simpl in *;
    [|exact Hs|exact Hs].
  rewrite upload_handler_sessions by exact Hquiet. exact Hs.
Qed.

(** X4.  Whatever the request and whatever the state of the gate, when no
    outside process removes the stored file under the handler's feet the
    request leaves the session map exactly as it found it. *)
Theorem gate_left_as_found (req : request) (e : env) (w : world) :
  unlinked_before_stat e = false →
  uploadSessions (post_upload d req e w).2 = uploadSessions w.
Proof. apply post_upload_gate. Qed.



Lemma upload_handler_frame (req : request) (f : option stored_file)
    (e : env) (w : world) (k : string) :
  (∀ sf, f = Some sf → k ≠ Path.join (uploadDir d) (file_filename sf)) →
  fs (upload_handler d req f e w).2 !! k = fs w !! k.
Proof.
  intros Hk.
  destruct (uploadSessions w !! req_ip req) as [sid|] eqn:Hs.
  - rewrite upload_handler_duplicate by eauto. reflexivity.
  - destruct f as [sf|].
    + destruct (unlinked_before_stat e) eqn:Hq.
      * destruct (fs w !! Path.join (uploadDir d) (file_filename sf)) as [st|] eqn:E.
        -- rewrite upload_handler_throws by eauto. simpl.
           apply lookup_delete_ne. intros H. exact (Hk sf eq_refl (eq_sym H)).
        -- unfold upload_handler, sessions_has, sessions_set, sessions_delete,
             fs_existsSync. run_m.
           rewrite bool_decide_eq_false_2 by (rewrite Hs; apply is_Some_None).
           simpl. rewrite E.
           rewrite bool_decide_eq_false_2 by apply is_Some_None.
           reflexivity.
      * rewrite upload_handler_file by assumption. reflexivity.
    + rewrite upload_handler_no_file by assumption. reflexivity.
Qed.

(** X6.  A request changes no file other than the one multer stores for
    it: every other path of the file system holds after the request what
    it held before, whether the upload succeeds, is refused or fails, and
    even when an outside process interferes. *)
Theorem upload_changes_only_its_file (req : request) (e : env) (w : world)
    (k : string) :
  (∀ file, req_part req = Some file →
           k ≠ Path.join (uploadDir d) (storage_filename e file)) →
  fs (post_upload d req e w).2 !! k = fs w !! k.
Proof.
  intros Hk. rewrite post_upload_world. unfold upload_route. run_m.
  pose proof (upload_single_frame d req e w k Hk) as Hm.
  destruct (upload_single d "file" req e w) as [[[f|x]|x] w1] eqn:Hs;
    simpl in *; [|exact Hm|exact Hm].
  rewrite upload_handler_frame; [exact Hm|].
  intros sf ->.
  destruct (upload_single_Some_inv d req e w w1 sf Hs) as (file & Hpart & -> & _).
  simpl. apply Hk. exact Hpart.
Qed.

End UploadOutcomes.

(* ===================================================================== *)
(** * Where an upload is stored, and when two stored names coincide *)
(* ===================================================================== *)

Section StoredNameFacts.
Import Str Path Http Server Express App JS Digits.

Lemma starts_with_app (p s : string) : starts_with p (p +:+ s) = true.
Proof.
  induction p as [|c p IH]; [reflexivity|].
  simpl. rewrite Ascii.eqb_refl. exact IH.
Qed.

(** X7.  Whatever name the client gave the file, multer stores it
    directly inside the upload directory: the stored path is the upload
    directory, one separator, and a generated name that holds no
    separator and is neither ["."] nor [".."]. *)
Theorem stored_path_inside_upload_dir (d : string) (e : env)
    (file : file_part) :
  isAbsolute d = true →
  file_path (stored_as d e file)
  = uploadDir d +:+ "/" +:+ storage_filename e file
  ∧ has_slash (storage_filename e file) = false
  ∧ storage_filename e file ≠ ".."
  ∧ inside (uploadDir d) (file_path (stored_as d e file)) = true
  ∧ child_of (uploadDir d) (file_path (stored_as d e file))
    = Some (storage_filename e file).
Proof.
  intros Habs.
  pose proof (storage_filename_ordinary e file) as Hord.
  assert (Hpath : file_path (stored_as d e file)
                  = uploadDir d +:+ "/" +:+ storage_filename e file).
  { simpl. apply join_uploadDir; assumption. }
  rewrite Hpath. split; [reflexivity|].
  split; [apply Hord|]. split; [apply Hord|]. split.
  - unfold inside. rewrite <- append_assoc, starts_with_app. apply orb_true_r.
  - apply child_of_Some. auto.
Qed.

Lemma all_chars_app (P : ascii → bool) (a b : string) :
  all_chars P (a +:+ b) = all_chars P a && all_chars P b.
Proof.
  induction a as [|c a IH]; simpl; [reflexivity|].
  rewrite IH. apply andb_assoc.
Qed.

Lemma pretty_N_go_all (P : ascii → bool) (x : N) (s : string) :
  (∀ n, P (pretty_N_char n) = true) →
  all_chars P s = true → all_chars P (pretty_N_go x s) = true.
Proof.
  intros HP. revert s. induction (N.lt_wf_0 x) as [x _ IH]. intros s Hs.
  destruct (decide (x = 0)%N) as [->|Hx].
  - rewrite pretty_N_go_0. exact Hs.
  - rewrite pretty_N_go_step by lia. apply IH.
    + apply N.div_lt; lia.
    + simpl. rewrite HP. exact Hs.
Qed.

Lemma pretty_N_all (P : ascii → bool) (x : N) :
  (∀ n, P (pretty_N_char n) = true) → all_chars P (pretty x) = true.
Proof.
  intros HP. unfold pretty, pretty_N. case_decide.
  - pose proof (HP 0%N) as H0. simpl in *. rewrite H0. reflexivity.
  - apply pretty_N_go_all; [exact HP | reflexivity].
Qed.

(** A non-negative integer prints as decimal digits only. *)
Lemma number_to_string_digits (z : Z) :
  0 <= z → all_chars digit (number_to_string z) = true.
Proof.
  intros Hz.
  assert (HP : ∀ n, digit (pretty_N_char n) = true).
  { intros n. unfold pretty_N_char. repeat case_match; reflexivity. }
  unfold number_to_string, pretty, pretty_Z.
  destruct z as [|p|p]; [reflexivity | apply (pretty_N_all _ _ HP) | lia].
Qed.

(** A run of digits followed by something that does not start with a
    digit can be read back in one way only. *)
Lemma digits_span (a b c c' : string) :
  all_chars digit a = true → all_chars digit b = true →
  starts_without_digit c = true → starts_without_digit c' = true →
  a +:+ c = b +:+ c' → a = b ∧ c = c'.
Proof.
  revert b. induction a as [|x a IH]; intros b Ha Hb Hc Hc' Heq.
  - destruct b as [|y b]; [auto|]. simpl in *.
    apply andb_true_iff in Hb as [Hy _]. subst c.
    simpl in Hc. rewrite Hy in Hc. discriminate.
  - destruct b as [|y b]; simpl in *.
    + apply andb_true_iff in Ha as [Hx _]. subst c'.
      simpl in Hc'. rewrite Hx in Hc'. discriminate.
    + apply andb_true_iff in Ha as [_ Ha]. apply andb_true_iff in Hb as [_ Hb].
      injection Heq as -> Heq.
      destruct (IH b Ha Hb Hc Hc' Heq) as [-> ->]. auto.
Qed.

Lemma extname_starts_without_digit (p : string) :
  starts_without_digit (extname p) = true.
Proof.
  unfold extname. destruct (split_dot _) as [[rext rpre]|]; [|reflexivity].
  destruct rpre as [|c [|c' rpre']]; [reflexivity | | reflexivity].
  destruct rext; [|reflexivity]. destruct (is_dot c); reflexivity.
Qed.

(** X8.  Two uploads are stored under the same name exactly when they
    read the same millisecond, draw the same random integer and carry
    the same extension: no two of the three parts of a name can run into
    each other. *)
Theorem stored_names_equal_iff (e1 e2 : env) (f1 f2 : file_part) :
  0 <= t_name e1 → 0 <= t_name e2 →
  valid_unit (rnd e1) → valid_unit (rnd e2) →
  storage_filename e1 f1 = storage_filename e2 f2
  ↔ t_name e1 = t_name e2
    ∧ random_suffix (rnd e1) = random_suffix (rnd e2)
    ∧ extname (originalname f1) = extname (originalname f2).
Proof.
  intros Ht1 Ht2 Hv1 Hv2. unfold storage_filename. split.
  - intros Heq.
    apply digits_span in Heq as [Ht Hrest];
      [| (apply number_to_string_digits; assumption) ..
       | reflexivity | reflexivity].
    injection Hrest as Hrest.
    apply digits_span in Hrest as [Hr Hext];
      [| apply number_to_string_digits; apply random_suffix_range; assumption
       | apply number_to_string_digits; apply random_suffix_range; assumption
       | apply extname_starts_without_digit
       | apply extname_starts_without_digit].
    unfold number_to_string in Ht, Hr.
    apply (inj pretty) in Ht. apply (inj pretty) in Hr. auto.
  - intros (-> & -> & ->). reflexivity.
Qed.

End StoredNameFacts.

(* ===================================================================== *)
(** * [GET /uploads]: every outcome of the listing *)
(* ===================================================================== *)

Section ListingOutcomes.
Import Str Path Http Server Express App JS.
Variable d : string.

Lemma directory_ready_dec (w : world) :
  directory_ready d w ∨ ¬ directory_ready d w.
Proof.
  unfold directory_ready.
  destruct (fs w !! uploadDir d) as [st|] eqn:E.
  - destruct (st_isDirectory st) eqn:Hd.
    + left. eauto.
    + right. intros (st' & Hst & Hd'). congruence.
  - right. intros (st' & Hst & _). congruence.
Qed.

Lemma list_handler_not_ready (e : env) (w : world) :
  ¬ directory_ready d w →
  list_handler d e w
  = (Val (End list_failure),
     with_fs (λ m, foldr delete m (unlinked_after_scan e)) w).
Proof.
  intros Hn. unfold list_handler. run_m.
  rewrite (fs_readdir_not_ready _ _ Hn). reflexivity.
Qed.

Lemma list_handler_ready (e : env) (w : world) :
  directory_ready d w →
  list_handler d e w
  = uncaught (list_callback d (Some (entries d w)))
      (with_fs (λ m, foldr delete m (unlinked_after_scan e)) w).
Proof.
  intros Hready. unfold list_handler. run_m.
  rewrite (fs_readdir_ready _ _ Hready). reflexivity.
Qed.

(** X9.  When the upload directory is missing, or is not a directory, the
    listing is answered with status 500 and "Failed to read uploads
    directory"; the server changes nothing. *)
Theorem listing_without_directory_answered_500 (e : env) (w : world) :
  ¬ directory_ready d w →
  list_handler d e w
  = (Val (End {| status := 500;
                 content :=
                   Json (JObj [ ("success", JBool false);
                                ("error",
                                 JStr "Failed to read uploads directory") ]) |}),
     {| uploadSessions := uploadSessions w;
        fs := foldr delete (fs w) (unlinked_after_scan e);
        trace := trace w |}).
Proof.
  intros Hn. unfold list_handler. run_m.
  rewrite (fs_readdir_not_ready _ _ Hn). reflexivity.
Qed.

(** X10.  The listing brings the process down exactly when the directory
    was scanned and one of the scanned entries is gone by the time its
    size is asked for; in every other case the handler returns a
    response. *)
Theorem listing_crashes_iff_entry_vanished (e : env) (w : world) :
  (list_handler d e w).1 = Val (Crash (SystemError "ENOENT"))
  ↔ directory_ready d w
    ∧ ∃ name, name ∈ entries d w
              ∧ foldr delete (fs w) (unlinked_after_scan e)
                  !! Path.join (uploadDir d) name = None.
Proof.
  split.
  - intros Hcrash. destruct (directory_ready_dec w) as [Hready|Hn].
    + split; [exact Hready|].
      rewrite (list_handler_ready _ _ Hready) in Hcrash.
      set (w1 := with_fs (λ m, foldr delete m (unlinked_after_scan e)) w) in *.
      destruct (decide (Forall (λ name, is_Some (fs w1 !! Path.join (uploadDir d) name))
                          (entries d w))) as [Hall|Hsome].
      * exfalso. revert Hcrash. unfold uncaught, list_callback. run_m.
        rewrite mapM_stat_ok; [discriminate|].
        intros name Hin. rewrite Forall_forall in Hall. apply Hall. exact Hin.
      * apply not_Forall_Exists in Hsome; [|intros; apply _].
        apply Exists_exists in Hsome as (name & Hin & Hgone).
        exists name. split; [exact Hin|].
        apply eq_None_not_Some. exact Hgone.
    + rewrite (list_handler_not_ready _ _ Hn) in Hcrash. discriminate.
  - intros (Hready & name & Hin & Hgone).
    rewrite (list_handler_ready _ _ Hready).
    unfold uncaught, list_callback. run_m.
    erewrite mapM_stat_fail; [reflexivity | exact Hin | exact Hgone].
Qed.

End ListingOutcomes.

(* ===================================================================== *)
(** * An upload, then the listing and the retrieval of the stored file *)
(* ===================================================================== *)

Section RoundTrips.
Import Str Path Http Server Express App JS.
Variable d : string.
Hypothesis Habs : isAbsolute d = true.

(** X11.  After a request that was answered 200, a listing that nobody
    disturbs holds the record of the stored file: its generated name, the
    URL ["/uploads/"] followed by that name, and the number of bytes
    uploaded. *)
Theorem upload_then_listed (req : request) (e e' : env) (w : world) :
  succeeded (post_upload d req e w).1 →
  unlinked_after_scan e' = [] →
  ∃ file files,
    req_part req = Some file
    ∧ (list_handler d e' (post_upload d req e w).2).1
      = Val (End {| status := 200;
                    content :=
                      Json (JObj [ ("success", JBool true);
                                   ("count", JNum (Z.of_nat (length files)));
                                   ("files", JArr files) ]) |})
    ∧ In (JObj [ ("name", JStr (storage_filename e file));
                 ("url", JStr ("/uploads/" +:+ storage_filename e file));
                 ("size", JNum (payload file)) ]) files.
Proof.
  intros Hok Hquiet.
  destruct (post_upload_success_inv d Habs req e w Hok)
    as (file & Hpart & Hfs & Hready & _).
  set (w1 := (post_upload d req e w).2) in *.
  pose proof (storage_filename_ordinary e file) as Hord.
  pose proof (directory_ready_insert d w1 w _ _ Hfs Hready) as Hready1.
  exists file,
    (map (λ name, list_entry name (entry_size d w1 name)) (entries d w1)).
  split; [exact Hpart|]. split.
  - rewrite (list_handler_quiet d e' w1 Habs Hready1 Hquiet).
    rewrite length_map. reflexivity.
  - apply in_map_iff. exists (storage_filename e file). split.
    + unfold list_entry, entry_size. rewrite Hfs, lookup_insert_eq. reflexivity.
    + apply list_elem_of_In. apply elem_of_entries. split; [exact Hord|].
      rewrite Hfs, lookup_insert_eq. eauto.
Qed.

Lemma is_dotfile_ordinary_head (s : string) :
  ordinary_head s → is_dotfile s = false.
Proof.
  intros (c & rest & -> & Hc). simpl. destruct rest; [reflexivity | exact Hc].
Qed.

Lemma containsDotFile_child (dir name : string) :
  has_slash name = false →
  containsDotFile (dir +:+ "/" +:+ name)
  = containsDotFile dir || is_dotfile name.
Proof.
  intros Hname. unfold containsDotFile.
  change ("/" +:+ name) with (String slash name).
  rewrite split_slash_app, existsb_app, (split_slash_no_slash _ Hname).
  simpl. rewrite orb_false_r. reflexivity.
Qed.

(** X12.  After a request that was answered 200, the retrieval handler
    called with the generated name sends the stored file, provided no
    directory on the way to the upload directory is a dot-directory
    (which [res.sendFile] refuses to serve from). *)
Theorem upload_then_retrievable (req : request) (e : env) (w : world) :
  containsDotFile (uploadDir d) = false →
  succeeded (post_upload d req e w).1 →
  ∃ file,
    req_part req = Some file
    ∧ getfile_handler d (storage_filename e file) (post_upload d req e w).2
      = (Val (End {| status := 200;
                     content :=
                       FileContent (uploadDir d +:+ "/"
                                    +:+ storage_filename e file) |}),
         (post_upload d req e w).2).
Proof.
  intros Hdots Hok.
  destruct (post_upload_success_inv d Habs req e w Hok)
    as (file & Hpart & Hfs & _).
  set (w1 := (post_upload d req e w).2) in *.
  pose proof (storage_filename_ordinary e file) as Hord.
  exists file. split; [exact Hpart|].
  unfold getfile_handler, fs_existsSync, res_sendFile. run_m.
  rewrite (join_uploadDir d _ Habs Hord), starts_with_app. cbn [negb].
  cbv beta. rewrite Hfs, lookup_insert_eq.
  rewrite bool_decide_eq_true_2 by eauto. cbn [negb].
  rewrite containsDotFile_child by apply Hord. rewrite Hdots.
  rewrite is_dotfile_ordinary_head;
    [cbn [orb]; rewrite Hfs, lookup_insert_eq; reflexivity|].
  unfold storage_filename.
  destruct (number_to_string_plain (t_name e)) as [Ht Htne].
  apply plain_first_char; assumption.
Qed.

End RoundTrips.

Section RetrievalGuarantee.
Import Str Path Http Server Express App JS.
Variable d : string.

(** X13.  The retrieval handler never changes the state of the server,
    and whenever it sends a file, that file is the join of the upload
    directory and the requested name, its path starts with the text of
    the upload directory, it exists, it is no directory, and no component
    of its path is a dotfile. *)
Theorem getfile_sends_only_checked_files (filename : string) (w : world) :
  (getfile_handler d filename w).2 = w
  ∧ ∀ p, (getfile_handler d filename w).1
         = Val (End {| status := 200; content := FileContent p |}) →
         p = Path.join (uploadDir d) filename
         ∧ starts_with (uploadDir d) p = true
         ∧ containsDotFile p = false
         ∧ ∃ st, fs w !! p = Some st ∧ st_isDirectory st = false.
Proof.
  unfold getfile_handler, fs_existsSync, res_sendFile. run_m.
  destruct (starts_with (uploadDir d) (Path.join (uploadDir d) filename)) eqn:Hpre;
    cbn [negb]; [|split; [reflexivity | intros p H; discriminate]].
  cbv beta.
  destruct (fs w !! Path.join (uploadDir d) filename) as [st|] eqn:Hst.
  - rewrite bool_decide_eq_true_2 by eauto. cbn [negb].
    destruct (containsDotFile _) eqn:Hdot;
      [split; [reflexivity | intros p H; discriminate]|].
    rewrite ?Hst.
    destruct (st_isDirectory st) eqn:Hdir;
      [split; [reflexivity | intros p H; discriminate]|].
    split; [reflexivity|]. intros p H. simpl in H. injection H as <-.
    rewrite Hst. eauto 6.
  - rewrite bool_decide_eq_false_2 by apply is_Some_None. cbn [negb].
    split; [reflexivity | intros p H; discriminate].
Qed.

End RetrievalGuarantee.

(* ===================================================================== *)
(** * Process start *)
(* ===================================================================== *)

Section ProcessStart.
Import Str Path Http Server Express App JS Startup.
Variable d : string.

Lemma prefixes_from_full (base : string) (segs : list string) :
  segs ≠ [] →
  base +:+ "/" +:+ join_slash segs ∈ prefixes_from base segs.
Proof.
  revert base. induction segs as [|seg rest IH]; [contradiction|].
  intros base _. destruct rest as [|seg' rest'].
  - left.
  - cbn [prefixes_from]. right.
    change (join_slash (seg :: seg' :: rest'))
      with (seg +:+ String slash (join_slash (seg' :: rest'))).
    change (String slash (join_slash (seg' :: rest')))
      with ("/" +:+ join_slash (seg' :: rest')).
    replace (base +:+ "/" +:+ seg +:+ "/" +:+ join_slash (seg' :: rest'))
      with ((base +:+ "/" +:+ seg) +:+ "/" +:+ join_slash (seg' :: rest')).
    + apply IH. discriminate.
    + rewrite <- !append_assoc. reflexivity.
Qed.

Lemma length_append (a b : string) :
  String.length (a +:+ b) = (String.length a + String.length b)%nat.
Proof. induction a as [|c a IH]; simpl; [reflexivity | rewrite IH; reflexivity]. Qed.

Lemma prefixes_from_length (base : string) (segs : list string) (a : string) :
  a ∈ prefixes_from base segs →
  (String.length a <= String.length (base +:+ "/" +:+ join_slash segs))%nat.
Proof.
  revert base. induction segs as [|seg rest IH]; intros base Hin;
    [inversion Hin|].
  cbn [prefixes_from] in Hin. apply elem_of_cons in Hin as [->|Hin].
  - destruct rest as [|seg' rest'].
    + reflexivity.
    + change (join_slash (seg :: seg' :: rest'))
        with (seg +:+ String slash (join_slash (seg' :: rest'))).
      rewrite !length_append. lia.
  - destruct rest as [|seg' rest']; [inversion Hin|]. apply IH in Hin.
    change (join_slash (seg :: seg' :: rest'))
      with (seg +:+ String slash (join_slash (seg' :: rest'))).
    change (String slash (join_slash (seg' :: rest')))
      with ("/" +:+ join_slash (seg' :: rest')).
    rewrite !length_append in *. lia.
Qed.

Lemma filter_ordinary (segs : list string) :
  Forall ordinary segs →
  List.filter (λ seg, negb (eqb seg "")) segs = segs.
Proof.
  induction 1 as [|seg rest Hseg _ IH]; [reflexivity|].
  simpl. destruct Hseg as [Hne _]. apply eqb_false in Hne.
  rewrite Hne, IH. reflexivity.
Qed.

(** The directories on the way to [uploadDir] end with [uploadDir], and
    none of them is longer. *)
Lemma ancestors_uploadDir :
  isAbsolute d = true →
  uploadDir d ∈ ancestors (uploadDir d)
  ∧ ∀ a, a ∈ ancestors (uploadDir d) →
         (String.length a <= String.length (uploadDir d))%nat.
Proof.
  intros Habs.
  destruct (uploadDir_shape d Habs) as (segs & Hne & Hord & HU).
  assert (Hslash : Forall (λ seg, has_slash seg = false) segs).
  { eapply Forall_impl; [exact Hord|]. intros seg Hseg. apply Hseg. }
  assert (Hanc : ancestors (uploadDir d) = prefixes_from "" segs).
  { unfold ancestors. rewrite HU.
    change ("/" +:+ join_slash segs) with ("" +:+ String slash (join_slash segs)).
    rewrite split_slash_app, split_join_slash by assumption.
    change (split_slash "") with [""]. simpl.
    rewrite filter_ordinary by exact Hord. reflexivity. }
  rewrite Hanc, HU. split.
  - apply (prefixes_from_full "" segs Hne).
  - intros a Hin. apply (prefixes_from_length "" segs a Hin).
Qed.

Lemma find_none_all {A} (f : A → bool) (l : list A) :
  (∀ x, x ∈ l → f x = false) → List.find f l = None.
Proof.
  induction l as [|x l IH]; intros H; [reflexivity|].
  simpl. rewrite (H x) by left. apply IH. intros y Hy. apply H. right. exact Hy.
Qed.

Lemma make_missing_lookup (node : stats) (l : list string)
    (m : gmap string stats) (k : string) :
  foldr (make_missing node) m l !! k
  = match m !! k with
    | Some st => Some st
    | None => if bool_decide (k ∈ l) then Some node else None
    end.
Proof.
  induction l as [|a l IH]; simpl.
  - destruct (m !! k); reflexivity.
  - unfold make_missing at 1.
    destruct (decide (k = a)) as [->|Hne].
    + rewrite (bool_decide_eq_true_2 (a ∈ a :: l)) by left.
      destruct (foldr (make_missing node) m l !! a) as [s|] eqn:E.
      * rewrite E. destruct (m !! a); [exact IH|].
        destruct (bool_decide (a ∈ l)); [exact IH | discriminate].
      * rewrite lookup_insert_eq.
        destruct (m !! a); [discriminate | reflexivity].
    + assert (Hin : bool_decide (k ∈ a :: l) = bool_decide (k ∈ l)).
      { apply bool_decide_ext. rewrite elem_of_cons. tauto. }
      rewrite Hin.
      destruct (foldr (make_missing node) m l !! a);
        rewrite ?lookup_insert_ne by congruence; exact IH.
Qed.

(** What [startup] does when nothing is in the way. *)
Lemma startup_run (size : Z) (w : world) :
  (∀ a st, a ∈ ancestors (uploadDir d) → fs w !! a = Some st →
           st_isDirectory st = true) →
  startup d size w
  = (Val tt,
     if bool_decide (is_Some (fs w !! uploadDir d)) then w
     else with_fs (λ files,
                     foldr (make_missing (new_directory size)) files
                       (ancestors (uploadDir d))) w).
Proof.
  intros Hclear. unfold startup, fs_existsSync. run_m.
  destruct (bool_decide (is_Some (fs w !! uploadDir d))); [reflexivity|].
  cbn [negb]. unfold fs_mkdirSync_recursive.
  rewrite find_none_all; [reflexivity|].
  intros a Hin. unfold regular_file_at.
  destruct (fs w !! a) as [st|] eqn:E; [|reflexivity].
  rewrite (Hclear a st Hin E). reflexivity.
Qed.

Lemma startup_prepares (size : Z) (w : world) :
  isAbsolute d = true →
  (∀ a st, a ∈ ancestors (uploadDir d) → fs w !! a = Some st →
           st_isDirectory st = true) →
  ∃ w',
    startup d size w = (Val tt, w')
    ∧ directory_ready d w'
    ∧ uploadSessions w' = uploadSessions w
    ∧ (∀ k st, fs w !! k = Some st → fs w' !! k = Some st)
    ∧ (∀ k, k ∉ ancestors (uploadDir d) → fs w' !! k = fs w !! k).
Proof.
  intros Habs Hclear. rewrite (startup_run size w Hclear).
  destruct (ancestors_uploadDir Habs) as [HU _].
  eexists. split; [reflexivity|].
  destruct (fs w !! uploadDir d) as [st|] eqn:E.
  - rewrite bool_decide_eq_true_2 by eauto.
    split; [|auto]. exists st. split; [exact E|]. exact (Hclear _ _ HU E).
  - rewrite bool_decide_eq_false_2 by apply is_Some_None.
    split; [|split; [reflexivity|split]].
    + exists (new_directory size). split; [|reflexivity].
      simpl. rewrite make_missing_lookup, E.
      rewrite bool_decide_eq_true_2 by exact HU. reflexivity.
    + intros k st Hk. simpl. rewrite make_missing_lookup, Hk. reflexivity.
    + intros k Hk. simpl. rewrite make_missing_lookup.
      destruct (fs w !! k); [reflexivity|].
      rewrite bool_decide_eq_false_2 by exact Hk. reflexivity.
Qed.

(** X14.  When no regular file sits on the way to the upload directory,
    the start-up code returns normally and leaves the upload directory in
    place as a directory; it keeps every file and directory that was
    there, creates nothing outside the way to the upload directory, and
    does not touch the session map. *)
Theorem startup_prepares_directory (size : Z) (w : world) :
  isAbsolute d = true →
  (∀ a st, a ∈ ancestors (uploadDir d) → fs w !! a = Some st →
           st_isDirectory st = true) →
  ∃ w',
    startup d size w = (Val tt, w')
    ∧ directory_ready d w'
    ∧ uploadSessions w' = uploadSessions w
    ∧ (∀ k st, fs w !! k = Some st → fs w' !! k = Some st)
    ∧ (∀ k, k ∉ ancestors (uploadDir d) → fs w' !! k = fs w !! k).
Proof. apply startup_prepares. Qed.

(** X15.  Running the start-up code again after it returned changes
    nothing: once the path of the upload directory exists, the code
    leaves the file system alone. *)
Theorem startup_again_changes_nothing (size size' : Z) (w w' : world) :
  isAbsolute d = true →
  startup d size w = (Val tt, w') →
  startup d size' w' = (Val tt, w').
Proof.
  intros Habs Hrun.
  assert (Hpresent : is_Some (fs w' !! uploadDir d)).
  { revert Hrun. unfold startup, fs_existsSync. run_m.
    destruct (bool_decide (is_Some (fs w !! uploadDir d))) eqn:Hex; cbn [negb].
    - intros H. injection H as <-. apply bool_decide_eq_true_1 in Hex. exact Hex.
    - unfold fs_mkdirSync_recursive.
      destruct (List.find _ _); [discriminate|].
      intros H. injection H as <-. simpl. rewrite make_missing_lookup.
      destruct (fs w !! uploadDir d); [eauto|].
      destruct (ancestors_uploadDir Habs) as [HU _].
      rewrite bool_decide_eq_true_2 by exact HU. eauto. }
  unfold startup, fs_existsSync. run_m.
  rewrite bool_decide_eq_true_2 by exact Hpresent. reflexivity.
Qed.

(** X16.  When the upload directory is missing and a regular file sits on
    the way to it, the start-up code throws [ENOTDIR] while the module
    loads, and creates nothing. *)
Theorem startup_fails_on_file_in_the_way (size : Z) (w : world)
    (a : string) (st : stats) :
  fs w !! uploadDir d = None →
  a ∈ ancestors (uploadDir d) →
  fs w !! a = Some st → st_isDirectory st = false →
  startup d size w = (Throw (SystemError "ENOTDIR"), w).
Proof.
  intros Hmissing Hin Ha Hfile. unfold startup, fs_existsSync. run_m.
  rewrite Hmissing. rewrite bool_decide_eq_false_2 by apply is_Some_None.
  cbn [negb]. unfold fs_mkdirSync_recursive.
  destruct (List.find _ _) as [b|] eqn:E.
  - apply List.find_some in E as [_ Hb]. unfold regular_file_at in Hb.
    destruct (eqb b (uploadDir d)) eqn:Heq; [|reflexivity].
    apply String.eqb_eq in Heq. subst b. rewrite Hmissing in Hb. discriminate.
  - exfalso. apply list_elem_of_In in Hin.
    pose proof (List.find_none _ _ E a Hin) as Hfalse.
    unfold regular_file_at in Hfalse. rewrite Ha, Hfile in Hfalse. discriminate.
Qed.

Lemma post_upload_not_ready (req : request) (e : env) (w : world)
    (file : file_part) :
  ¬ directory_ready d w →
  req_part req = Some file → originalname file ≠ "" →
  fieldname file = "file" → fileFilter file = Accept →
  has_nul (Path.join (uploadDir d) (storage_filename e file)) = false →
  post_upload d req e w
  = (Val (Responded internal_error), with_event (EvFilter (originalname file)) w).
Proof.
  intros Hn Hpart Hname Hfield Hfilter Hnul.
  destruct (upload_single_open_fails d req e w file Hpart Hname Hfield
              Hfilter Hnul) as (code & Hopen).
  - intros (Hready & _). exact (Hn Hready).
  - exact (post_upload_multer_error d req e w _ _ Hopen).
Qed.

(** X17.  Without an upload directory (it was removed after start-up, or
    a regular file has its name) an upload that passes the filter, and
    whose storage path holds no NUL byte, is answered with status 500 and
    "Internal server error", whatever its size; nothing is written and
    the gate is not consulted. *)
Theorem upload_without_directory_answered_500 (req : request) (e : env)
    (w : world) (file : file_part) :
  ¬ directory_ready d w →
  req_part req = Some file →
  originalname file ≠ "" →
  fieldname file = "file" →
  fileFilter file = Accept →
  has_nul (Path.join (uploadDir d) (storage_filename e file)) = false →
  post_upload d req e w
  = (Val (Responded
            {| status := 500;
               content :=
                 Json (JObj [ ("success", JBool false);
                              ("error", JStr "Internal server error") ]) |}),
     {| uploadSessions := uploadSessions w;
        fs := fs w;
        trace := trace w ++ [EvFilter (originalname file)] |}).
Proof. apply post_upload_not_ready. Qed.

(** X18.  The start-up code only asks whether the path of the upload
    directory exists: when a regular file has that name it returns
    normally and leaves the file where it is, and afterwards every upload
    that passes the filter, and whose storage path holds no NUL byte, is
    answered with status 500. *)
Theorem startup_overlooks_file_in_place (size : Z) (w : world) (st : stats) :
  fs w !! uploadDir d = Some st →
  st_isDirectory st = false →
  startup d size w = (Val tt, w)
  ∧ ∀ req e file,
      req_part req = Some file → originalname file ≠ "" →
      fieldname file = "file" → fileFilter file = Accept →
      has_nul (Path.join (uploadDir d) (storage_filename e file)) = false →
      (post_upload d req e w).1
      = Val (Responded
               {| status := 500;
                  content :=
                    Json (JObj [ ("success", JBool false);
                                 ("error", JStr "Internal server error") ]) |}).
Proof.
  intros Hst Hfile. split.
  - unfold startup, fs_existsSync. run_m.
    rewrite bool_decide_eq_true_2 by eauto. reflexivity.
  - intros req e file Hpart Hname Hfield Hfilter Hnul.
    rewrite (post_upload_not_ready req e w file); try assumption; [reflexivity|].
    intros (st' & Hst' & Hdir). congruence.
Qed.

(** X19.  A process started where no regular file is in the way serves
    its first upload: an accepted file below the size limit, whose
    generated name is not taken by a directory and whose storage path
    the file system takes (no NUL byte, no name over 255 bytes, under
    4096 bytes in all), is answered 200 and is on disk afterwards with
    the size uploaded. *)
Theorem first_upload_after_startup_succeeds (size : Z)
    (files : gmap string stats) (req : request) (e : env) (file : file_part) :
  isAbsolute d = true →
  (∀ a st, a ∈ ancestors (uploadDir d) → files !! a = Some st →
           st_isDirectory st = true) →
  (∀ st, files !! (uploadDir d +:+ "/" +:+ storage_filename e file) = Some st →
         st_isDirectory st = false) →
  has_nul (uploadDir d +:+ "/" +:+ storage_filename e file) = false →
  too_long (uploadDir d +:+ "/" +:+ storage_filename e file) = false →
  req_part req = Some file →
  originalname file ≠ "" →
  fieldname file = "file" →
  fileFilter file = Accept →
  payload file < fileSize →
  unlinked_before_stat e = false →
  ∃ w',
    boot d size files = (Val tt, w')
    ∧ succeeded (post_upload d req e w').1
    ∧ fs (post_upload d req e w').2
        !! (uploadDir d +:+ "/" +:+ storage_filename e file)
      = Some (file_node (payload file)).
Proof.
  intros Habs Hclear Htarget Hnul Hshort Hpart Hname Hfield Hfilter Hsize Hquiet.
  set (w := {| uploadSessions := ∅; fs := files; trace := [] |}).
  destruct (startup_prepares size w Habs Hclear)
    as (w' & Hrun & Hready & Hgate & _ & Hframe).
  exists w'. split; [exact Hrun|].
  pose proof (storage_filename_ordinary e file) as Hord.
  pose proof (join_uploadDir d _ Habs Hord) as Hjoin.
  assert (Hout : uploadDir d +:+ "/" +:+ storage_filename e file
                 ∉ ancestors (uploadDir d)).
  { intros Hin. destruct (ancestors_uploadDir Habs) as [_ Hlen].
    apply Hlen in Hin. rewrite !length_append in Hin. simpl in Hin. lia. }
  assert (Hw : writable d w' (file_path (stored_as d e file))).
  { split; [exact Hready|]. simpl. rewrite Hjoin, (Hframe _ Hout).
    auto. }
  assert (Hfree : uploadSessions w' !! req_ip req = None).
  { rewrite Hgate. apply lookup_empty. }
  pose proof (upload_single_accept d req e w' file Hpart Hname Hfield Hfilter
                (over_limit_below e _ Hsize) Hw) as Hm.
  erewrite post_upload_handler_end;
    [| exact Hm | apply upload_handler_file; [exact Hfree | exact Hquiet]].
  split.
  - eexists. split; reflexivity.
  - simpl. rewrite Hjoin. apply lookup_insert_eq.
Qed.

End ProcessStart.

(* ===================================================================== *)
(** * The whole stack: every outcome of a request *)
(* ===================================================================== *)

Section Outcomes.
Import Str Path Http Server Express App JS Outcome.

(** Layers that keep [Q], in front of a remainder that always settles
    the request within [Q], make a stack that does. *)
Lemma run_keeps (Q : request → env → final → Prop) (front tail : list layer) :
  Forall (layer_keeps Q) front →
  (∀ err req e w, ∃ o w', run tail err req e w = (Val o, w') ∧ Q req e o) →
  ∀ err req e w,
    ∃ o w', run (front ++ tail) err req e w = (Val o, w') ∧ Q req e o.
Proof.
  intros Hfront Htail. induction Hfront as [|l front Hl _ IH]; [exact Htail|].
  intros err req e w. change ((l :: front) ++ tail) with (l :: (front ++ tail)).
  destruct (layer_match l req) as [| |y] eqn:Hm;
    [rewrite run_skip by exact Hm; apply IH
    | | rewrite (run_match_fails _ _ _ y) by exact Hm; apply IH].
  unfold layer_keeps in Hl.
  destruct (layer_run l) as [f|f] eqn:Hf, err as [x|].
  - rewrite (run_wrong_kind_error _ _ _ _ _ _ _ Hf). apply IH.
  - destruct (Hl req e (with_event (EvEnter (layer_name l)) w) Hm)
      as (s & w' & Hg & Hs).
    rewrite (run_middleware _ _ _ _ _ _ _ _ Hf Hm Hg).
    destruct s as [|y|r|y]; [apply IH | apply IH | eauto | eauto].
  - destruct (Hl x req e (with_event (EvEnter (layer_name l)) w) Hm)
      as (s & w' & Hg & Hs).
    rewrite (run_error_middleware _ _ _ _ _ _ _ _ _ Hf Hm Hg).
    destruct s as [|y|r|y]; [apply IH | apply IH | eauto | eauto].
  - rewrite (run_wrong_kind_normal _ _ _ _ _ _ Hf Hm). apply IH.
Qed.

Variable d : string.

Lemma mapM_stat_throw (names : list string) (w w' : world) (x : error) :
  mapM (stat_entry d) names w = (Throw x, w') → x = SystemError "ENOENT".
Proof.
  revert w'. induction names as [|name rest IH]; intros w'; [discriminate|].
  cbn [mapM]. run_m. rewrite stat_entry_run.
  destruct (fs w !! Path.join (uploadDir d) name).
  - destruct (mapM (stat_entry d) rest w) as [[l|y] w1] eqn:E.
    + discriminate.
    + intros H. injection H as <- _. exact (IH _ eq_refl).
  - intros H. injection H as <- _. reflexivity.
Qed.

(** The listing answers with JSON, status 200 or 500, or crashes with
    [ENOENT]. *)
Lemma list_handler_cases (e : env) (w : world) :
  ∃ s w', list_handler d e w = (Val s, w')
          ∧ ((∃ code j, s = End (json_response code j)
                        ∧ (code = 200 ∨ code = 500))
             ∨ s = Crash (SystemError "ENOENT")).
Proof.
  unfold list_handler, fs_readdir, outside_unlink. run_m.
  set (w1 := with_fs (λ m, foldr delete m (unlinked_after_scan e)) w).
  assert (Hcb : ∀ scan, ∃ s w',
             uncaught (list_callback d scan) w1 = (Val s, w')
             ∧ ((∃ code j, s = End (json_response code j)
                           ∧ (code = 200 ∨ code = 500))
                ∨ s = Crash (SystemError "ENOENT"))).
  { intros [names|]; unfold uncaught, list_callback; run_m.
    - destruct (mapM (stat_entry d) names w1) as [[l|x] w'] eqn:E.
      + eexists _, _. split; [reflexivity|]. left. eauto.
      + rewrite (mapM_stat_throw _ _ _ _ E).
        eexists _, _. split; [reflexivity|]. right. reflexivity.
    - eexists _, _. split; [reflexivity|]. left.
      exists 500, (JObj [("success", JBool false);
                         ("error", JStr "Failed to read uploads directory")]).
      auto. }
  destruct (fs w !! uploadDir d) as [st|]; [destruct (st_isDirectory st)|];
    fold w1; apply Hcb.
Qed.

(** The upload handler answers with JSON, status 429, 400 or 200, or
    throws. *)
Lemma upload_handler_answers (req : request) (f : option stored_file)
    (e : env) (w1 : world) :
  (∃ code j w2, upload_handler d req f e w1 = (Val (End (json_response code j)), w2)
                ∧ (code = 429 ∨ code = 400 ∨ code = 200))
  ∨ (∃ x w2, upload_handler d req f e w1 = (Throw x, w2)).
Proof.
  destruct (uploadSessions w1 !! req_ip req) as [sid|] eqn:Hs.
  - rewrite upload_handler_duplicate by eauto. left.
    eexists 429, _, _. split; [reflexivity | auto].
  - destruct f as [sf|].
    + destruct (unlinked_before_stat e) eqn:Hq.
      * destruct (fs w1 !! Path.join (uploadDir d) (file_filename sf)) as [st|] eqn:E.
        -- rewrite upload_handler_throws by eauto. right. eauto.
        -- unfold upload_handler, sessions_has, sessions_set, sessions_delete,
             fs_existsSync. run_m.
           rewrite bool_decide_eq_false_2 by (rewrite Hs; apply is_Some_None).
           simpl. rewrite E.
           rewrite bool_decide_eq_false_2 by apply is_Some_None.
           simpl. left. eexists 200, _, _. split; [reflexivity | auto].
      * rewrite upload_handler_file by assumption. left.
        eexists 200, _, _. split; [reflexivity | auto].
    + rewrite upload_handler_no_file by assumption. left.
      eexists 400, _, _. split; [reflexivity | auto].
Qed.

(** The static middleware passes the request on, sends a file, or
    redirects. *)
Lemma serve_static_answers (root : string) (req : request) (e : env)
    (w : world) :
  ∃ s, serve_static root req e w = (Val s, w)
       ∧ (s = Next
          ∨ (∃ p, s = End {| status := 200; content := FileContent p |})
          ∨ (∃ t, s = End {| status := 301; content := Html t |})).
Proof.
  unfold serve_static. cbv zeta.
  repeat case_match; eexists; (split; [reflexivity|]); eauto.
Qed.

Lemma getfile_handler_answers (filename : string) (w : world) :
  ∃ s, getfile_handler d filename w = (Val s, w)
       ∧ match s with
         | End r => known_response r
         | Crash _ => False
         | Next | NextErr _ => True
         end.
Proof.
  unfold getfile_handler, fs_existsSync. run_m.
  destruct (negb (starts_with _ _)).
  - eexists. split; [reflexivity|]. unfold known_response. simpl. tauto.
  - destruct (negb (bool_decide _)).
    + eexists. split; [reflexivity|]. unfold known_response. simpl. tauto.
    + destruct (res_sendFile_cases (Path.join (uploadDir d) filename) w)
        as [H|[H|H]]; rewrite H; eexists; (split; [reflexivity|]);
        [exact I | exact I | reflexivity].
Qed.

Lemma error_response_known (x : error) : known_response (error_response x).
Proof. destruct x as [[] m| | | |]; unfold known_response; simpl; tauto. Qed.

Ltac known :=
  simpl; unfold Outcome.known_response; simpl;
  first [exact I | reflexivity | tauto].

Lemma matched_Matches (b : bool) : matched b = Matches → b = true.
Proof. destruct b; [reflexivity | discriminate]. Qed.

Lemma upload_route_keeps (req : request) (e : env) (w : world) :
  route POST "/upload" req = true →
  ∃ s w', guard (upload_route d req e) w = (Val s, w')
          ∧ answers (app_outcome d) req e s.
Proof.
  intros Hroute. unfold guard, upload_route. run_m.
  destruct (upload_single d "file" req e w) as [[[f|x]|x] w1] eqn:Hm.
  - destruct (upload_handler_answers req f e w1)
      as [(code & j & w2 & Hh & Hcode)|(y & w2 & Hh)]; rewrite Hh;
      eexists _, _; (split; [reflexivity|]); [|exact I].
    destruct Hcode as [->|[->| ->]]; known.
  - eexists _, _. split; [reflexivity|].
    destruct (upload_single_escaped_inv d req e w w1 x Hm) as [-> Hfile].
    simpl. right. split; [reflexivity|]. split; [exact Hroute | exact Hfile].
  - eexists _, _. split; [reflexivity | exact I].
Qed.

Lemma front_keeps : Forall (layer_keeps (app_outcome d)) (firstn 9 (stack d)).
Proof.
  cbn [firstn stack]. repeat constructor; unfold layer_keeps;
    cbn [layer_run layer_match]; intros req e w Hm; unfold guard.
  - unfold cors. run_m.
    destruct (req_method req); eexists _, _; (split; [reflexivity|]); known.
  - unfold json_parser. run_m.
    destruct (json_failure req); eexists _, _; (split; [reflexivity|]); known.
  - unfold urlencoded_parser. run_m.
    destruct (urlencoded_failure req); eexists _, _; (split; [reflexivity|]);
      known.
  - destruct (serve_static_answers (publicDir d) req e w) as (s & Hs & Hcases).
    rewrite Hs. exists s, w. split; [reflexivity|].
    destruct Hcases as [->|[(p & ->)|(t & ->)]]; known.
  - unfold root_handler.
    destruct (res_sendFile_cases (indexHtml d) w) as [H|[H|H]]; rewrite H;
      eexists _, _; (split; [reflexivity|]); known.
  - apply upload_route_keeps. apply matched_Matches. exact Hm.
  - destruct (list_handler_cases e w) as (s & w' & Hs & Hcases).
    rewrite Hs. exists s, w'. split; [reflexivity|].
    destruct Hcases as [(code & j & -> & [->| ->])| ->];
      [known | known |].
    simpl. left. split; [reflexivity|]. apply matched_Matches. exact Hm.
  - unfold getfile_layer. run_m.
    destruct (filename_param req) as [[filename|]|];
      [|eexists _, _; split; [reflexivity | exact I] ..].
    destruct (getfile_handler_answers filename w) as (s & Hs & Hans).
    rewrite Hs. exists s, w. split; [reflexivity|].
    destruct s as [|y|r|y]; simpl; [exact I | exact I | exact Hans|].
    contradiction.
  - eexists _, _. split; [reflexivity|]. known.
Qed.

Lemma tail_keeps (err : option error) (req : request) (e : env) (w : world) :
  ∃ o w', run (skipn 9 (stack d)) err req e w = (Val o, w')
          ∧ app_outcome d req e o.
Proof.
  rewrite tail_run. destruct err as [x|]; eexists _, _; (split; [reflexivity|]).
  - apply error_response_known.
  - known.
Qed.

Lemma app_keeps (req : request) (e : env) (w : world) :
  ∃ o w', app d req e w = (Val o, w') ∧ app_outcome d req e o.
Proof.
  unfold app. rewrite stack_split.
  apply (run_keeps (app_outcome d)); [apply front_keeps | apply tail_keeps].
Qed.

(** X20.  Every request is settled, and never by Express's default
    handler: the outcome is a JSON response with one of the status codes
    200, 400, 403, 404, 429 and 500, the empty 204 of a CORS preflight, a
    file sent with status 200, the 301 redirect of the static
    middleware, or a crash. *)
Theorem app_answers_with_known_status (req : request) (e : env) (w : world) :
  ∃ o w',
    app d req e w = (Val o, w')
    ∧ match o with
      | Responded r =>
          match content r with
          | Json _ => In (status r) [200; 400; 403; 404; 429; 500]
          | NoBody => status r = 204
          | FileContent _ => status r = 200
          | Html _ => status r = 301
          end
      | Crashed _ => True
      end.
Proof.
  destruct (app_keeps req e w) as (o & w' & Hrun & Hout).
  exists o, w'. split; [exact Hrun|]. destruct o; [exact Hout | exact I].
Qed.

(** X21.  Two requests can bring the process down, and no other: a [GET]
    or [HEAD] of the listing path, with the [ENOENT] of its size lookup,
    and a [POST] of the upload path that carries a file whose storage
    path holds a NUL byte, with the [TypeError] that
    [fs.createWriteStream] throws inside multer's callback. *)
Theorem crash_only_from_listing_or_nul_name (req : request) (e : env)
    (w : world) (x : error) :
  (app d req e w).1 = Val (Crashed x) →
  (x = SystemError "ENOENT"
   ∧ match_path "/uploads" (req_path req) = true
   ∧ handles_method GET (req_method req) = true)
  ∨ (x = TypeError "ERR_INVALID_ARG_VALUE"
     ∧ match_path "/upload" (req_path req) = true
     ∧ handles_method POST (req_method req) = true
     ∧ ∃ file,
         req_part req = Some file
         ∧ has_nul (Path.join (uploadDir d) (storage_filename e file)) = true).
Proof.
  intros Hcrash. destruct (app_keeps req e w) as (o & w' & Hrun & Hout).
  rewrite Hrun in Hcrash. simpl in Hcrash. injection Hcrash as ->.
  destruct Hout as [[Hx Hroute]|(Hx & Hroute & Hfile)];
    apply andb_true_iff in Hroute; tauto.
Qed.

End Outcomes.

(* ===================================================================== *)
(** * The routes behind the global middleware *)
(* ===================================================================== *)

Section Routes.
Import Str Path Http Server Express App JS.
Variable d : string.

(** X22.  A [GET] or [HEAD] of [/health] (in any letter case, with or
    without a trailing slash) that reaches the router is answered 200
    with the status ["OK"], the current time and the absolute path of
    the upload directory; the handler looks at neither the file system
    nor the gate, so the answer is the same when the upload directory is
    missing. *)
Theorem health_reports_ok (req : request) (e : env) (w : world) :
  reaches_router d req e w →
  route GET "/health" req = true →
  app d req e w
  = (Val (Responded
            {| status := 200;
               content :=
                 Json (JObj [ ("status", JStr "OK");
                              ("timestamp", JStr (toISOString (t_iso e)));
                              ("uploadsDir", JStr (uploadDir d)) ]) |}),
     {| uploadSessions := uploadSessions w;
        fs := fs w;
        trace := trace w ++ [ EvEnter LCors; EvEnter LJson;
                              EvEnter LUrlencoded; EvEnter LStatic;
                              EvEnter LHealth ] |}).
Proof.
  intros Hreach Hroute. unfold app, stack.
  rewrite (run_to_router d _ req e w Hreach).
  pose proof Hroute as Hr. unfold route in Hr.
  apply andb_true_iff in Hr as [Hpath Hmeth].
  assert (Hp : toLowerCase (req_path req) = "/health"
               ∨ toLowerCase (req_path req) = "/health/").
  { unfold match_path in Hpath. cbn [eqb String.eqb Ascii.eqb Bool.eqb] in Hpath.
    apply orb_true_iff in Hpath as [H|H]; apply String.eqb_eq in H; auto. }
  assert (H1 : route GET "/" req = false).
  { unfold route, match_path. destruct Hp as [-> | ->]; reflexivity. }
  assert (H2 : route POST "/upload" req = false).
  { unfold route, match_path. destruct Hp as [-> | ->]; reflexivity. }
  assert (H3 : route GET "/uploads" req = false).
  { unfold route, match_path. destruct Hp as [-> | ->]; reflexivity. }
  assert (H4 : match_param "/uploads" (req_path req) = None).
  { apply match_param_lower. destruct Hp as [-> | ->]; reflexivity. }
  rewrite run_skip by (apply matched_false; exact H1).
  rewrite run_skip by (apply matched_false; exact H2).
  rewrite run_skip by (apply matched_false; exact H3).
  rewrite run_skip
    by (cbn [layer_match]; unfold getfile_match, filename_param;
        rewrite H4; reflexivity).
  erewrite run_middleware;
    [|reflexivity | apply matched_true; exact Hroute | reflexivity].
  f_equal. apply world_eq; simpl; try reflexivity.
  rewrite <- !app_assoc. reflexivity.
Qed.

(** X23.  When [public/index.html] is missing, a [GET /] that reaches the
    router is answered with status 500 and "Internal server error", not
    with a 404: the failure of [res.sendFile] goes to the global error
    handler, which knows no other status for it. *)
Theorem root_without_index_answered_500 (req : request) (e : env)
    (w : world) :
  reaches_router d req e w →
  route GET "/" req = true →
  fs w !! indexHtml d = None →
  app d req e w
  = (Val (Responded
            {| status := 500;
               content :=
                 Json (JObj [ ("success", JBool false);
                              ("error", JStr "Internal server error") ]) |}),
     {| uploadSessions := uploadSessions w;
        fs := fs w;
        trace := trace w ++ [ EvEnter LCors; EvEnter LJson;
                              EvEnter LUrlencoded; EvEnter LStatic;
                              EvEnter LRoot; EvEnter LError ] |}).
Proof.
  intros Hreach Hroute Hmissing. unfold app, stack.
  rewrite (run_to_router d _ req e w Hreach).
  erewrite run_middleware with (s := NextErr (HttpError 404));
    [|reflexivity | apply matched_true; exact Hroute
     | unfold guard, root_handler, res_sendFile; simpl; rewrite Hmissing;
       destruct (containsDotFile (indexHtml d)); reflexivity].
  repeat (erewrite run_wrong_kind_error by reflexivity).
  erewrite run_error_middleware;
    [|reflexivity | reflexivity | reflexivity].
  f_equal. apply world_eq; simpl; try reflexivity.
  rewrite <- !app_assoc. reflexivity.
Qed.

End Routes.

(* ===================================================================== *)
(** * Stored files and the static middleware *)
(* ===================================================================== *)

Section StaticFiles.
Import Str Path Http Server Express App JS.
Variable d : string.
Hypothesis Habs : isAbsolute d = true.

(** [public/] and [public/uploads] lie below the same directory. *)
Lemma public_and_upload_shape :
  ∃ segs, Forall ordinary segs
          ∧ publicDir d = "/" +:+ join_slash (segs ++ ["public"])
          ∧ uploadDir d = "/" +:+ join_slash (segs ++ ["public"; "uploads"]).
Proof.
  unfold publicDir, uploadDir, join.
  pose proof (absolute_nonempty _ Habs) as Hd. apply eqb_false in Hd.
  rewrite Hd. change (eqb "../public/uploads" "") with false.
  change (eqb "../public" "") with false. cbv iota.
  set (st0 := fold_left (norm_step false) (split_slash d) []).
  assert (H0 : Forall ordinary st0).
  { apply fold_norm_step_keeps_ordinary; [apply split_slash_pieces | constructor]. }
  set (st1 := norm_step false st0 "..").
  assert (H1 : Forall ordinary st1).
  { apply norm_step_keeps_ordinary; [reflexivity | exact H0]. }
  exists (rev st1). split; [apply Forall_rev; exact H1|]. split.
  - apply normalize_absolute.
    + apply isAbsolute_app. exact Habs.
    + unfold trailingSeparator. rewrite last_char_app by discriminate.
      reflexivity.
    + rewrite split_slash_app, fold_left_app. fold st0.
      change (split_slash "../public") with [".."; "public"].
      cbn [fold_left]. fold st1.
      rewrite !norm_step_ordinary
        by (repeat split; (discriminate || reflexivity)).
      reflexivity.
    + destruct (rev st1); discriminate.
    + apply Forall_app. split; [apply Forall_rev; exact H1|].
      repeat constructor; discriminate.
  - apply normalize_absolute.
    + apply isAbsolute_app. exact Habs.
    + unfold trailingSeparator. rewrite last_char_app by discriminate.
      reflexivity.
    + rewrite split_slash_app, fold_left_app. fold st0.
      change (split_slash "../public/uploads") with [".."; "public"; "uploads"].
      cbn [fold_left]. fold st1.
      rewrite !norm_step_ordinary
        by (repeat split; (discriminate || reflexivity)).
      cbn [rev]. rewrite <- !app_assoc. reflexivity.
    + destruct (rev st1); discriminate.
    + apply Forall_app. split; [apply Forall_rev; exact H1|].
      repeat constructor; discriminate.
Qed.

Lemma trailingSeparator_name (front name : string) :
  ordinary name → trailingSeparator (front +:+ String slash name) = false.
Proof.
  intros (Hne & _ & _ & Hslash). unfold trailingSeparator.
  rewrite last_char_app by discriminate.
  change (String slash name) with ("/" +:+ name).
  rewrite last_char_app by exact Hne.
  apply last_char_no_slash; assumption.
Qed.

(** The file [uploads/name] below [public/] is the file [name] in the
    upload directory. *)
Lemma join_public_uploads (name : string) :
  ordinary name →
  Path.join (publicDir d) ("uploads/" +:+ name) = uploadDir d +:+ "/" +:+ name.
Proof.
  intros Hname.
  destruct public_and_upload_shape as (segs & Hord & HP & HU).
  pose proof Hname as (Hn1 & Hn2 & Hn3 & Hn4).
  assert (Hslash : Forall (λ seg, has_slash seg = false) segs).
  { eapply Forall_impl; [exact Hord|]. intros seg Hseg. apply Hseg. }
  assert (Hordp : Forall ordinary (segs ++ ["public"])).
  { apply Forall_app. split; [exact Hord | repeat constructor; discriminate]. }
  assert (Hall : Forall ordinary (segs ++ ["public"; "uploads"; name])).
  { apply Forall_app. split; [exact Hord|].
    repeat constructor; (discriminate || assumption). }
  unfold join. rewrite HP, HU.
  change (eqb ("/" +:+ join_slash (segs ++ ["public"])) "") with false.
  change (eqb ("uploads/" +:+ name) "") with false. cbv iota.
  change ("uploads/" +:+ name) with ("uploads" +:+ String slash name).
  rewrite (normalize_absolute _ (segs ++ ["public"; "uploads"; name])).
  - replace (segs ++ ["public"; "uploads"; name])
      with ((segs ++ ["public"; "uploads"]) ++ [name])
      by (rewrite <- app_assoc; reflexivity).
    rewrite join_slash_snoc by (destruct segs; discriminate). reflexivity.
  - reflexivity.
  - change (String slash ("uploads" +:+ String slash name))
      with ("/uploads" +:+ String slash name).
    rewrite <- append_assoc. apply trailingSeparator_name. exact Hname.
  - rewrite split_slash_app.
    change ("/" +:+ join_slash (segs ++ ["public"]))
      with ("" +:+ String slash (join_slash (segs ++ ["public"]))).
    rewrite split_slash_app, split_join_slash;
      [| destruct segs; discriminate
       | eapply Forall_impl; [exact Hordp|]; intros seg Hseg; apply Hseg].
    rewrite split_slash_app, (split_slash_no_slash name Hn4).
    change (split_slash "") with [""]. change (split_slash "uploads") with ["uploads"].
    rewrite <- !app_assoc. cbn [Datatypes.app fold_left].
    change (norm_step false [] "") with (@nil string).
    rewrite fold_norm_step_ordinary by exact Hall.
    rewrite app_nil_r, rev_involutive. reflexivity.
  - destruct segs; discriminate.
  - exact Hall.
Qed.

(** The path the static middleware derives from [/uploads/name]. *)
Lemma normalize_upload_url (name : string) :
  ordinary name →
  Path.normalize ("./" +:+ "/uploads/" +:+ name) = "uploads/" +:+ name.
Proof.
  intros Hname. pose proof Hname as (Hn1 & Hn2 & Hn3 & Hn4).
  unfold normalize, normalizeString.
  change (eqb ("./" +:+ "/uploads/" +:+ name) "") with false.
  change (isAbsolute ("./" +:+ "/uploads/" +:+ name)) with false.
  change ("./" +:+ "/uploads/" +:+ name)
    with ("." +:+ String slash ("" +:+ String slash ("uploads" +:+ String slash name))).
  rewrite !split_slash_app, (split_slash_no_slash name Hn4).
  change (split_slash ".") with ["."]. change (split_slash "") with [""].
  change (split_slash "uploads") with ["uploads"].
  cbn [Datatypes.app fold_left negb].
  change (norm_step true [] ".") with (@nil string).
  change (norm_step true [] "") with (@nil string).
  change (norm_step true [] "uploads") with ["uploads"].
  rewrite norm_step_ordinary by exact Hname. cbn [rev Datatypes.app join_slash].
  change (eqb ("uploads" +:+ String slash name) "") with false.
  change ("." +:+ String slash ("" +:+ String slash ("uploads" +:+ String slash name)))
    with (".//uploads" +:+ String slash name).
  rewrite (trailingSeparator_name _ _ Hname). reflexivity.
Qed.

(** A path that is normalised already stays as it is. *)
Lemma normalize_upload_path (name : string) :
  ordinary name →
  Path.normalize (uploadDir d +:+ "/" +:+ name) = uploadDir d +:+ "/" +:+ name.
Proof.
  intros Hname. rewrite <- (join_public_uploads name Hname) at 1.
  destruct public_and_upload_shape as (segs & Hord & HP & HU).
  pose proof Hname as (Hn1 & Hn2 & Hn3 & Hn4).
  assert (Hall : Forall ordinary (segs ++ ["public"; "uploads"; name])).
  { apply Forall_app. split; [exact Hord|].
    repeat constructor; (discriminate || assumption). }
  assert (Hne : segs ++ ["public"; "uploads"; name] ≠ [])
    by (destruct segs; discriminate).
  assert (Hshape : uploadDir d +:+ "/" +:+ name
                   = "/" +:+ join_slash (segs ++ ["public"; "uploads"; name])).
  { rewrite HU.
    replace (segs ++ ["public"; "uploads"; name])
      with ((segs ++ ["public"; "uploads"]) ++ [name])
      by (rewrite <- app_assoc; reflexivity).
    rewrite join_slash_snoc by (destruct segs; discriminate). reflexivity. }
  rewrite (join_public_uploads name Hname), Hshape.
  apply normalize_absolute.
  - reflexivity.
  - rewrite <- Hshape.
    change (uploadDir d +:+ "/" +:+ name)
      with (uploadDir d +:+ String slash name).
    apply trailingSeparator_name. exact Hname.
  - change ("/" +:+ join_slash (segs ++ ["public"; "uploads"; name]))
      with ("" +:+ String slash (join_slash (segs ++ ["public"; "uploads"; name]))).
    rewrite split_slash_app, split_join_slash;
      [| exact Hne
       | eapply Forall_impl; [exact Hall|]; intros seg Hseg; apply Hseg].
    change (split_slash "") with [""]. cbn [Datatypes.app fold_left].
    change (norm_step false [] "") with (@nil string).
    rewrite fold_norm_step_ordinary by exact Hall.
    rewrite app_nil_r, rev_involutive. reflexivity.
  - exact Hne.
  - exact Hall.
Qed.

Lemma drop_last_slash_id (p : string) :
  trailingSeparator p = false → drop_last_slash p = p.
Proof.
  unfold trailingSeparator. induction p as [|c p IH]; [reflexivity|].
  destruct p as [|c' p'].
  - simpl. intros ->. reflexivity.
  - intros H. change (drop_last_slash (String c (String c' p')))
      with (String c (drop_last_slash (String c' p'))).
    rewrite IH; [reflexivity | exact H].
Qed.

(** [fs.stat] of a path that does not end in a separator is a lookup. *)
Lemma stat_path_plain (files : gmap string stats) (p : string) :
  trailingSeparator p = false → stat_path files p = files !! p.
Proof.
  intros H. unfold stat_path. rewrite (drop_last_slash_id p H), H.
  destruct (files !! p); reflexivity.
Qed.

Lemma split_seps_nonempty (s : string) : split_seps s ≠ [].
Proof.
  induction s as [|c s IH]; simpl; [discriminate|].
  destruct (is_sep c); [discriminate|]. destruct (split_seps s); discriminate.
Qed.

Lemma has_nul_app (a b : string) : has_nul (a +:+ b) = has_nul a || has_nul b.
Proof.
  induction a as [|c a IH]; [reflexivity|]. simpl. rewrite IH.
  apply orb_assoc.
Qed.

(** The static middleware answers a request whose path decodes to
    [/uploads/name] with the file [name] of the upload directory. *)
Lemma serve_static_upload (req : request) (e : env) (w : world)
    (name : string) (st : stats) :
  ordinary name → is_dotfile name = false → has_nul name = false →
  existsb (eqb "..") (split_seps name) = false →
  decodeURIComponent (req_path req) = Some ("/uploads/" +:+ name) →
  trailingSeparator (req_path req) = false →
  handles_method GET (req_method req) = true →
  fs w !! (uploadDir d +:+ "/" +:+ name) = Some st →
  st_isDirectory st = false →
  serve_static (publicDir d) req e w
  = (Val (End {| status := 200;
                 content := FileContent (uploadDir d +:+ "/" +:+ name) |}), w).
Proof.
  intros Hname Hdot Hnul Hup Hd Htrail Hmeth Hst Hfile.
  pose proof Hname as (Hn1 & Hn2 & Hn3 & Hn4).
  assert (Hsplit : split_slash ("uploads/" +:+ name) = ["uploads"; name]).
  { change ("uploads/" +:+ name) with ("uploads" +:+ String slash name).
    rewrite split_slash_app, (split_slash_no_slash name Hn4). reflexivity. }
  assert (Hseps : existsb (eqb "..") (split_seps ("uploads/" +:+ name)) = false).
  { simpl. pose proof (split_seps_nonempty name) as Hne.
    destruct (split_seps name) as [|seg rest]; [contradiction|].
    exact Hup. }
  assert (Hnul' : has_nul ("/uploads/" +:+ name) = false) by exact Hnul.
  assert (Htarget : trailingSeparator (uploadDir d +:+ "/" +:+ name) = false).
  { change (uploadDir d +:+ "/" +:+ name)
      with (uploadDir d +:+ String slash name).
    apply trailingSeparator_name. exact Hname. }
  unfold serve_static.
  destruct (req_method req); try discriminate;
    rewrite Hd; cbv zeta; rewrite Hnul';
    change (eqb ("/uploads/" +:+ name) "") with false; cbv iota;
    rewrite (normalize_upload_url name Hname), Hseps;
    unfold containsDotFile; rewrite Hsplit; cbn [existsb];
    rewrite Hdot;
    cbn [orb is_dotfile is_dot];
    change (Ascii.eqb "u" dot) with false; cbv iota;
    rewrite (join_public_uploads name Hname),
      (normalize_upload_path name Hname), Htrail,
      (stat_path_plain _ _ Htarget), Hst, Hfile;
    reflexivity.
Qed.

Lemma static_serves (req : request) (e : env) (w : world) (name : string)
    (st : stats) :
  ordinary name → is_dotfile name = false → has_nul name = false →
  existsb (eqb "..") (split_seps name) = false →
  decodeURIComponent (req_path req) = Some ("/uploads/" +:+ name) →
  trailingSeparator (req_path req) = false →
  handles_method GET (req_method req) = true →
  json_failure req = None →
  urlencoded_failure req = None →
  fs w !! (uploadDir d +:+ "/" +:+ name) = Some st →
  st_isDirectory st = false →
  app d req e w
  = (Val (Responded
            {| status := 200;
               content := FileContent (uploadDir d +:+ "/" +:+ name) |}),
     {| uploadSessions := uploadSessions w;
        fs := fs w;
        trace := trace w ++ [ EvEnter LCors; EvEnter LJson;
                              EvEnter LUrlencoded; EvEnter LStatic ] |}).
Proof.
  intros Hname Hdot Hnul Hup Hdec Htrail Hmeth Hjson Hurl Hst Hfile.
  unfold app, stack.
  erewrite run_middleware with (s := Next);
    [|reflexivity | reflexivity
     | unfold guard, cors; destruct (req_method req); try reflexivity;
       discriminate].
  erewrite run_middleware with (s := Next);
    [|reflexivity | reflexivity
     | unfold guard, json_parser; rewrite Hjson; reflexivity].
  erewrite run_middleware with (s := Next);
    [|reflexivity | reflexivity
     | unfold guard, urlencoded_parser; rewrite Hurl; reflexivity].
  erewrite run_middleware;
    [|reflexivity | reflexivity
     | unfold guard; cbn [layer_name];
       erewrite serve_static_upload; try eassumption; reflexivity].
  f_equal. apply world_eq; simpl; try reflexivity.
  rewrite <- !app_assoc. reflexivity.
Qed.

(** X24.  A stored file is served by the static middleware: a [GET] or
    [HEAD] whose path percent-decodes to [/uploads/name] and does not end
    in a slash, for an existing regular file [name] of the upload
    directory whose name holds no NUL byte, does not start with a dot and
    has no [..] between separators of either kind, is answered 200 with
    that file before any route is tried, so the handler of
    [GET /uploads/:filename] never sees it. *)
Theorem static_layer_serves_stored_files (req : request) (e : env)
    (w : world) (name : string) (st : stats) :
  ordinary name →
  is_dotfile name = false →
  has_nul name = false →
  existsb (eqb "..") (split_seps name) = false →
  decodeURIComponent (req_path req) = Some ("/uploads/" +:+ name) →
  trailingSeparator (req_path req) = false →
  handles_method GET (req_method req) = true →
  json_failure req = None →
  urlencoded_failure req = None →
  fs w !! (uploadDir d +:+ "/" +:+ name) = Some st →
  st_isDirectory st = false →
  app d req e w
  = (Val (Responded
            {| status := 200;
               content := FileContent (uploadDir d +:+ "/" +:+ name) |}),
     {| uploadSessions := uploadSessions w;
        fs := fs w;
        trace := trace w ++ [ EvEnter LCors; EvEnter LJson;
                              EvEnter LUrlencoded; EvEnter LStatic ] |}).
Proof. apply static_serves. Qed.

(** *** The names multer generates *)

(** A text without separators in front of [t] extends the first piece
    of [t]. *)
Lemma split_seps_prefix (a t : string) :
  all_chars (λ c, negb (is_sep c)) a = true →
  ∃ seg rest, split_seps t = seg :: rest
              ∧ split_seps (a +:+ t) = (a +:+ seg) :: rest.
Proof.
  induction a as [|c a IH]; simpl; intros H.
  - destruct (split_seps t) as [|seg rest] eqn:E;
      [exfalso; exact (split_seps_nonempty t E)|].
    eauto.
  - apply andb_true_iff in H as [Hc Ha]. apply negb_true_iff in Hc.
    rewrite Hc. destruct (IH Ha) as (seg & rest & Ht & Hat).
    rewrite Hat. eauto.
Qed.

Lemma split_seps_nodot (r : string) :
  all_chars (λ c, negb (is_dot c)) r = true →
  Forall (λ seg, all_chars (λ c, negb (is_dot c)) seg = true) (split_seps r).
Proof.
  induction r as [|c r IH]; simpl; intros H.
  - repeat constructor.
  - apply andb_true_iff in H as [Hc Hr]. specialize (IH Hr).
    destruct (is_sep c).
    + constructor; [reflexivity | exact IH].
    + destruct (split_seps r) as [|seg rest].
      * repeat constructor. simpl. rewrite Hc. reflexivity.
      * inversion IH as [|? ? Hseg Hrest]; subst.
        constructor; [|exact Hrest]. simpl. rewrite Hc. exact Hseg.
Qed.

Lemma nodot_not_dotdot (l : list string) :
  Forall (λ seg, all_chars (λ c, negb (is_dot c)) seg = true) l →
  existsb (eqb "..") l = false.
Proof.
  induction 1 as [|seg l Hseg _ IH]; [reflexivity|]. cbn [existsb].
  rewrite IH, orb_false_r. apply eqb_false. intros <-.
  simpl in Hseg. discriminate.
Qed.

Lemma split_dot_nodot (l rext rpre : list ascii) :
  split_dot l = Some (rext, rpre) →
  forallb (λ c, negb (is_dot c)) rext = true.
Proof.
  revert rext. induction l as [|c l IH]; intros rext H; [discriminate|].
  simpl in H. destruct (is_dot c) eqn:E.
  - injection H as <- <-. reflexivity.
  - destruct (split_dot l) as [[ext pre]|]; [|discriminate].
    injection H as <- <-. simpl. rewrite E. apply (IH ext). reflexivity.
Qed.

Lemma all_chars_of_list (P : ascii → bool) (l : list ascii) :
  all_chars P (of_list l) = forallb P l.
Proof. induction l as [|c l IH]; simpl; [reflexivity | rewrite IH; reflexivity]. Qed.

(** An extension is empty, or a dot followed by text without a dot. *)
Lemma extname_shape (p : string) :
  extname p = ""
  ∨ ∃ r, extname p = String dot r
         ∧ all_chars (λ c, negb (is_dot c)) r = true.
Proof.
  unfold extname.
  destruct (split_dot _) as [[rext rpre]|] eqn:E; [|left; reflexivity].
  apply split_dot_nodot in E.
  assert (H : ∃ r, of_list (dot :: rev rext) = String dot r
                   ∧ all_chars (λ c, negb (is_dot c)) r = true).
  { exists (of_list (rev rext)). split; [reflexivity|].
    rewrite all_chars_of_list, forallb_rev. exact E. }
  destruct rpre as [|c [|c' rpre']]; [left; reflexivity | | right; exact H].
  destruct rext; [|right; exact H].
  destruct (is_dot c); [left; reflexivity | right; exact H].
Qed.

(** A printed integer holds neither a separator nor a dot. *)
Lemma number_to_string_clean (z : Z) :
  all_chars (λ c, negb (is_sep c) && negb (is_dot c)) (number_to_string z)
  = true.
Proof.
  assert (HP : ∀ n, (λ c, negb (is_sep c) && negb (is_dot c)) (pretty_N_char n)
                    = true).
  { intros n. unfold pretty_N_char. repeat case_match; reflexivity. }
  unfold number_to_string, pretty, pretty_Z.
  destruct z as [|p|p]; [reflexivity | |].
  - apply (pretty_N_all _ _ HP).
  - simpl. apply (pretty_N_all _ _ HP).
Qed.

Lemma all_chars_impl (P Q : ascii → bool) (s : string) :
  (∀ c, P c = true → Q c = true) →
  all_chars P s = true → all_chars Q s = true.
Proof.
  intros HPQ. induction s as [|c s IH]; [reflexivity|]. simpl. intros H.
  apply andb_true_iff in H as [Hc Hs]. rewrite (HPQ c Hc), (IH Hs).
  reflexivity.
Qed.

(** A generated name has no [..] between separators of either kind. *)
Lemma generated_name_no_dotdot (e : env) (file : file_part) :
  existsb (eqb "..") (split_seps (storage_filename e file)) = false.
Proof.
  unfold storage_filename. cbv zeta.
  set (a := number_to_string (t_name e) +:+ "-"
            +:+ number_to_string (random_suffix (rnd e))).
  set (ext := extname (originalname file)).
  replace (number_to_string (t_name e) +:+ "-"
           +:+ number_to_string (random_suffix (rnd e)) +:+ ext)
    with (a +:+ ext)
    by (unfold a; rewrite !append_assoc; reflexivity).
  assert (Ha : all_chars (λ c, negb (is_sep c) && negb (is_dot c)) a = true).
  { unfold a. rewrite !all_chars_app, !number_to_string_clean. reflexivity. }
  assert (Hsep : all_chars (λ c, negb (is_sep c)) a = true).
  { eapply all_chars_impl; [|exact Ha]. intros c Hc.
    apply andb_true_iff in Hc. tauto. }
  assert (Hhead : ∃ c a', a = String c a' ∧ is_dot c = false).
  { destruct (number_to_string_plain (t_name e)) as [Ht Htne].
    destruct (plain_first_char (number_to_string (t_name e))
                ("-" +:+ number_to_string (random_suffix (rnd e))) Ht Htne)
      as (c & a' & Heq & Hc).
    exists c, a'. auto. }
  destruct (split_seps_prefix a ext Hsep) as (seg & rest & Hext & Hall).
  rewrite Hall. cbn [existsb].
  destruct Hhead as (c & a' & Heq & Hc).
  assert (Hfirst : eqb ".." (a +:+ seg) = false).
  { apply eqb_false. rewrite Heq. intros H. injection H as H _. subst c.
    discriminate Hc. }
  rewrite Hfirst. cbn [orb].
  destruct (extname_shape (originalname file)) as [Hnone|(r & Hsome & Hr)].
  - fold ext in Hnone. rewrite Hnone in Hext. simpl in Hext.
    injection Hext as _ <-.
    reflexivity.
  - fold ext in Hsome. rewrite Hsome in Hext. simpl in Hext.
    pose proof (split_seps_nodot r Hr) as Hpieces.
    destruct (split_seps r) as [|seg' rest'];
      [injection Hext as _ <-; reflexivity|].
    injection Hext as _ <-. apply nodot_not_dotdot.
    inversion Hpieces; assumption.
Qed.

(** X25.  A stored upload can be fetched: after a request that was
    answered 200, every [GET] or [HEAD] whose path percent-decodes to
    ["/uploads/"] followed by the generated name is answered 200 with
    the stored file. *)
Theorem upload_url_serves_the_file (req req' : request) (e e' : env)
    (w : world) (file : file_part) :
  succeeded (post_upload d req e w).1 →
  req_part req = Some file →
  decodeURIComponent (req_path req')
  = Some ("/uploads/" +:+ storage_filename e file) →
  trailingSeparator (req_path req') = false →
  handles_method GET (req_method req') = true →
  json_failure req' = None →
  urlencoded_failure req' = None →
  (app d req' e' (post_upload d req e w).2).1
  = Val (Responded
           {| status := 200;
              content :=
                FileContent (uploadDir d +:+ "/" +:+ storage_filename e file) |}).
Proof.
  intros Hok Hpart Hdec Htrail Hmeth Hjson Hurl.
  destruct (post_upload_success_inv d Habs req e w Hok)
    as (file' & Hpart' & Hfs & _ & _ & Hnul & _).
  rewrite Hpart in Hpart'. injection Hpart' as <-.
  rewrite has_nul_app in Hnul. apply orb_false_iff in Hnul as [_ Hnul].
  pose proof (storage_filename_ordinary e file) as Hord.
  erewrite static_serves with (st := file_node (payload file));
    try reflexivity; try eassumption.
  - apply is_dotfile_ordinary_head. unfold storage_filename.
    destruct (number_to_string_plain (t_name e)) as [Ht Htne].
    apply plain_first_char; assumption.
  - apply generated_name_no_dotdot.
  - rewrite Hfs. apply lookup_insert_eq.
Qed.

(** *** The listing path and the static middleware *)

Lemma trailingSeparator_segments (segs : list string) :
  segs ≠ [] → Forall ordinary segs →
  trailingSeparator ("/" +:+ join_slash segs) = false.
Proof.
  intros Hne Hord. destruct (exists_last Hne) as (front & last & ->).
  apply Forall_app in Hord as [_ Hlast].
  inversion Hlast as [|? ? Hl _]; subst.
  destruct front as [|f front'].
  - apply (trailingSeparator_name "" last Hl).
  - rewrite join_slash_snoc by discriminate. rewrite <- append_assoc.
    apply trailingSeparator_name. exact Hl.
Qed.

(** A path that is normalised already stays as it is. *)
Lemma normalize_segments (segs : list string) :
  segs ≠ [] → Forall ordinary segs →
  normalize ("/" +:+ join_slash segs) = "/" +:+ join_slash segs.
Proof.
  intros Hne Hord. apply normalize_absolute.
  - reflexivity.
  - apply trailingSeparator_segments; assumption.
  - change ("/" +:+ join_slash segs)
      with ("" +:+ String slash (join_slash segs)).
    rewrite split_slash_app, split_join_slash;
      [| exact Hne
       | eapply Forall_impl; [exact Hord|]; intros seg Hseg; apply Hseg].
    change (split_slash "") with [""]. cbn [Datatypes.app fold_left].
    change (norm_step false [] "") with (@nil string).
    rewrite fold_norm_step_ordinary by exact Hord.
    rewrite app_nil_r, rev_involutive. reflexivity.
  - exact Hne.
  - exact Hord.
Qed.

Lemma normalize_uploadDir : normalize (uploadDir d) = uploadDir d.
Proof.
  destruct (uploadDir_shape d Habs) as (segs & Hne & Hord & ->).
  apply normalize_segments; assumption.
Qed.

Lemma trailingSeparator_uploadDir : trailingSeparator (uploadDir d) = false.
Proof.
  destruct (uploadDir_shape d Habs) as (segs & Hne & Hord & ->).
  apply trailingSeparator_segments; assumption.
Qed.

(** [public/uploads] is the upload directory. *)
Lemma join_public_dir : Path.join (publicDir d) "uploads" = uploadDir d.
Proof.
  destruct public_and_upload_shape as (segs & Hord & HP & HU).
  assert (Hall : Forall ordinary ((segs ++ ["public"]) ++ ["uploads"])).
  { rewrite <- app_assoc. apply Forall_app. split; [exact Hord|].
    repeat constructor; discriminate. }
  unfold join. rewrite HP, HU.
  change (eqb ("/" +:+ join_slash (segs ++ ["public"])) "") with false.
  change (eqb "uploads" "") with false. cbv iota.
  replace (segs ++ ["public"; "uploads"])
    with ((segs ++ ["public"]) ++ ["uploads"])
    by (rewrite <- app_assoc; reflexivity).
  rewrite append_assoc.
  rewrite <- (join_slash_snoc (segs ++ ["public"]) "uploads")
    by (destruct segs; discriminate).
  apply normalize_segments; [destruct segs; discriminate | exact Hall].
Qed.

(** With the upload directory in place, the static middleware answers the
    path [/uploads] itself: it redirects to the directory. *)
Lemma serve_static_redirects (req : request) (e : env) (w : world) :
  directory_ready d w →
  req_path req = "/uploads" →
  handles_method GET (req_method req) = true →
  serve_static (publicDir d) req e w
  = (Val (End {| status := 301;
                 content := Html "Redirecting to /uploads/" |}), w).
Proof.
  intros (st & Hst & Hdir) Hpath Hmeth.
  unfold serve_static. rewrite Hpath.
  change (decodeURIComponent "/uploads") with (Some "/uploads").
  cbv beta iota zeta. change (has_nul "/uploads") with false.
  change (eqb "/uploads" "") with false. cbv iota.
  change (normalize ("./" +:+ "/uploads")) with "uploads".
  change (existsb (eqb "..") (split_seps "uploads") || containsDotFile "uploads")
    with false.
  change (trailingSeparator "/uploads") with false. cbv iota.
  rewrite join_public_dir, normalize_uploadDir.
  unfold stat_path.
  rewrite (drop_last_slash_id _ trailingSeparator_uploadDir), Hst.
  cbv beta iota. rewrite Hdir. cbn [negb]. rewrite andb_false_r.
  cbv beta iota. rewrite Hdir.
  destruct (req_method req); try discriminate; reflexivity.
Qed.

End StaticFiles.

(* ===================================================================== *)
(** * The listing, as a request *)
(* ===================================================================== *)

Section ListingRoute.
Import Str Path Http Server Express App JS.
Variable d : string.
Hypothesis Habs : isAbsolute d = true.

Lemma listing_path (req : request) :
  route GET "/uploads" req = true →
  route GET "/" req = false ∧ route POST "/upload" req = false.
Proof.
  intros Hroute. unfold route in Hroute.
  apply andb_true_iff in Hroute as [Hpath _].
  assert (Hp : toLowerCase (req_path req) = "/uploads"
               ∨ toLowerCase (req_path req) = "/uploads/").
  { unfold match_path in Hpath. cbn [eqb String.eqb Ascii.eqb Bool.eqb] in Hpath.
    apply orb_true_iff in Hpath as [H|H]; apply String.eqb_eq in H; auto. }
  split; unfold route, match_path; destruct Hp as [-> | ->]; reflexivity.
Qed.

(** C8 (as amended).  With the upload directory in place and nobody
    removing files during the scan, the handler of [GET /uploads] answers
    [{success: true, count, files}]: [count] is the number of directory
    entries, and [files] holds one record [{name, url, size}] per entry,
    [url] being ["/uploads/"] followed by the name and [size] the size the
    file system reports.  That is the answer to every request for the
    listing route that the global middleware passes on to the routes, such
    as [GET /uploads/]; the request [GET /uploads] itself is not one of
    them: the static middleware answers it with a redirect to
    [/uploads/].  After N successful uploads into a directory that was
    empty, [count] is N provided the N generated names are pairwise
    distinct. *)
Theorem listing_reports_entries (e : env) (w : world) :
  directory_ready d w →
  unlinked_after_scan e = [] →
  list_handler d e w
  = (Val (End
            {| status := 200;
               content :=
                 Json (JObj
                   [ ("success", JBool true);
                     ("count", JNum (Z.of_nat (length (entries d w))));
                     ("files",
                      JArr (map (λ name,
                                   JObj [ ("name", JStr name);
                                          ("url", JStr ("/uploads/" +:+ name));
                                          ("size", JNum (entry_size d w name)) ])
                              (entries d w))) ]) |}), w)
  ∧ (∀ req,
       reaches_router d req e w →
       route GET "/uploads" req = true →
       app d req e w
       = (Val (Responded
                 {| status := 200;
                    content :=
                      Json (JObj
                        [ ("success", JBool true);
                          ("count", JNum (Z.of_nat (length (entries d w))));
                          ("files",
                           JArr (map (λ name,
                                        JObj [ ("name", JStr name);
                                               ("url", JStr ("/uploads/" +:+ name));
                                               ("size", JNum (entry_size d w name)) ])
                                   (entries d w))) ]) |}),
          {| uploadSessions := uploadSessions w;
             fs := fs w;
             trace := trace w ++ [ EvEnter LCors; EvEnter LJson;
                                   EvEnter LUrlencoded; EvEnter LStatic;
                                   EvEnter LList ] |}))
  ∧ (∀ req,
       req_path req = "/uploads" →
       handles_method GET (req_method req) = true →
       json_failure req = None →
       urlencoded_failure req = None →
       app d req e w
       = (Val (Responded
                 {| status := 301;
                    content := Html "Redirecting to /uploads/" |}),
          {| uploadSessions := uploadSessions w;
             fs := fs w;
             trace := trace w ++ [ EvEnter LCors; EvEnter LJson;
                                   EvEnter LUrlencoded; EvEnter LStatic ] |}))
  ∧ NoDup (entries d w)
  ∧ (∀ name, name ∈ entries d w
             ↔ ordinary name
               ∧ is_Some (fs w !! (uploadDir d +:+ "/" +:+ name)))
  ∧ (∀ rs w0,
       directory_ready d w0 →
       entries d w0 = [] →
       (serve_uploads d rs w0).2 = w →
       Forall succeeded (serve_uploads d rs w0).1 →
       NoDup (map generated_name rs) →
       length (entries d w) = length rs).
Proof.
  intros Hready Hquiet. split; [|split; [|split; [|split; [|split]]]].
  - apply list_handler_quiet; assumption.
  - intros req Hreach Hroute.
    destruct (listing_path req Hroute) as [H1 H2].
    unfold app, stack. rewrite (run_to_router d _ req e w Hreach).
    rewrite run_skip by (apply matched_false; exact H1).
    rewrite run_skip by (apply matched_false; exact H2).
    erewrite run_middleware;
      [|reflexivity | apply matched_true; exact Hroute
       | unfold guard; cbn [layer_name];
         rewrite (list_handler_quiet d e _ Habs); [reflexivity | exact Hready | exact Hquiet]].
    f_equal. apply world_eq; simpl; try reflexivity.
    rewrite <- !app_assoc. reflexivity.
  - intros req Hpath Hmeth Hjson Hurl. unfold app, stack.
    erewrite run_middleware with (s := Next);
      [|reflexivity | reflexivity
       | unfold guard, cors; destruct (req_method req); try reflexivity;
         discriminate].
    erewrite run_middleware with (s := Next);
      [|reflexivity | reflexivity
       | unfold guard, json_parser; rewrite Hjson; reflexivity].
    erewrite run_middleware with (s := Next);
      [|reflexivity | reflexivity
       | unfold guard, urlencoded_parser; rewrite Hurl; reflexivity].
    erewrite run_middleware;
      [|reflexivity | reflexivity
       | unfold guard; cbn [layer_name];
         rewrite (serve_static_redirects d Habs); [reflexivity | exact Hready | exact Hpath | exact Hmeth]].
    f_equal. apply world_eq; simpl; try reflexivity.
    rewrite <- !app_assoc. reflexivity.
  - apply entries_NoDup.
  - apply elem_of_entries.
  - intros rs w0 Hready0 Hempty <- Hok Hnd.
    apply uploads_counted; assumption.
Qed.

End ListingRoute.

(* ===================================================================== *)
(** * A session entry that was left behind *)
(* ===================================================================== *)

Section LeftoverEntries.
Import Str Path Http Server Express App JS.
Variable d : string.

(** The handler touches no entry of the session map but the one of the
    requesting client. *)
Lemma upload_handler_other_clients (req : request) (f : option stored_file)
    (e : env) (w : world) (ip : string) :
  ip ≠ req_ip req →
  uploadSessions (upload_handler d req f e w).2 !! ip = uploadSessions w !! ip.
Proof.
  intros Hne.
  destruct (uploadSessions w !! req_ip req) as [sid|] eqn:Hs.
  - rewrite upload_handler_duplicate by eauto. reflexivity.
  - destruct f as [sf|].
    + destruct (unlinked_before_stat e) eqn:Hq.
      * destruct (fs w !! Path.join (uploadDir d) (file_filename sf)) as [st|] eqn:E.
        -- rewrite upload_handler_throws by eauto. simpl.
           apply lookup_insert_ne. congruence.
        -- unfold upload_handler, sessions_has, sessions_set, sessions_delete,
             fs_existsSync. run_m.
           rewrite bool_decide_eq_false_2 by (rewrite Hs; apply is_Some_None).
           simpl. rewrite E.
           rewrite bool_decide_eq_false_2 by apply is_Some_None.
           simpl. rewrite lookup_delete_ne, lookup_insert_ne by congruence.
           reflexivity.
      * rewrite upload_handler_file by assumption. reflexivity.
    + rewrite upload_handler_no_file by assumption. reflexivity.
Qed.

Lemma post_upload_keeps_entry (req : request) (e : env) (w : world)
    (ip sid : string) :
  uploadSessions w !! ip = Some sid →
  uploadSessions (post_upload d req e w).2 !! ip = Some sid.
Proof.
  intros Hentry. rewrite post_upload_world. unfold upload_route. run_m.
  destruct (upload_single_events d req e w) as (_ & _ & _ & Hs).
  destruct (upload_single d "file" req e w) as [[[f|x]|x] w1]; simpl in *;
    [|rewrite Hs; exact Hentry ..].
  rewrite <- Hs in Hentry.
  destruct (decide (ip = req_ip req)) as [->|Hne].
  - rewrite upload_handler_duplicate by eauto. exact Hentry.
  - rewrite upload_handler_other_clients by exact Hne. exact Hentry.
Qed.

(** X26.  No request ever removes a session entry it did not set itself:
    an entry that is in the map when a sequence of upload requests starts
    (left behind by a handler that threw) is still there, unchanged, when
    the sequence ends, whoever sends the requests and whatever happens to
    them. *)
Theorem leftover_entry_is_never_released (rs : list (request * env))
    (w : world) (ip sid : string) :
  uploadSessions w !! ip = Some sid →
  uploadSessions (serve_uploads d rs w).2 !! ip = Some sid.
Proof.
  revert w. induction rs as [|[req e] rest IH]; intros w Hentry;
    [exact Hentry|].
  cbn [serve_uploads].
  pose proof (post_upload_keeps_entry req e w ip sid Hentry) as Hstep.
  destruct (post_upload d req e w) as [r w1]. simpl in Hstep.
  specialize (IH w1 Hstep).
  destruct (serve_uploads d rest w1) as [rs' w2]. exact IH.
Qed.

(** X27.  A client that has an entry in the session map is never answered
    200: its upload is answered 429 when multer stored the file or found
    none, and 400 or 500 when multer failed.  (It is not answered at all
    when the storage path of its file holds a NUL byte: the [TypeError]
    of [fs.createWriteStream] brings the process down.) *)
Theorem client_with_entry_never_succeeds (req : request) (e : env)
    (w : world) :
  is_Some (uploadSessions w !! req_ip req) →
  (∃ resp,
     (post_upload d req e w).1 = Val (Responded resp)
     ∧ (status resp = 429 ∨ status resp = 400 ∨ status resp = 500))
  ∨ ((post_upload d req e w).1
     = Val (Crashed (TypeError "ERR_INVALID_ARG_VALUE"))
     ∧ ∃ file,
         req_part req = Some file
         ∧ has_nul (Path.join (uploadDir d) (storage_filename e file)) = true).
Proof.
  intros Hentry.
  destruct (upload_single_events d req e w) as (_ & _ & _ & Hs).
  destruct (upload_single d "file" req e w) as [[[f|x]|x] w1] eqn:Hm;
    simpl in Hs.
  - left. rewrite <- Hs in Hentry.
    rewrite (post_upload_handler_end d req e w w1 _ _ _ Hm
               (upload_handler_duplicate d req f e w1 Hentry)).
    eexists. split; [reflexivity|]. left. reflexivity.
  - right. rewrite (post_upload_escaped d req e w w1 x Hm).
    destruct (upload_single_escaped_inv d req e w w1 x Hm) as [-> Hfile].
    split; [reflexivity | exact Hfile].
  - left. rewrite (post_upload_multer_error d req e w w1 x Hm).
    eexists. split; [reflexivity|].
    destruct (error_response_status x) as [H|H]; rewrite H; auto.
Qed.

End LeftoverEntries.

(* ===================================================================== *)
(** * More worked runs of the concrete deployment *)
(* ===================================================================== *)

Section MoreRuns.
Import Str Path Http Server Express App JS Startup Scenario Deployment.

Lemma succeededb_true (r : result final) : succeededb r = true → succeeded r.
Proof.
  destruct r as [[resp|]|]; try discriminate. intros H.
  exists resp. split; [reflexivity|]. apply Z.eqb_eq. exact H.
Qed.

Lemma photo_upload_succeeds :
  succeeded (post_upload dirname (upload_from "10.0.0.7" photo) quiet fresh).1.
Proof. apply succeededb_true. vm_compute. reflexivity. Qed.

Lemma quiet_valid : valid_unit (rnd quiet).
Proof. unfold valid_unit. simpl. lia. Qed.

Lemma stored_name_ordinary : ordinary stored_name.
Proof. repeat split; (discriminate || reflexivity). Qed.

Lemma bare_clear (a : string) (st : stats) :
  a ∈ ancestors (uploadDir dirname) → bare !! a = Some st →
  st_isDirectory st = true.
Proof.
  intros Hin Hst. apply list_elem_of_In in Hin. vm_compute in Hin.
  destruct Hin as [<-|[<-|[<-|[<-|[]]]]]; vm_compute in Hst;
    try discriminate. injection Hst as <-. reflexivity.
Qed.

Lemma unready_not_ready : ¬ directory_ready dirname unready.
Proof. intros (st & H & _). vm_compute in H. discriminate. Qed.

Lemma rejected_type_answered_500_witness :
  fileFilter script ≠ Accept
  ∧ (post_upload dirname (upload_from "10.0.0.7" script) quiet fresh).1
    = Val (Responded internal_error).
Proof.
  assert (H : fileFilter script ≠ Accept) by (vm_compute; discriminate).
  split; [exact H|].
  rewrite (rejected_type_answered_500 dirname (upload_from "10.0.0.7" script)
             quiet fresh script eq_refl ltac:(discriminate) eq_refl H).
  reflexivity.
Defined.

Lemma upload_without_file_answered_400_witness :
  uploadSessions fresh !! "10.0.0.7" = None
  ∧ (post_upload dirname (upload_without_part "10.0.0.7") quiet fresh).1
    = Val (Responded no_file).
Proof.
  split; [reflexivity|].
  rewrite (upload_without_file_answered_400 dirname
             (upload_without_part "10.0.0.7") quiet fresh
             ltac:(intros file H; discriminate) eq_refl).
  reflexivity.
Defined.

Lemma unexpected_field_answered_400_witness :
  fieldname misfiled ≠ "file"
  ∧ post_upload dirname (upload_from "10.0.0.7" misfiled) quiet fresh
    = (Val (Responded (failure 400 "Upload error: Unexpected field")), fresh).
Proof.
  assert (H : fieldname misfiled ≠ "file") by discriminate.
  split; [exact H|].
  exact (unexpected_field_answered_400 dirname
           (upload_from "10.0.0.7" misfiled) quiet fresh misfiled
           eq_refl ltac:(discriminate) H).
Defined.

Lemma gate_left_as_found_witness :
  unlinked_before_stat quiet = false
  ∧ uploadSessions
      (post_upload dirname (upload_from "10.0.0.7" photo) quiet busy).2
    = uploadSessions busy.
Proof.
  split; [reflexivity|].
  exact (gate_left_as_found dirname (upload_from "10.0.0.7" photo) quiet busy
           eq_refl).
Defined.


Lemma upload_changes_only_its_file_witness :
  fs (post_upload dirname (upload_from "10.0.0.7" sneaky) quiet with_sibling).2
    !! secret_path
  = fs with_sibling !! secret_path.
Proof.
  apply (upload_changes_only_its_file dirname (upload_from "10.0.0.7" sneaky)
           quiet with_sibling secret_path).
  intros file H. injection H as <-. vm_compute. discriminate.
Defined.

Lemma stored_path_inside_upload_dir_witness :
  isAbsolute dirname = true
  ∧ file_path (stored_as dirname quiet sneaky)
    = "/srv/app/public/uploads/1700000000000-500000000.png"
  ∧ inside (uploadDir dirname) (file_path (stored_as dirname quiet sneaky))
    = true.
Proof.
  split; [reflexivity|].
  destruct (stored_path_inside_upload_dir dirname quiet sneaky eq_refl)
    as (Hpath & _ & _ & Hinside & _).
  split; [|exact Hinside]. rewrite Hpath. vm_compute. reflexivity.
Defined.

Lemma stored_names_equal_iff_witness :
  valid_unit (rnd quiet)
  ∧ 0 <= t_name quiet
  ∧ storage_filename quiet photo = storage_filename quiet poster.
Proof.
  assert (Ht : 0 <= t_name quiet) by (simpl; lia).
  split; [exact quiet_valid|]. split; [exact Ht|].
  apply (stored_names_equal_iff quiet quiet photo poster Ht Ht
           quiet_valid quiet_valid).
  repeat split; reflexivity.
Defined.

Lemma listing_without_directory_answered_500_witness :
  ¬ directory_ready dirname unready
  ∧ (list_handler dirname quiet unready).1 = Val (End list_failure).
Proof.
  split; [exact unready_not_ready|].
  rewrite (listing_without_directory_answered_500 dirname quiet unready
             unready_not_ready).
  reflexivity.
Defined.

Lemma upload_then_listed_witness :
  isAbsolute dirname = true
  ∧ ∃ files,
      (list_handler dirname later stored).1
      = Val (End (json_response 200
                    (JObj [ ("success", JBool true);
                            ("count", JNum (Z.of_nat (length files)));
                            ("files", JArr files) ])))
      ∧ In (list_entry stored_name 2097152) files.
Proof.
  split; [reflexivity|].
  destruct (upload_then_listed dirname eq_refl (upload_from "10.0.0.7" photo)
              quiet later fresh photo_upload_succeeds eq_refl)
    as (file & files & Hpart & Hrun & Hin).
  injection Hpart as <-. exists files. split; [exact Hrun | exact Hin].
Defined.

Lemma upload_then_retrievable_witness :
  containsDotFile (uploadDir dirname) = false
  ∧ (getfile_handler dirname stored_name stored).1
    = Val (End {| status := 200; content := FileContent stored_path |}).
Proof.
  split; [reflexivity|].
  destruct (upload_then_retrievable dirname eq_refl
              (upload_from "10.0.0.7" photo) quiet fresh eq_refl
              photo_upload_succeeds)
    as (file & Hpart & Hrun).
  injection Hpart as <-.
  change (storage_filename quiet photo) with stored_name in Hrun.
  unfold stored. rewrite Hrun. reflexivity.
Defined.

Lemma startup_prepares_directory_witness :
  isAbsolute dirname = true
  ∧ ∃ w', startup dirname 4096 cold = (Val tt, w')
          ∧ directory_ready dirname w'
          ∧ fs w' !! "/srv" = Some directory.
Proof.
  split; [reflexivity|].
  destruct (startup_prepares_directory dirname 4096 cold eq_refl bare_clear)
    as (w' & Hrun & Hready & _ & Hkeep & _).
  exists w'. split; [exact Hrun|]. split; [exact Hready|].
  apply Hkeep. reflexivity.
Defined.

Lemma startup_again_changes_nothing_witness :
  let started := (startup dirname 4096 cold).2 in
  startup dirname 4096 cold = (Val tt, started)
  ∧ startup dirname 8192 started = (Val tt, started).
Proof.
  intros started.
  assert (H : startup dirname 4096 cold = (Val tt, started))
    by (vm_compute; reflexivity).
  split; [exact H|].
  exact (startup_again_changes_nothing dirname 4096 8192 cold started
           eq_refl H).
Defined.

Lemma startup_fails_on_file_in_the_way_witness :
  "/srv/app" ∈ ancestors (uploadDir dirname)
  ∧ fs obstructed !! "/srv/app" = Some (file_node 7)
  ∧ startup dirname 4096 obstructed = (Throw (SystemError "ENOTDIR"), obstructed).
Proof.
  assert (Hin : "/srv/app" ∈ ancestors (uploadDir dirname)).
  { apply list_elem_of_In. vm_compute. right. left. reflexivity. }
  assert (Hst : fs obstructed !! "/srv/app" = Some (file_node 7))
    by (vm_compute; reflexivity).
  split; [exact Hin|]. split; [exact Hst|].
  exact (startup_fails_on_file_in_the_way dirname 4096 obstructed "/srv/app"
           (file_node 7) ltac:(vm_compute; reflexivity) Hin Hst eq_refl).
Defined.

Lemma upload_without_directory_answered_500_witness :
  ¬ directory_ready dirname unready
  ∧ (post_upload dirname (upload_from "10.0.0.7" photo) quiet unready).1
    = Val (Responded internal_error).
Proof.
  split; [exact unready_not_ready|].
  rewrite (upload_without_directory_answered_500 dirname
             (upload_from "10.0.0.7" photo) quiet unready photo
             unready_not_ready eq_refl ltac:(discriminate) eq_refl eq_refl
             ltac:(vm_compute; reflexivity)).
  reflexivity.
Defined.

Lemma startup_overlooks_file_in_place_witness :
  fs blocked !! uploadDir dirname = Some (file_node 12)
  ∧ startup dirname 4096 blocked = (Val tt, blocked)
  ∧ (post_upload dirname (upload_from "10.0.0.7" photo) quiet blocked).1
    = Val (Responded internal_error).
Proof.
  assert (Hst : fs blocked !! uploadDir dirname = Some (file_node 12))
    by (vm_compute; reflexivity).
  destruct (startup_overlooks_file_in_place dirname 4096 blocked
              (file_node 12) Hst eq_refl) as [Hrun Hup].
  split; [exact Hst|]. split; [exact Hrun|].
  exact (Hup (upload_from "10.0.0.7" photo) quiet photo eq_refl
           ltac:(discriminate) eq_refl eq_refl
           ltac:(vm_compute; reflexivity)).
Defined.

Lemma first_upload_after_startup_succeeds_witness :
  isAbsolute dirname = true
  ∧ ∃ w', boot dirname 4096 bare = (Val tt, w')
          ∧ succeeded
              (post_upload dirname (upload_from "10.0.0.7" photo) quiet w').1.
Proof.
  split; [reflexivity|].
  destruct (first_upload_after_startup_succeeds dirname 4096 bare
              (upload_from "10.0.0.7" photo) quiet photo eq_refl bare_clear
              ltac:(intros st H; vm_compute in H; discriminate)
              ltac:(vm_compute; reflexivity) ltac:(vm_compute; reflexivity)
              eq_refl ltac:(discriminate) eq_refl eq_refl
              ltac:(vm_compute; reflexivity) eq_refl)
    as (w' & Hboot & Hok & _).
  exists w'. split; [exact Hboot | exact Hok].
Defined.

Lemma crash_only_from_listing_or_nul_name_witness :
  (app dirname (upload_from "10.0.0.7" nul_named) quiet fresh).1
  = Val (Crashed (TypeError "ERR_INVALID_ARG_VALUE"))
  ∧ has_nul (Path.join (uploadDir dirname) (storage_filename quiet nul_named))
    = true
  ∧ (app dirname (get "/uploads/") sweeping stored).1
    = Val (Crashed (SystemError "ENOENT"))
  ∧ match_path "/uploads" (req_path (get "/uploads/")) = true.
Proof.
  assert (H : (app dirname (upload_from "10.0.0.7" nul_named) quiet fresh).1
              = Val (Crashed (TypeError "ERR_INVALID_ARG_VALUE")))
    by (vm_compute; reflexivity).
  assert (H' : (app dirname (get "/uploads/") sweeping stored).1
               = Val (Crashed (SystemError "ENOENT")))
    by (vm_compute; reflexivity).
  split; [exact H|]. split; [|split; [exact H'|]].
  - destruct (crash_only_from_listing_or_nul_name dirname
                (upload_from "10.0.0.7" nul_named) quiet fresh _ H)
      as [(Hx & _)|(_ & _ & _ & file & Hpart & Hnul)]; [discriminate Hx|].
    injection Hpart as <-. exact Hnul.
  - destruct (crash_only_from_listing_or_nul_name dirname (get "/uploads/")
                sweeping stored _ H')
      as [(_ & Hpath & _)|(Hx & _)]; [exact Hpath | discriminate Hx].
Defined.

Lemma health_reports_ok_witness :
  reaches_router dirname (get "/Health/") quiet unready
  ∧ route GET "/health" (get "/Health/") = true
  ∧ (app dirname (get "/Health/") quiet unready).1
    = Val (Responded
             (json_response 200
                (JObj [ ("status", JStr "OK");
                        ("timestamp", JStr "2023-11-14T22:13:20.006Z");
                        ("uploadsDir", JStr "/srv/app/public/uploads") ]))).
Proof.
  assert (H1 : reaches_router dirname (get "/Health/") quiet unready).
  { repeat split; try discriminate; vm_compute; reflexivity. }
  assert (H2 : route GET "/health" (get "/Health/") = true)
    by (vm_compute; reflexivity).
  split; [exact H1|]. split; [exact H2|].
  rewrite (health_reports_ok dirname (get "/Health/") quiet unready H1 H2).
  vm_compute. reflexivity.
Defined.

Lemma root_without_index_answered_500_witness :
  reaches_router dirname (get "/") quiet fresh
  ∧ fs fresh !! indexHtml dirname = None
  ∧ (app dirname (get "/") quiet fresh).1 = Val (Responded internal_error).
Proof.
  assert (H1 : reaches_router dirname (get "/") quiet fresh).
  { repeat split; try discriminate; vm_compute; reflexivity. }
  assert (H2 : fs fresh !! indexHtml dirname = None)
    by (vm_compute; reflexivity).
  split; [exact H1|]. split; [exact H2|].
  rewrite (root_without_index_answered_500 dirname (get "/") quiet fresh
             H1 eq_refl H2).
  reflexivity.
Defined.

Lemma odd_name_ordinary : ordinary odd_name.
Proof. repeat split; (discriminate || reflexivity). Qed.

Lemma static_layer_serves_stored_files_witness :
  decodeURIComponent "/uploads/a%3Fb%20%231.png" = Some ("/uploads/" +:+ odd_name)
  ∧ fs with_odd_name !! (uploadDir dirname +:+ "/" +:+ odd_name)
    = Some (file_node 10)
  ∧ (app dirname (get "/uploads/a%3Fb%20%231.png") quiet with_odd_name).1
    = Val (Responded
             {| status := 200;
                content := FileContent "/srv/app/public/uploads/a?b #1.png" |}).
Proof.
  assert (Hd : decodeURIComponent "/uploads/a%3Fb%20%231.png"
               = Some ("/uploads/" +:+ odd_name))
    by (vm_compute; reflexivity).
  assert (H : fs with_odd_name !! (uploadDir dirname +:+ "/" +:+ odd_name)
              = Some (file_node 10))
    by (vm_compute; reflexivity).
  split; [exact Hd|]. split; [exact H|].
  rewrite (static_layer_serves_stored_files dirname eq_refl
             (get "/uploads/a%3Fb%20%231.png") quiet with_odd_name
             odd_name (file_node 10) odd_name_ordinary
             eq_refl eq_refl eq_refl Hd eq_refl eq_refl eq_refl eq_refl
             H eq_refl).
  reflexivity.
Defined.

Lemma upload_url_serves_the_file_witness :
  decodeURIComponent "/uploads/1700000000000-500000000.png"
  = Some ("/uploads/" +:+ storage_filename quiet photo)
  ∧ (app dirname (get "/uploads/1700000000000-500000000.png") later stored).1
    = Val (Responded {| status := 200; content := FileContent stored_path |}).
Proof.
  assert (Hd : decodeURIComponent "/uploads/1700000000000-500000000.png"
               = Some ("/uploads/" +:+ storage_filename quiet photo))
    by (vm_compute; reflexivity).
  split; [exact Hd|].
  exact (upload_url_serves_the_file dirname eq_refl
           (upload_from "10.0.0.7" photo)
           (get "/uploads/1700000000000-500000000.png") quiet later fresh
           photo photo_upload_succeeds eq_refl Hd eq_refl eq_refl eq_refl
           eq_refl).
Defined.

Lemma leftover_entry_is_never_released_witness :
  uploadSessions busy !! "10.0.0.7" = Some "10.0.0.71700000000001"
  ∧ uploadSessions (serve_uploads dirname repeated busy).2 !! "10.0.0.7"
    = Some "10.0.0.71700000000001".
Proof.
  assert (H : uploadSessions busy !! "10.0.0.7" = Some "10.0.0.71700000000001")
    by (vm_compute; reflexivity).
  split; [exact H|].
  exact (leftover_entry_is_never_released dirname repeated busy _ _ H).
Defined.

Lemma client_with_entry_never_succeeds_witness :
  is_Some (uploadSessions busy !! "10.0.0.7")
  ∧ ∃ resp,
      (post_upload dirname (upload_from "10.0.0.7" photo) quiet busy).1
      = Val (Responded resp)
      ∧ (status resp = 429 ∨ status resp = 400 ∨ status resp = 500).
Proof.
  assert (H : is_Some (uploadSessions busy !! "10.0.0.7"))
    by (vm_compute; eauto).
  split; [exact H|].
  destruct (client_with_entry_never_succeeds dirname
              (upload_from "10.0.0.7" photo) quiet busy H)
    as [Hresp|(_ & file & Hpart & Hnul)]; [exact Hresp|].
  injection Hpart as <-. vm_compute in Hnul. discriminate Hnul.
Defined.

Lemma twice_ready : directory_ready dirname twice.
Proof. exists directory. split; vm_compute; reflexivity. Qed.

Lemma listing_reports_entries_witness :
  isAbsolute dirname = true
  ∧ directory_ready dirname twice
  ∧ unlinked_after_scan quiet = []
  ∧ reaches_router dirname (get "/uploads/") quiet twice
  ∧ route GET "/uploads" (get "/uploads/") = true
  ∧ length (entries dirname twice) = 2%nat
  ∧ (∃ files,
       (app dirname (get "/uploads/") quiet twice).1
       = Val (Responded (json_response 200
                           (JObj [ ("success", JBool true); ("count", JNum 2);
                                   ("files", JArr files) ]))))
  ∧ (app dirname (get "/uploads") quiet twice).1
    = Val (Responded {| status := 301;
                        content := Html "Redirecting to /uploads/" |}).
Proof.
  assert (Hreach : reaches_router dirname (get "/uploads/") quiet twice).
  { repeat split; try discriminate; vm_compute; reflexivity. }
  assert (Hroute : route GET "/uploads" (get "/uploads/") = true)
    by (vm_compute; reflexivity).
  split; [reflexivity|]. split; [exact twice_ready|]. split; [reflexivity|].
  split; [exact Hreach|]. split; [exact Hroute|].
  destruct (listing_reports_entries dirname eq_refl quiet twice twice_ready
              eq_refl)
    as (_ & Happ & Hredirect & _ & _ & Hcount).
  assert (Hlen : length (entries dirname twice) = 2%nat).
  { apply (Hcount distinct fresh fresh_ready).
    - vm_compute. reflexivity.
    - reflexivity.
    - apply succeededb_all. vm_compute. reflexivity.
    - apply (bool_decide_unpack (NoDup (map generated_name distinct))).
      vm_compute. exact I. }
  split; [exact Hlen|]. split.
  - eexists. rewrite (Happ (get "/uploads/") Hreach Hroute), Hlen. reflexivity.
  - rewrite (Hredirect (get "/uploads") eq_refl eq_refl eq_refl eq_refl).
    reflexivity.
Defined.

(** An upload whose storage path holds a NUL byte is not answered:
    [fs.createWriteStream] throws inside multer's callback, after the
    filter has been asked and before anything is written or the gate is
    consulted. *)
Example nul_named_upload_is_not_answered :
  post_upload dirname (upload_from "10.0.0.7" nul_named) quiet fresh
  = (Val (Crashed (TypeError "ERR_INVALID_ARG_VALUE")),
     {| uploadSessions := ∅; fs := fs fresh;
        trace := [EvFilter (originalname nul_named)] |}).
Proof. vm_compute. reflexivity. Qed.

(** An upload whose generated name is longer than the file system takes
    is answered 500, whatever its size: the open fails before the size
    limit can fire. *)
Example long_named_upload_answered_500 :
  (post_upload dirname (upload_from "10.0.0.7" long_named) quiet fresh).1
  = Val (Responded internal_error)
  ∧ (post_upload dirname (upload_from "10.0.0.7" long_named_poster) quiet fresh).1
    = Val (Responded internal_error)
  ∧ fs (post_upload dirname (upload_from "10.0.0.7" long_named) quiet fresh).2
    = fs fresh.
Proof. vm_compute. repeat split; reflexivity. Qed.

(** A path that only decodes to one with a trailing slash names the
    directory as well: the static middleware redirects. *)
Example encoded_slash_redirects :
  (app dirname (get "/uploads%2F") quiet fresh).1
  = Val (Responded {| status := 301;
                      content := Html "Redirecting to /uploads%2F/" |}).
Proof. vm_compute. reflexivity. Qed.

(** The [url] of an answer is the generated name as it is: when the
    extension holds a question mark the path of that URL ends before it,
    and a [GET] of it finds no file; the path with the mark escaped does. *)
Example url_with_query_mark_is_not_the_file :
  let uploaded := post_upload dirname (upload_from "10.0.0.7" queried) quiet fresh in
  storage_filename quiet queried = "1700000000000-500000000.p?g"
  ∧ succeededb uploaded.1 = true
  ∧ (app dirname (get queried_url_path) later uploaded.2).1
    = Val (Responded file_not_found)
  ∧ (app dirname (get "/uploads/1700000000000-500000000.p%3Fg") later uploaded.2).1
    = Val (Responded
             {| status := 200;
                content :=
                  FileContent "/srv/app/public/uploads/1700000000000-500000000.p?g" |}).
Proof. vm_compute. repeat split; reflexivity. Qed.

End MoreRuns.
